(** * b3pulse: the ingestion pipeline, embedded and verified

    A shallow embedding of the Go package [internal/ingestion]
    (business-day calendar, file parser, directory orchestrator) together
    with the parts of the Go standard library it relies on, followed by
    the properties of the specification that were checked against it.

    Conventions.
    - Go [int]/[int64] values are modelled by [Z].  The only places where the
      64-bit range matters ([strconv.ParseInt]) write the bounds out; row
      counters and line numbers cannot reach 2^63.
    - Go strings are byte strings: Rocq's [string] (a list of 8-bit
      characters), [String.length] being Go's [len].
    - A [time.Time] is modelled by the civil day it denotes in its own
      location (days elapsed since 0001-01-01), the nanoseconds elapsed since
      midnight in that location, and the identity of its [*Location].  Zone
      offset transitions (daylight saving) are not modelled. *)

From Stdlib Require Import ZArith String Ascii List Bool Lia Floats.
From stdpp Require Import base decidable countable gmap strings list.
Import ListNotations.
Local Open Scope string_scope.
Local Open Scope list_scope.
Local Open Scope Z_scope.

(** Go's [len] on a slice. *)
Definition len {A : Type} (l : list A) : Z := Z.of_nat (length l).

(** ** Package [time] *)

(** The identity of a [*time.Location].  [time.Local] and [time.UTC] are the
    two package-level locations; any other location ([time.LoadLocation],
    [time.FixedZone]) is a pointer of its own. *)
Inductive Location : Type :=
| LocLocal
| LocUTC
| LocPtr (addr : nat).

#[global] Instance Location_eq_dec : EqDecision Location.
Proof. solve_decision. Defined.

#[global] Instance Location_countable : Countable Location.
Proof.
  refine (inj_countable'
            (fun l => match l with
                      | LocLocal => inl true
                      | LocUTC => inl false
                      | LocPtr a => inr a
                      end)
            (fun s => match s with
                      | inl true => LocLocal
                      | inl false => LocUTC
                      | inr a => LocPtr a
                      end) _).
  intros []; reflexivity.
Defined.

Record Time : Type := mkTime {
  tday : Z;          (* civil day in [tloc], counted from 0001-01-01 *)
  tnano : Z;         (* nanoseconds since midnight in [tloc] *)
  tloc : Location
}.

#[global] Instance Time_eq_dec : EqDecision Time.
Proof. solve_decision. Defined.

#[global] Instance Time_countable : Countable Time.
Proof.
  refine (inj_countable'
            (fun t => (tday t, tnano t, tloc t))
            (fun p => mkTime p.1.1 p.1.2 p.2) _).
  intros []; reflexivity.
Defined.

(** The zero value [time.Time{}]: January 1, year 1, 00:00:00 UTC. *)
Definition zeroTime : Time := mkTime 0 0 LocUTC.

Definition IsZero (t : Time) : bool := bool_decide (t = zeroTime).

Inductive Weekday : Type :=
| Sunday | Monday | Tuesday | Wednesday | Thursday | Friday | Saturday.

#[global] Instance Weekday_eq_dec : EqDecision Weekday.
Proof. solve_decision. Defined.

Definition isLeap (year : Z) : bool :=
  (year mod 4 =? 0) && (negb (year mod 100 =? 0) || (year mod 400 =? 0)).

(** [daysBefore m] is the number of days in a non-leap year before month
    [m + 1] (Go's table of the same name). *)
Definition daysBefore (m : Z) : Z :=
  nth (Z.to_nat m) [0; 31; 59; 90; 120; 151; 181; 212; 243; 273; 304; 334; 365] 365.

(** The number of days of a month. *)
Definition daysIn (month year : Z) : Z :=
  if (month =? 2) && isLeap year then 29
  else daysBefore month - daysBefore (month - 1).

(** Days from 0001-01-01 to January 1 of [year] (proleptic Gregorian). *)
Definition daysSinceEpoch (year : Z) : Z :=
  let y := year - 1 in
  365 * y + y / 4 - y / 100 + y / 400.

(** The day count of [time.Date(year, month, day, ...)]: the month overflows
    into the year, the day is added linearly, as Go normalises. *)
Definition daysOfCivil (year month day : Z) : Z :=
  let m := month - 1 in
  let year := year + m / 12 in
  let m := m mod 12 in
  daysSinceEpoch year + daysBefore m
  + (if isLeap year && (2 <=? m) then 1 else 0)
  + (day - 1).

Definition nanosPerDay : Z := 86400 * 1000000000.

(** [time.Date]: hours, minutes, seconds and nanoseconds overflow into the
    day. *)
Definition time_Date (year month day hour min sec nsec : Z) (loc : Location) : Time :=
  let ns := ((hour * 60 + min) * 60 + sec) * 1000000000 + nsec in
  mkTime (daysOfCivil year month day + ns / nanosPerDay) (ns mod nanosPerDay) loc.

(** Month (1..12) and day of month (1..31) of the [yday]-th day (from 0) of
    a year. *)
Definition monthDayOfYday (leap : bool) (yday : Z) : Z * Z :=
  let before (m : Z) := daysBefore m + (if leap && (2 <=? m) then 1 else 0) in
  let m := Z.of_nat (length (filter (fun k => before k <=? yday)
                                    [1; 2; 3; 4; 5; 6; 7; 8; 9; 10; 11])) in
  (m + 1, yday - before m + 1).

(** Year, month and day of a day count: the 400/100/4/1-year cycle
    decomposition of Go's [absDate]. *)
Definition civilOfDays (n : Z) : Z * Z * Z :=
  let n400 := n / 146097 in
  let r := n mod 146097 in
  let n100 := Z.min (r / 36524) 3 in
  let r := r - 36524 * n100 in
  let n4 := r / 1461 in
  let r := r - 1461 * n4 in
  let n1 := Z.min (r / 365) 3 in
  let yday := r - 365 * n1 in
  let year := 400 * n400 + 100 * n100 + 4 * n4 + n1 + 1 in
  let '(m, d) := monthDayOfYday (isLeap year) yday in
  (year, m, d).

Definition Year (t : Time) : Z := (civilOfDays (tday t)).1.1.
Definition Month (t : Time) : Z := (civilOfDays (tday t)).1.2.
Definition Day (t : Time) : Z := (civilOfDays (tday t)).2.
Definition Hour (t : Time) : Z := tnano t / 3600000000000.
Definition Minute (t : Time) : Z := (tnano t / 60000000000) mod 60.
Definition Second (t : Time) : Z := (tnano t / 1000000000) mod 60.
Definition Nanosecond (t : Time) : Z := tnano t mod 1000000000.

(** [t.Location()]. *)
Definition TimeLocation (t : Time) : Location := tloc t.

(** [t.Weekday()]: 0001-01-01 is a Monday. *)
Definition TimeWeekday (t : Time) : Weekday :=
  match (tday t + 1) mod 7 with
  | 0 => Sunday
  | 1 => Monday
  | 2 => Tuesday
  | 3 => Wednesday
  | 4 => Thursday
  | 5 => Friday
  | _ => Saturday
  end.

(** [t.AddDate(years, months, days)]. *)
Definition AddDate (years months days : Z) (t : Time) : Time :=
  time_Date (Year t + years) (Month t + months) (Day t + days)
            (Hour t) (Minute t) (Second t) (Nanosecond t) (TimeLocation t).

(** [t.Before(u)]: comparison of instants, here for two times of one
    location. *)
Definition Before (t u : Time) : bool :=
  (tday t <? tday u) || ((tday t =? tday u) && (tnano t <? tnano u)).

(** Decimal digits. *)
Definition digitChar (d : Z) : ascii := ascii_of_nat (48 + Z.to_nat d).

Fixpoint digitsOf (fuel : nat) (x : Z) (acc : string) : string :=
  match fuel with
  | O => acc
  | S fuel' =>
      let acc' := String (digitChar (x mod 10)) acc in
      if x <? 10 then acc' else digitsOf fuel' (x / 10) acc'
  end.

Fixpoint zeros (n : nat) : string :=
  match n with
  | O => ""
  | S n' => String "0"%char (zeros n')
  end.

(** Go's [appendInt]: the decimal form of [x], zero-padded to [width]
    digits, with a leading minus sign for a negative [x]. *)
Definition appendInt (x : Z) (width : nat) : string :=
  let u := Z.abs x in
  let ds := digitsOf (S (Z.to_nat (Z.log2 u))) u "" in
  (if x <? 0 then "-" else "") +:+ zeros (width - String.length ds)%nat +:+ ds.

(** [t.Format("01-02")]. *)
Definition Format_01_02 (t : Time) : string :=
  appendInt (Month t) 2 +:+ "-" +:+ appendInt (Day t) 2.

(** ** [holidays.go] *)

Definition truncateToDate (t : Time) : Time :=
  let '(y, m, d) := (Year t, Month t, Day t) in
  time_Date y m d 0 0 0 0 (TimeLocation t).

(** [easterSunday] (Meeus/Jones/Butcher).  Go's [/] and [%] on [int]
    truncate toward zero: [Z.quot] and [Z.rem]. *)
Definition easterSunday (year : Z) : Time :=
  let a := Z.rem year 19 in
  let b := Z.quot year 100 in
  let c := Z.rem year 100 in
  let d := Z.quot b 4 in
  let e := Z.rem b 4 in
  let f := Z.quot (b + 8) 25 in
  let g := Z.quot (b - f + 1) 3 in
  let h := Z.rem (19 * a + b - d - g + 15) 30 in
  let i := Z.quot c 4 in
  let k := Z.rem c 4 in
  let l := Z.rem (32 + 2 * e + 2 * i - h - k) 7 in
  let m := Z.quot (a + 11 * h + 22 * l) 451 in
  let month := Z.quot (h + l - 7 * m + 114) 31 in
  let day := Z.rem (h + l - 7 * m + 114) 31 + 1 in
  time_Date year month day 0 0 0 0 LocLocal.

(** The map literal [fixed] of [isBusinessDayBR], used as a set of
    month-day keys. *)
Definition fixed : gset string :=
  {[ "01-01"; "04-21"; "05-01"; "09-07"; "10-12"; "11-02"; "11-15"; "12-25" ]}.

(** The map [movables] of [isBusinessDayBR] for a year.  Its keys are
    [time.Time] values: Go compares map keys with [==], which on a
    [time.Time] compares the instant and the [*Location] pointer. *)
Definition movables (y : Z) : gset Time :=
  let easter := easterSunday y in
  let carnivalMon := AddDate 0 0 (-48) easter in
  let carnivalTue := AddDate 0 0 (-47) easter in
  let goodFriday := AddDate 0 0 (-2) easter in
  let corpusChristi := AddDate 0 0 60 easter in
  {[ truncateToDate carnivalMon; truncateToDate carnivalTue;
     truncateToDate goodFriday; truncateToDate corpusChristi ]}.

Definition isBusinessDayBR (d : Time) : bool :=
  let wd := TimeWeekday d in
  if bool_decide (wd = Saturday) || bool_decide (wd = Sunday) then false
  else
    let key := Format_01_02 d in
    if bool_decide (key ∈ fixed) then false
    else
      let y := Year d in
      if bool_decide (truncateToDate d ∈ movables y) then false
      else true.

(** The loop of [LastNBusinessDays]; [fuel] bounds the number of
    iterations, [None] meaning that it ran out. *)
Fixpoint lastNLoop (fuel : nat) (n : Z) (out : list Time) (d : Time)
  : option (list Time) :=
  if len out <? n then
    match fuel with
    | O => None
    | S fuel' =>
        let out := if isBusinessDayBR d then out ++ [d] else out in
        lastNLoop fuel' n out (AddDate 0 0 (-1) d)
    end
  else Some out.

(** Twenty-one consecutive days always hold a business day
    ([business_day_within_21] below), so this many iterations suffice. *)
Definition lastNFuel (n : Z) : nat := Z.to_nat (21 * n).

(** [LastNBusinessDays n from].  [make([]time.Time, 0, n)] panics for a
    negative [n]; the callers clamp [n] to 1..7.  [None] stands for that
    panic (and for an exhausted loop bound, which cannot happen). *)
Definition LastNBusinessDays (n : Z) (from : Time) : option (list Time) :=
  if n <? 0 then None
  else lastNLoop (lastNFuel n) n [] (truncateToDate from).

(** ** Packages [strings], [strconv] and the layouts of [time.Parse] *)

Definition byteOf (c : ascii) : Z := Z.of_nat (nat_of_ascii c).

Definition bytes (l : list Z) : list ascii :=
  map (fun b => ascii_of_nat (Z.to_nat b)) l.

(** The UTF-8 encodings of the runes for which [unicode.IsSpace] holds:
    tab, line feed, vertical tab, form feed, carriage return, space, U+0085,
    U+00A0, U+1680, U+2000..U+200A, U+2028, U+2029, U+202F, U+205F,
    U+3000. *)
Definition spaceRunes : list (list ascii) :=
  map bytes
      [ [9]; [10]; [11]; [12]; [13]; [32]; [194; 133]; [194; 160];
        [225; 154; 128];
        [226; 128; 128]; [226; 128; 129]; [226; 128; 130]; [226; 128; 131];
        [226; 128; 132]; [226; 128; 133]; [226; 128; 134]; [226; 128; 135];
        [226; 128; 136]; [226; 128; 137]; [226; 128; 138];
        [226; 128; 168]; [226; 128; 169]; [226; 128; 175];
        [226; 129; 159]; [227; 128; 128] ].

Fixpoint stripPrefix (p l : list ascii) : option (list ascii) :=
  match p, l with
  | [], _ => Some l
  | a :: p', b :: l' => if bool_decide (a = b) then stripPrefix p' l' else None
  | _ :: _, [] => None
  end.

(** Removes one leading rune of [runes], if there is one. *)
Fixpoint dropRune (runes : list (list ascii)) (l : list ascii)
  : option (list ascii) :=
  match runes with
  | [] => None
  | r :: runes' =>
      match stripPrefix r l with
      | Some l' => Some l'
      | None => dropRune runes' l
      end
  end.

Fixpoint trimLeftRunes (fuel : nat) (runes : list (list ascii))
         (l : list ascii) : list ascii :=
  match fuel with
  | O => l
  | S fuel' =>
      match dropRune runes l with
      | Some l' => trimLeftRunes fuel' runes l'
      | None => l
      end
  end.

(** [strings.TrimSpace]: leading, then trailing white space is removed, a
    rune at a time. *)
Definition TrimSpace (s : string) : string :=
  let l := list_ascii_of_string s in
  let l := trimLeftRunes (length l) spaceRunes l in
  let r := trimLeftRunes (length l) (map (@rev ascii) spaceRunes) (rev l) in
  string_of_list_ascii (rev r).

(** [strings.ReplaceAll(s, ",", ".")]. *)
Fixpoint ReplaceAll_comma_dot (s : string) : string :=
  match s with
  | EmptyString => EmptyString
  | String c s' =>
      String (if bool_decide (c = ","%char) then "."%char else c)
             (ReplaceAll_comma_dot s')
  end.

(** [strings.TrimSuffix]. *)
Definition TrimSuffix (s suffix : string) : string :=
  match stripPrefix (rev (list_ascii_of_string suffix))
                    (rev (list_ascii_of_string s)) with
  | Some r => string_of_list_ascii (rev r)
  | None => s
  end.

(** [strings.Join]. *)
Fixpoint Join (elems : list string) (sep : string) : string :=
  match elems with
  | [] => ""
  | [e] => e
  | e :: elems' => e +:+ sep +:+ Join elems' sep
  end.

Definition isDigit (c : ascii) : bool := (48 <=? byteOf c) && (byteOf c <=? 57).

Definition digitVal (c : ascii) : Z := byteOf c - 48.

(** The value of a string of decimal digits; [None] for the empty string
    and for any other character. *)
Fixpoint decimalValue (acc : Z) (l : list ascii) : option Z :=
  match l with
  | [] => Some acc
  | c :: l' => if isDigit c then decimalValue (10 * acc + digitVal c) l' else None
  end.

Definition parseDigits (l : list ascii) : option Z :=
  match l with
  | [] => None
  | _ => decimalValue 0 l
  end.

(** [strconv.ParseInt(s, 10, 64)]: an optional sign and at least one
    decimal digit, the value within the range of [int64]; [None] for a
    syntax or range error. *)
Definition ParseInt (s : string) : option Z :=
  let l := list_ascii_of_string s in
  let '(neg, l) :=
    match l with
    | "+"%char :: l' => (false, l')
    | "-"%char :: l' => (true, l')
    | _ => (false, l)
    end in
  match parseDigits l with
  | None => None
  | Some un =>
      let cutoff := 2 ^ 63 in
      if negb neg && (cutoff <=? un) then None
      else if neg && (cutoff <? un) then None
      else Some (if neg then - un else un)
  end.

(** [strconv.ParseFloat(s, 64)] is kept abstract: [None] for an error. *)
Class Strconv : Type := { ParseFloat : string -> option float }.

Definition validDate (year month day : Z) : bool :=
  (1 <=? month) && (month <=? 12) && (1 <=? day) && (day <=? daysIn month year).

(** [time.Parse("2006-01-02", value)]: four digits, a dash, two digits, a
    dash, two digits and nothing else, naming a day that exists; the result
    is in UTC. *)
Definition time_Parse_date (value : string) : option Time :=
  match list_ascii_of_string value with
  | [y1; y2; y3; y4; "-"%char; m1; m2; "-"%char; d1; d2] =>
      match decimalValue 0 [y1; y2; y3; y4], decimalValue 0 [m1; m2],
            decimalValue 0 [d1; d2] with
      | Some year, Some month, Some day =>
          if validDate year month day
          then Some (time_Date year month day 0 0 0 0 LocUTC)
          else None
      | _, _, _ => None
      end
  | _ => None
  end.

(** [time.Parse("02-01-2006", value)], the layout of the file names. *)
Definition time_Parse_fileDate (value : string) : option Time :=
  match list_ascii_of_string value with
  | [d1; d2; "-"%char; m1; m2; "-"%char; y1; y2; y3; y4] =>
      match decimalValue 0 [y1; y2; y3; y4], decimalValue 0 [m1; m2],
            decimalValue 0 [d1; d2] with
      | Some year, Some month, Some day =>
          if validDate year month day
          then Some (time_Date year month day 0 0 0 0 LocUTC)
          else None
      | _, _, _ => None
      end
  | _ => None
  end.

(** [time.Parse("150405", value)] for a [value] of six bytes (it is only
    applied to [s[:6]]): six digits within the ranges of a clock; the
    result is on January 1 of year 0, in UTC. *)
Definition time_Parse_clock (value : string) : option Time :=
  match list_ascii_of_string value with
  | [h1; h2; m1; m2; s1; s2] =>
      match decimalValue 0 [h1; h2], decimalValue 0 [m1; m2],
            decimalValue 0 [s1; s2] with
      | Some hour, Some min, Some sec =>
          if (hour <? 24) && (min <? 60) && (sec <? 60)
          then Some (time_Date 0 1 1 hour min sec 0 LocUTC)
          else None
      | _, _, _ => None
      end
  | _ => None
  end.

(** [t.Format("02-01-2006")]. *)
Definition Format_fileDate (t : Time) : string :=
  appendInt (Day t) 2 +:+ "-" +:+ appendInt (Month t) 2 +:+ "-"
  +:+ appendInt (Year t) 4.

(** ** Errors, trades and the result of fallible code *)

(** A file path [filepath.Join(dir, name)] for a [name] without separator,
    which is all the orchestrator builds; [filepath.Base] gives [name]
    back. *)
Record Path : Type := mkPath { pathDir : string; pathName : string }.

Definition filepath_Join (dir name : string) : Path := mkPath dir name.
Definition filepath_Base (f : Path) : string := pathName f.

(** Go [error] values.  [ExtErr] is an error of a collaborator (the
    repository, the operating system, the CSV reader); the others are the
    errors this package builds, one constructor per [fmt.Errorf] format, the
    wrapped error (verb [%w]) as last argument. *)
Inductive Err : Type :=
| ExtErr (msg : string)
| io_EOF
| context_Canceled
| context_DeadlineExceeded
| ErrOpen (e : Err)
| ErrReadHeader (e : Err)
| ErrHeaderLength (expected got : Z)
| ErrHeaderCol (col : Z) (expected got : string)
| ErrReadLine (after : Z) (e : Err)
| ErrColumnCount (line expected got : Z)
| ErrLine (line : Z) (e : Err)
| ErrFlushBatch (line : Z) (e : Err)
| ErrFinalFlush (e : Err)
| ErrInvalidReferenceDate (cell : string)
| ErrInvalidTradePrice (cell : string)
| ErrInvalidTradeQuantity (cell : string)
| ErrInvalidClosingTimeLength (cell : string)
| ErrInvalidClosingTime (cell : string)
| ErrInvalidTradeDate (cell : string)
| ErrStatFailed (full : Path) (e : Err)
| ErrMissingFiles (message : string)
| ErrFileDate (f : Path)
| ErrFileCheckLog (f : Path) (e : Err)
| ErrFileDelete (f : Path) (e : Err)
| ErrFile (f : Path) (e : Err)
| ErrFileUpsert (f : Path) (e : Err).

(** [models.Trade]. *)
Record Trade : Type := mkTrade {
  ReferenceDate : Time;
  InstrumentCode : string;
  UpdateAction : string;
  TradePrice : float;
  TradeQuantity : Z;
  ClosingTime : Time;
  TradeIdentifierCode : string;
  SessionType : string;
  TradeDate : Time;
  BuyerParticipantCode : string;
  SellerParticipantCode : string
}.

(** The result of a pure fallible function: a value, an error, or a
    run-time panic. *)
Inductive Res (A : Type) : Type :=
| Ok (a : A)
| Raise (e : Err)
| Panicked.

Arguments Ok {A} a.
Arguments Raise {A} e.
Arguments Panicked {A}.

#[global] Instance Res_ret : MRet Res := @Ok.

#[global] Instance Res_bind : MBind Res :=
  fun A B (k : A -> Res B) (r : Res A) =>
    match r with
    | Ok a => k a
    | Raise e => Raise e
    | Panicked => Panicked
    end.

(** [rec[i]]: indexing out of range panics. *)
Definition index (rec : list string) (i : nat) : Res string :=
  match nth_error rec i with
  | Some c => Ok c
  | None => Panicked
  end.

(** ** The parser *)

Definition expectedHeaders : list string :=
  [ "DataReferencia"; "CodigoInstrumento"; "AcaoAtualizacao"; "PrecoNegocio";
    "QuantidadeNegociada"; "HoraFechamento"; "CodigoIdentificadorNegocio";
    "TipoSessaoPregao"; "DataNegocio"; "CodigoParticipanteComprador";
    "CodigoParticipanteVendedor" ].

(** *** Effects

    [parseAndPersistFile] and the workers of [ProcessDirectory] call the
    repository and poll the context.  A program is the tree of these calls:
    each node is a call with the continuation that receives its result.
    [VRead] records a [r.Read()] of the CSV reader with what it returned;
    [PanicP] is a run-time panic. *)
Inductive ReadResult : Type :=
| ReadRecord (rec : list string)
| ReadError (e : Err).

Inductive Prog (A : Type) : Type :=
| Ret (a : A)
| PanicP
| VInsert (trades : list Trade) (k : option Err -> Prog A)
| VHas (date : Time) (k : bool * option Err -> Prog A)
| VUpsert (date : Time) (filename : string) (rowCount : Z)
          (k : option Err -> Prog A)
| VDelete (date : Time) (k : option Err -> Prog A)
| VDone (k : option Err -> Prog A)
| VRead (r : ReadResult) (k : Prog A).

Arguments Ret {A} a.
Arguments PanicP {A}.
Arguments VInsert {A} trades k.
Arguments VHas {A} date k.
Arguments VUpsert {A} date filename rowCount k.
Arguments VDelete {A} date k.
Arguments VDone {A} k.
Arguments VRead {A} r k.

Fixpoint prog_bind {A B : Type} (k : A -> Prog B) (p : Prog A) : Prog B :=
  match p with
  | Ret a => k a
  | PanicP => PanicP
  | VInsert trades h => VInsert trades (fun r => prog_bind k (h r))
  | VHas date h => VHas date (fun r => prog_bind k (h r))
  | VUpsert date filename rowCount h =>
      VUpsert date filename rowCount (fun r => prog_bind k (h r))
  | VDelete date h => VDelete date (fun r => prog_bind k (h r))
  | VDone h => VDone (fun r => prog_bind k (h r))
  | VRead r h => VRead r (prog_bind k h)
  end.

#[global] Instance Prog_ret : MRet Prog := @Ret.
#[global] Instance Prog_bind : MBind Prog := @prog_bind.

(** The methods of [storage.TradesRepository] used by the package. *)
Definition InsertTradesBatch (trades : list Trade) : Prog (option Err) :=
  VInsert trades Ret.
Definition HasIngestionForDate (date : Time) : Prog (bool * option Err) :=
  VHas date Ret.
Definition UpsertIngestionLog (date : Time) (filename : string) (rowCount : Z)
  : Prog (option Err) :=
  VUpsert date filename rowCount Ret.
Definition DeleteTradesByDate (date : Time) : Prog (option Err) :=
  VDelete date Ret.

(** The [select] on [ctx.Done()] with a [default] branch: [Some e] when the
    context is done, [e] being [ctx.Err()]. *)
Definition ctxDone : Prog (option Err) := VDone Ret.

(** The file system: [os.Stat], and [os.Open] followed by a CSV reader with
    [Comma = ';'], [LazyQuotes] and [FieldsPerRecord = -1].  A reader is the
    list of what its [r.Read()] calls return in turn; past the end of the
    list they return [io.EOF]. *)
Inductive StatResult : Type :=
| StatOk
| StatNotExist
| StatError (e : Err).

Record FS : Type := mkFS {
  os_Stat : Path -> StatResult;
  os_Open : Path -> Err + list ReadResult
}.

(** The header loop of [parseAndPersistFile], entered with a header as long
    as [expected]: the first cell that differs, once trimmed, from the
    expected name at its position [i]. *)
Fixpoint checkHeader (i : Z) (header expected : list string) : option Err :=
  match header, expected with
  | h :: header', e :: expected' =>
      if negb (bool_decide (TrimSpace h = e))
      then Some (ErrHeaderCol (i + 1) e h)
      else checkHeader (i + 1) header' expected'
  | _, _ => None
  end.

Definition fileSuffix : string := "_NEGOCIOSAVISTA.txt".
Definition defaultBatchSize : Z := 5000.

(** The name of the file expected for a business day. *)
Definition fileName (d : Time) : string := Format_fileDate d +:+ fileSuffix.

(** The first loop of [ProcessDirectory]: the expected files and the names
    of the missing ones, or the error of a failed [os.Stat]. *)
Fixpoint statFiles (fs : FS) (dir : string) (dates : list Time)
         (files : list Path) (missing : list string)
  : Err + (list Path * list string) :=
  match dates with
  | [] => inr (files, missing)
  | d :: dates' =>
      let name := fileName d in
      let full := filepath_Join dir name in
      let files := files ++ [full] in
      match os_Stat fs full with
      | StatOk => statFiles fs dir dates' files missing
      | StatNotExist => statFiles fs dir dates' files (missing ++ [name])
      | StatError e => inl (ErrStatFailed full e)
      end
  end.

Definition missingFilesError (missing : list string) : Err :=
  ErrMissingFiles ("missing required files: " +:+ Join missing ", ").

(** [nDays] clamped to 1..7. *)
Definition clampDays (nDays : Z) : Z :=
  let nDays := if nDays <? 1 then 1 else nDays in
  if 7 <? nDays then 7 else nDays.

(** The number of workers that may run at a time. *)
Definition maxParallelOf (parallel : Z) (numCPU : positive) : Z :=
  let maxParallel := 7 in
  if 0 <? parallel then
    let parallel := if 7 <? parallel then 7 else parallel in
    parallel
  else if Z.pos numCPU <? maxParallel then Z.pos numCPU
  else maxParallel.

Section Parser.
Context `{Strconv}.

(** The four kinds of cells of [recordToTrade].  Each returns the value
    assigned to the field, which keeps its zero value for an empty cell. *)
Definition dateCell (mkErr : string -> Err) (cell : string) : Res Time :=
  let s := TrimSpace cell in
  if negb (bool_decide (s = "")) then
    match time_Parse_date s with
    | None => Raise (mkErr s)
    | Some d => Ok d
    end
  else Ok zeroTime.

Definition priceCell (cell : string) : Res float :=
  let s := TrimSpace cell in
  if negb (bool_decide (s = "")) then
    let s := ReplaceAll_comma_dot s in
    match ParseFloat s with
    | None => Raise (ErrInvalidTradePrice s)
    | Some v => Ok v
    end
  else Ok 0%float.

Definition quantityCell (cell : string) : Res Z :=
  let s := TrimSpace cell in
  if negb (bool_decide (s = "")) then
    match ParseInt s with
    | None => Raise (ErrInvalidTradeQuantity s)
    | Some v => Ok v
    end
  else Ok 0.

Definition clockCell (cell : string) : Res Time :=
  let s := TrimSpace cell in
  if negb (bool_decide (s = "")) then
    if Z.of_nat (String.length s) <? 6 then Raise (ErrInvalidClosingTimeLength s)
    else
      let hhmmss := substring 0 6 s in
      match time_Parse_clock hhmmss with
      | None => Raise (ErrInvalidClosingTime hhmmss)
      | Some h => Ok (time_Date 0 1 1 (Hour h) (Minute h) (Second h) 0 LocUTC)
      end
  else Ok zeroTime.

(** [recordToTrade].  The cells are read and converted in the order of the
    source; on an error Go also returns the partly filled trade, which no
    caller looks at. *)
Definition recordToTrade (rec : list string) : Res Trade :=
  c0 ← index rec 0;
  referenceDate ← dateCell ErrInvalidReferenceDate c0;
  c1 ← index rec 1;
  c2 ← index rec 2;
  c3 ← index rec 3;
  tradePrice ← priceCell c3;
  c4 ← index rec 4;
  tradeQuantity ← quantityCell c4;
  c5 ← index rec 5;
  closingTime ← clockCell c5;
  c6 ← index rec 6;
  c7 ← index rec 7;
  c8 ← index rec 8;
  tradeDate ← dateCell ErrInvalidTradeDate c8;
  c9 ← index rec 9;
  c10 ← index rec 10;
  Ok {| ReferenceDate := referenceDate;
      InstrumentCode := TrimSpace c1;
      UpdateAction := TrimSpace c2;
      TradePrice := tradePrice;
      TradeQuantity := tradeQuantity;
      ClosingTime := closingTime;
      TradeIdentifierCode := TrimSpace c6;
      SessionType := TrimSpace c7;
      TradeDate := tradeDate;
      BuyerParticipantCode := TrimSpace c9;
      SellerParticipantCode := TrimSpace c10 |}.

(** [err == io.EOF]. *)
Definition isEOF (e : Err) : bool :=
  match e with
  | io_EOF => true
  | _ => false
  end.

(** The closure [flush]: the error of the call and the buffer after it. *)
Definition flush (buf : list Trade) : Prog (option Err * list Trade) :=
  if len buf =? 0 then Ret (None, buf)
  else
    err ← InsertTradesBatch buf;
    match err with
    | Some e => Ret (Some e, buf)
    | None => Ret (None, [])
    end.

(** The row loop of [parseAndPersistFile], from the reader state [r], the
    buffer [buf] and the counters, to the values returned. *)
Fixpoint parseRows (batch : Z) (r : list ReadResult) (buf : list Trade)
         (lineNumber total : Z) {struct r} : Prog (Z * option Err) :=
  let finalFlush :=
    '(err, _) ← flush buf;
    match err with
    | Some e => Ret (0, Some (ErrFinalFlush e))
    | None => Ret (total, None)
    end in
  done ← ctxDone;
  match done with
  | Some e => Ret (0, Some e)
  | None =>
      match r with
      | [] => VRead (ReadError io_EOF) finalFlush
      | ReadError e :: _ =>
          VRead (ReadError e)
            (if isEOF e then finalFlush
             else Ret (0, Some (ErrReadLine lineNumber e)))
      | ReadRecord rec :: r' =>
          VRead (ReadRecord rec)
            (let lineNumber := lineNumber + 1 in
             if negb (len rec =? len expectedHeaders)
             then Ret (0, Some (ErrColumnCount lineNumber (len expectedHeaders)
                                               (len rec)))
             else
               match recordToTrade rec with
               | Panicked => PanicP
               | Raise e => Ret (0, Some (ErrLine lineNumber e))
               | Ok tr =>
                   let buf := buf ++ [tr] in
                   let total := total + 1 in
                   if batch <=? len buf then
                     '(err, buf) ← flush buf;
                     match err with
                     | Some e => Ret (0, Some (ErrFlushBatch lineNumber e))
                     | None => parseRows batch r' buf lineNumber total
                     end
                   else parseRows batch r' buf lineNumber total
               end)
      end
  end.

(** [parseAndPersistFile(ctx, path, repo, batch)]; the context and the
    repository are the effects of the program.  [make] panics for a negative
    capacity. *)
Definition parseAndPersistFile (fs : FS) (path : Path) (batch : Z)
  : Prog (Z * option Err) :=
  match os_Open fs path with
  | inl e => Ret (0, Some (ErrOpen e))
  | inr r =>
      match r with
      | [] => VRead (ReadError io_EOF) (Ret (0, Some (ErrReadHeader io_EOF)))
      | ReadError e :: _ => VRead (ReadError e) (Ret (0, Some (ErrReadHeader e)))
      | ReadRecord header :: r =>
          VRead (ReadRecord header)
            (if negb (len header =? len expectedHeaders)
             then Ret (0, Some (ErrHeaderLength (len expectedHeaders) (len header)))
             else
               match checkHeader 0 header expectedHeaders with
               | Some e => Ret (0, Some e)
               | None =>
                   if batch <? 0 then PanicP
                   else parseRows batch r [] 1 0
               end)
      end
  end.

(** The function run by each goroutine of [ProcessDirectory] for the file
    [f]; [gctx] and [repo] are the effects of the program. *)
Definition worker (fs : FS) (force : bool) (f : Path) : Prog (option Err) :=
  let base := filepath_Base f in
  let datePart := TrimSuffix base fileSuffix in
  match time_Parse_fileDate datePart with
  | None => Ret (Some (ErrFileDate f))
  | Some d =>
      '(exists_, err) ← HasIngestionForDate d;
      match err with
      | Some e => Ret (Some (ErrFileCheckLog f e))
      | None =>
          if exists_ && negb force then Ret None
          else
            let process :=
              '(total, err) ← parseAndPersistFile fs f defaultBatchSize;
              match err with
              | Some e => Ret (Some (ErrFile f e))
              | None =>
                  err ← UpsertIngestionLog d base total;
                  match err with
                  | Some e => Ret (Some (ErrFileUpsert f e))
                  | None => Ret None
                  end
              end in
            if exists_ && force then
              err ← DeleteTradesByDate d;
              match err with
              | Some e => Ret (Some (ErrFileDelete f e))
              | None => process
              end
            else process
      end
  end.

End Parser.

(** *** Running a program on its own

    The calls of a program are recorded in a trace.  When a worker is
    looked at on its own, what the repository and the context answer is
    arbitrary: an [Env] gives each answer from the trace so far. *)
Inductive Entry : Type :=
| EInsert (trades : list Trade) (r : option Err)
| EHas (date : Time) (r : bool * option Err)
| EUpsert (date : Time) (filename : string) (rowCount : Z) (r : option Err)
| EDelete (date : Time) (r : option Err)
| EDone (r : option Err)
| ERead (r : ReadResult).

Record Env : Type := mkEnv {
  env_insert : list Entry -> list Trade -> option Err;
  env_has : list Entry -> Time -> bool * option Err;
  env_upsert : list Entry -> Time -> string -> Z -> option Err;
  env_delete : list Entry -> Time -> option Err;
  env_done : list Entry -> option Err
}.

(** [run env p tr] runs [p] after the calls [tr]: the value returned ([None]
    for a panic) and the calls of [p], in order. *)
Definition logged {A : Type} (e : Entry) (r : option A * list Entry)
  : option A * list Entry :=
  (r.1, e :: r.2).

Fixpoint run {A : Type} (env : Env) (p : Prog A) (tr : list Entry)
  : option A * list Entry :=
  match p with
  | Ret a => (Some a, [])
  | PanicP => (None, [])
  | VInsert trades k =>
      let e := EInsert trades (env_insert env tr trades) in
      logged e (run env (k (env_insert env tr trades)) (tr ++ [e]))
  | VHas date k =>
      let e := EHas date (env_has env tr date) in
      logged e (run env (k (env_has env tr date)) (tr ++ [e]))
  | VUpsert date filename rowCount k =>
      let e := EUpsert date filename rowCount
                       (env_upsert env tr date filename rowCount) in
      logged e (run env (k (env_upsert env tr date filename rowCount)) (tr ++ [e]))
  | VDelete date k =>
      let e := EDelete date (env_delete env tr date) in
      logged e (run env (k (env_delete env tr date)) (tr ++ [e]))
  | VDone k =>
      let e := EDone (env_done env tr) in
      logged e (run env (k (env_done env tr)) (tr ++ [e]))
  | VRead r k => logged (ERead r) (run env k (tr ++ [ERead r]))
  end.

(** The batches passed to [InsertTradesBatch] in a trace. *)
Fixpoint batches (tr : list Entry) : list (list Trade) :=
  match tr with
  | [] => []
  | EInsert trades _ :: tr' => trades :: batches tr'
  | _ :: tr' => batches tr'
  end.

(** The number of [r.Read()] calls in a trace. *)
Fixpoint countReads (tr : list Entry) : Z :=
  match tr with
  | [] => 0
  | ERead _ :: tr' => 1 + countReads tr'
  | _ :: tr' => countReads tr'
  end.

(** The records a reader returns before its first error or its end. *)
Fixpoint dataRows (r : list ReadResult) : list (list string) :=
  match r with
  | ReadRecord rec :: r' => rec :: dataRows r'
  | _ => []
  end.

(** The row loop polls the context before each read: in the calls of the
    loop a poll that finds the context alive is followed at once by a read,
    a read is preceded at once by such a poll, and a poll that finds the
    context done ends the loop. *)
Fixpoint polledReads (tr : list Entry) : Prop :=
  match tr with
  | [] => True
  | EDone None :: ERead _ :: tr' => polledReads tr'
  | EInsert _ _ :: tr' => polledReads tr'
  | [EDone (Some _)] => True
  | _ => False
  end.

(** *** The group of workers

    [storage.TradesRepository], as a state machine over the state [R] of
    the store. *)
Class TradesRepository (R : Type) : Type := {
  repo_InsertTradesBatch : list Trade -> R -> option Err * R;
  repo_HasIngestionForDate : Time -> R -> (bool * option Err) * R;
  repo_UpsertIngestionLog : Time -> string -> Z -> R -> option Err * R;
  repo_DeleteTradesByDate : Time -> R -> option Err * R
}.

(** A goroutine of the group: not launched yet, running (with what is left
    of its program), or returned. *)
Inductive WState : Type :=
| Pending (p : Prog (option Err))
| Running (p : Prog (option Err))
| Finished (r : option Err).

(** The [errgroup.Group] with its context, the semaphore being read off the
    states of the workers. *)
Record Group (R : Type) : Type := mkGroup {
  g_repo : R;
  g_ctx : option Err;            (* [gctx.Err()]: [Some] once [gctx] is done *)
  g_err : option Err;            (* the first error returned by a worker *)
  g_panic : bool;                (* a goroutine panicked: the process is gone *)
  g_log : list (nat * Entry);    (* the calls, with the worker that made them *)
  g_workers : list WState
}.

Arguments mkGroup {R}.
Arguments g_repo {R}.
Arguments g_ctx {R}.
Arguments g_err {R}.
Arguments g_panic {R}.
Arguments g_log {R}.
Arguments g_workers {R}.

(** What the scheduler and the environment may do next: let worker [i] take
    a step, or cancel the context given to [ProcessDirectory]. *)
Inductive Action : Type :=
| StepWorker (i : nat)
| CancelCtx (e : Err).

Definition isPending (w : WState) : bool :=
  match w with Pending _ => true | _ => false end.

Definition isRunning (w : WState) : bool :=
  match w with Running _ => true | _ => false end.

Section Group.
Context {R : Type} `{TradesRepository R}.

(** One call of a running program, answered by the store and the group's
    context. *)
Definition stepProg (p : Prog (option Err)) (repo : R) (ctx : option Err)
  : Prog (option Err) * R * option Entry :=
  match p with
  | Ret _ | PanicP => (p, repo, None)
  | VInsert trades k =>
      let '(r, repo) := repo_InsertTradesBatch trades repo in
      (k r, repo, Some (EInsert trades r))
  | VHas date k =>
      let '(r, repo) := repo_HasIngestionForDate date repo in
      (k r, repo, Some (EHas date r))
  | VUpsert date filename rowCount k =>
      let '(r, repo) := repo_UpsertIngestionLog date filename rowCount repo in
      (k r, repo, Some (EUpsert date filename rowCount r))
  | VDelete date k =>
      let '(r, repo) := repo_DeleteTradesByDate date repo in
      (k r, repo, Some (EDelete date r))
  | VDone k => (k ctx, repo, Some (EDone ctx))
  | VRead r k => (k, repo, Some (ERead r))
  end.

Definition setWorker (g : Group R) (i : nat) (w : WState) : Group R :=
  mkGroup (g_repo g) (g_ctx g) (g_err g) (g_panic g) (g_log g)
          (<[i := w]> (g_workers g)).

(** A worker returns: the group keeps the first error and cancels its
    context on it; the semaphore slot is released. *)
Definition finishWorker (g : Group R) (i : nat) (r : option Err) : Group R :=
  let first := match g_err g, r with
               | None, Some e => true
               | _, _ => false
               end in
  mkGroup (g_repo g)
          (if first then
             match g_ctx g with None => Some context_Canceled | c => c end
           else g_ctx g)
          (if first then r else g_err g)
          (g_panic g) (g_log g)
          (<[i := Finished r]> (g_workers g)).

(** Worker [i] takes a step.  A pending worker is launched when the workers
    before it have been and the semaphore has room; a running worker makes
    its next call, returns, or panics.  Anything else leaves the group as it
    is. *)
Definition stepWorker (maxParallel : Z) (i : nat) (g : Group R) : Group R :=
  if g_panic g then g
  else
    match g_workers g !! i with
    | Some (Pending p) =>
        if forallb (fun w => negb (isPending w)) (take i (g_workers g))
           && (len (filter (fun w => isRunning w = true) (g_workers g)) <? maxParallel)
        then setWorker g i (Running p)
        else g
    | Some (Running (Ret r)) => finishWorker g i r
    | Some (Running PanicP) =>
        mkGroup (g_repo g) (g_ctx g) (g_err g) true (g_log g) (g_workers g)
    | Some (Running p) =>
        let '(p, repo, entry) := stepProg p (g_repo g) (g_ctx g) in
        mkGroup repo (g_ctx g) (g_err g) (g_panic g)
                (g_log g ++ match entry with
                            | Some e => [(i, e)]
                            | None => []
                            end)
                (<[i := Running p]> (g_workers g))
    | _ => g
    end.

Definition act (maxParallel : Z) (a : Action) (g : Group R) : Group R :=
  match a with
  | StepWorker i => stepWorker maxParallel i g
  | CancelCtx e =>
      mkGroup (g_repo g)
              (match g_ctx g with None => Some e | c => c end)
              (g_err g) (g_panic g) (g_log g) (g_workers g)
  end.

(** A running program to its end, call after call. *)
Fixpoint runProg (i : nat) (p : Prog (option Err)) (repo : R)
         (ctx : option Err) (log : list (nat * Entry))
  : option (option Err) * R * list (nat * Entry) :=
  match p with
  | Ret r => (Some r, repo, log)
  | PanicP => (None, repo, log)
  | VInsert trades k =>
      let '(r, repo) := repo_InsertTradesBatch trades repo in
      runProg i (k r) repo ctx (log ++ [(i, EInsert trades r)])
  | VHas date k =>
      let '(r, repo) := repo_HasIngestionForDate date repo in
      runProg i (k r) repo ctx (log ++ [(i, EHas date r)])
  | VUpsert date filename rowCount k =>
      let '(r, repo) := repo_UpsertIngestionLog date filename rowCount repo in
      runProg i (k r) repo ctx (log ++ [(i, EUpsert date filename rowCount r)])
  | VDelete date k =>
      let '(r, repo) := repo_DeleteTradesByDate date repo in
      runProg i (k r) repo ctx (log ++ [(i, EDelete date r)])
  | VDone k => runProg i (k ctx) repo ctx (log ++ [(i, EDone ctx)])
  | VRead r k => runProg i k repo ctx (log ++ [(i, ERead r)])
  end.

(** Worker [i] is launched if it was not and runs to its end with no other
    worker taking a step meanwhile. *)
Definition completeWorker (g : Group R) (i : nat) : Group R :=
  if g_panic g then g
  else
    match g_workers g !! i with
    | Some (Pending p) | Some (Running p) =>
        match runProg i p (g_repo g) (g_ctx g) (g_log g) with
        | (Some r, repo, log) =>
            finishWorker
              (mkGroup repo (g_ctx g) (g_err g) (g_panic g) log (g_workers g))
              i r
        | (None, repo, log) =>
            mkGroup repo (g_ctx g) (g_err g) true log (g_workers g)
        end
    | _ => g
    end.

(** [g.Wait()] after the launch loop.  The interleaving of the workers is
    given by [sched]; when it is exhausted the workers still to finish do so
    one after the other.  The result is the error of [g.Wait()], or a
    panic. *)
Definition runGroup (maxParallel : Z) (sched : list Action) (g : Group R)
  : Group R :=
  let g := fold_left (fun g a => act maxParallel a g) sched g in
  fold_left completeWorker (seq 0 (length (g_workers g))) g.

Definition groupResult (g : Group R) : Res unit :=
  if g_panic g then Panicked
  else match g_err g with
       | Some e => Raise e
       | None => Ok tt
       end.

Context `{Strconv}.

(** [ProcessDirectory(ctx, dir, db, nDays, parallel, force)].  What the
    function reads from its environment is given as arguments: the file
    system [fs], the clock [now] ([time.Now()]), [numCPU]
    ([runtime.NumCPU()]), the state [ctx] of the context at the call, the
    store [repo] behind [db], and the schedule [sched] of the goroutines.
    It returns the error, the store and the log of the repository calls. *)
Definition ProcessDirectory (fs : FS) (now : Time) (numCPU : positive)
           (sched : list Action) (ctx : option Err) (dir : string) (repo : R)
           (nDays parallel : Z) (force : bool)
  : Res unit * R * list (nat * Entry) :=
  let nDays := clampDays nDays in
  match LastNBusinessDays nDays now with
  | None => (Panicked, repo, [])
  | Some dates =>
      match statFiles fs dir dates [] [] with
      | inl e => (Raise e, repo, [])
      | inr (files, missing) =>
          if 0 <? len missing then (Raise (missingFilesError missing), repo, [])
          else
            let maxParallel := maxParallelOf parallel numCPU in
            let g := mkGroup repo ctx None false []
                             (map (fun f => Pending (worker fs force f)) files) in
            let g := runGroup maxParallel sched g in
            (groupResult g, g_repo g, g_log g)
      end
  end.

End Group.

(** ** Auxiliary definitions of the statements *)

Definition elevenCells (c0 c1 c2 c3 c4 c5 c6 c7 c8 c9 c10 : string) : list string :=
  [c0; c1; c2; c3; c4; c5; c6; c7; c8; c9; c10].

(** *** Trimming, in the words of the specification

    White space is what [unicode.IsSpace] holds of; a cell trimmed of
    surrounding white space is what is left between a run of white space
    on each side, and neither begins nor ends with white space; a cell is
    blank when it holds white space only. *)
Definition whiteSpace (l : list ascii) : Prop :=
  exists runes, Forall (fun r => r ∈ spaceRunes) runes /\ l = concat runes.

Definition startsWithSpace (l : list ascii) : Prop :=
  exists r rest, (r ∈ spaceRunes) /\ l = r ++ rest.

Definition endsWithSpace (l : list ascii) : Prop :=
  exists r rest, (r ∈ spaceRunes) /\ l = rest ++ r.

Definition trimmedOf (cell s : string) : Prop :=
  exists pre post,
    whiteSpace pre /\ whiteSpace post
    /\ list_ascii_of_string cell = pre ++ list_ascii_of_string s ++ post
    /\ ~ startsWithSpace (list_ascii_of_string s)
    /\ ~ endsWithSpace (list_ascii_of_string s).

Definition blankCell (cell : string) : Prop :=
  whiteSpace (list_ascii_of_string cell).

(** The batches of a buffer of capacity [b] filled with a list of trades:
    full batches, then a last one that may be shorter. *)
Inductive Chunks (b : Z) : list Trade -> list (list Trade) -> Prop :=
| Chunks_nil : Chunks b [] []
| Chunks_last c : 1 <= len c <= b -> Chunks b c [c]
| Chunks_full c l bs :
    len c = b -> bs <> [] -> Chunks b l bs -> Chunks b (c ++ l) (c :: bs).

(** What the loop does once the reader is at its end: the final flush. *)
Definition finalFlushRun (env : Env) (buf : list Trade) (total : Z)
           (tr : list Entry) : option (Z * option Err) * list Entry :=
  if len buf =? 0 then (Some (total, None), [])
  else match env_insert env tr buf with
       | Some e => (Some (0, Some (ErrFinalFlush e)), [EInsert buf (Some e)])
       | None => (Some (total, None), [EInsert buf None])
       end.

Definition loggedAll {A : Type} (es : list Entry) (r : option A * list Entry)
  : option A * list Entry :=
  (r.1, es ++ r.2).


(** *** The orchestrator *)

Definition isNotExist (s : StatResult) : bool :=
  match s with
  | StatNotExist => true
  | _ => false
  end.

Section Orchestrator.
Context {R : Type} `{TradesRepository R} `{Strconv}.

(** The business day a worker derives from the name of its file. *)
Definition fileDay (f : Path) : option Time :=
  time_Parse_fileDate (TrimSuffix (filepath_Base f) fileSuffix).

(** What a worker does from the parse of its file on. *)
Definition processRun (env : Env) (fs : FS) (f : Path) (d : Time)
           (tr : list Entry) : option (option Err) * list Entry :=
  match run env (parseAndPersistFile fs f defaultBatchSize) tr with
  | (None, pext) => (None, pext)
  | (Some (total, Some e), pext) => (Some (Some (ErrFile f e)), pext)
  | (Some (total, None), pext) =>
      let u := env_upsert env (tr ++ pext) d (filepath_Base f) total in
      (Some (match u with
             | Some e => Some (ErrFileUpsert f e)
             | None => None
             end),
       pext ++ [EUpsert d (filepath_Base f) total u])
  end.

(** A program that only asks the ledger about a day the store [repo]
    reports as ingested, and returns no error on that answer. *)
Definition skipsProg (repo : R) (p : Prog (option Err)) : Prop :=
  p = Ret None
  \/ exists d k, p = VHas d k
       /\ repo_HasIngestionForDate d repo = ((true, None), repo)
       /\ k (true, None) = Ret None.

Definition skipsWorker (repo : R) (w : WState) : Prop :=
  match w with
  | Pending p | Running p => skipsProg repo p
  | Finished r => r = None
  end.

Definition isQuery (e : nat * Entry) : Prop :=
  match e.2 with
  | EHas _ r => r = (true, None)
  | _ => False
  end.

(** The group while all its workers skip their file. *)
Definition skipping (repo : R) (g : Group R) : Prop :=
  g_repo g = repo /\ g_err g = None /\ g_panic g = false
  /\ Forall isQuery (g_log g) /\ Forall (skipsWorker repo) (g_workers g).

End Orchestrator.
(** ** Auxiliary definitions of the calendar proofs *)

Fixpoint forallFrom (f : Z -> bool) (count : nat) (start : Z) : bool :=
  match count with
  | O => true
  | S count' => f start && forallFrom f count' (start + 1)
  end.

Definition roundTripAt (r : Z) : bool :=
  let '(y, m, d) := civilOfDays r in
  (daysOfCivil y m d =? r) && (1 <=? m) && (m <=? 12) && (1 <=? d)
  && (d <=? daysIn m y).

(** The days of the 400-year cycle of the calendar. *)
Definition cycleLength : nat := Z.to_nat 146097.

(** Midnights: the dates the loop of [LastNBusinessDays] goes through. *)
Definition midnight (z : Z) (loc : Location) : Time := mkTime z 0 loc.

Definition weekdayOK (z : Z) : bool :=
  negb (((z + 1) mod 7 =? 6) || ((z + 1) mod 7 =? 0)).

(** The fixed holidays, by month and day. *)
Definition isFixedMD (m d : Z) : bool :=
  existsb (fun md => (md.1 =? m) && (md.2 =? d))
          [(1, 1); (4, 21); (5, 1); (9, 7); (10, 12); (11, 2); (11, 15); (12, 25)].

Definition fixedKeyOK (md : Z * Z) : bool :=
  bool_decide (bool_decide (appendInt md.1 2 +:+ "-" +:+ appendInt md.2 2 ∈ fixed)
               = isFixedMD md.1 md.2).

Definition monthDays : list (Z * Z) :=
  m ← [1; 2; 3; 4; 5; 6; 7; 8; 9; 10; 11; 12];
  d ← [1; 2; 3; 4; 5; 6; 7; 8; 9; 10; 11; 12; 13; 14; 15; 16; 17; 18; 19; 20;
       21; 22; 23; 24; 25; 26; 27; 28; 29; 30; 31];
  [(m, d)].

Definition dayInfo (z : Z) : bool * Z :=
  let '(y, m, d) := civilOfDays z in
  (weekdayOK z && negb (isFixedMD m d), y).

Definition inYear (Y : Z) (i : bool * Z) : bool := i.1 && (i.2 =? Y).

Definition countYear (Y : Z) (w : list (bool * Z)) : nat :=
  length (List.filter (inYear Y) w).

Definition goodInfos (w : list (bool * Z)) : bool :=
  match w with
  | i :: _ =>
      (5 <=? countYear i.2 w)%nat || (5 <=? countYear (nth 20 w i).2 w)%nat
  | [] => false
  end.

Fixpoint windowsFrom (count : nat) (z : Z) (recent : list (bool * Z)) : bool :=
  match count with
  | O => true
  | S count' =>
      let w := dayInfo z :: recent in
      goodInfos w && windowsFrom count' (z + 1) (firstn 20 w)
  end.

(** The [k] days back from [z]: [z], [z - 1], ... *)
Fixpoint back (z : Z) (k : nat) : list Z :=
  match k with
  | O => []
  | S k' => z :: back (z - 1) k'
  end.

(** Business days at midnight in [loc], each strictly before the one that
    precedes it and none after day [z]. *)
Fixpoint descending (loc : Location) (z : Z) (l : list Time) : Prop :=
  match l with
  | [] => True
  | t :: l' =>
      t = midnight (tday t) loc /\ tday t <= z /\ isBusinessDayBR t = true
      /\ descending loc (tday t - 1) l'
  end.

(** The distances, in days, of the four movable holidays from Easter
    Sunday: Carnival Monday and Tuesday, Good Friday, Corpus Christi. *)
Definition movableOffsets : list Z := [-48; -47; -2; 60].

(** Two times read the same calendar date, each in its own location. *)
Definition sameDate (t u : Time) : Prop :=
  (Year t, Month t, Day t) = (Year u, Month u, Day u).

(** [t] falls on a movable holiday of its year. *)
Definition movableHoliday (t : Time) : Prop :=
  exists k, (k ∈ movableOffsets)
    /\ sameDate t (AddDate 0 0 k (easterSunday (Year t))).

(** ** Fixtures of the package's tests *)

(** [fakeRepoIngestion] of the tests of [ProcessDirectory]. *)
Record fakeRepoIngestion : Type := mkFakeRepoIngestion {
  has : gmap Time bool;
  inserted : Z;
  deleted : gmap Time bool
}.

#[global] Instance fakeRepoIngestion_repo : TradesRepository fakeRepoIngestion := {
  repo_InsertTradesBatch trades f :=
    (None, mkFakeRepoIngestion (has f) (inserted f + len trades) (deleted f));
  repo_HasIngestionForDate date f :=
    ((default false (has f !! date), None), f);
  repo_UpsertIngestionLog date filename rowCount f :=
    (None, mkFakeRepoIngestion (<[date := true]> (has f)) (inserted f) (deleted f));
  repo_DeleteTradesByDate date f :=
    (None, mkFakeRepoIngestion (has f) (inserted f) (<[date := true]> (deleted f)))
}.

(** [sampleFile] of the tests, as the CSV reader returns it: the header and
    two rows. *)
Definition sampleFile : list ReadResult :=
  [ ReadRecord expectedHeaders;
    ReadRecord ["2025-09-18"; "E2E4"; "I"; "10,0"; "50"; "100000000"; "X";
                "REG"; "2025-09-18"; "B"; "S"];
    ReadRecord ["2025-09-18"; "E2E4"; "I"; "11,0"; "50"; "100000000"; "X";
                "REG"; "2025-09-18"; "B"; "S"] ].

(** A directory holding [content] under each of the [names] and nothing
    else. *)
Definition dirWith (names : list string) (content : list ReadResult) : FS :=
  {| os_Stat f := if bool_decide (pathName f ∈ names) then StatOk else StatNotExist;
     os_Open f := if bool_decide (pathName f ∈ names) then inr content
                  else inl (ExtErr "no such file or directory") |}.

(** A stand-in for [strconv.ParseFloat] on plain decimal literals
    ([digits], [digits.digits]), enough to run the examples. *)
Fixpoint spanDigits (l : list ascii) : list ascii * list ascii :=
  match l with
  | c :: l' =>
      if isDigit c then let '(ds, rest) := spanDigits l' in (c :: ds, rest)
      else ([], l)
  | [] => ([], [])
  end.

Definition decimalParseFloat (s : string) : option float :=
  let '(ip, rest) := spanDigits (list_ascii_of_string s) in
  let fp := match rest with
            | "."%char :: fp => Some fp
            | [] => Some []
            | _ => None
            end in
  match ip, fp with
  | _ :: _, Some fp =>
      match decimalValue 0 (ip ++ fp) with
      | Some m =>
          Some (PrimFloat.of_uint63 (Uint63.of_Z m)
                / PrimFloat.of_uint63 (Uint63.of_Z (10 ^ len fp)))%float
      | None => None
      end
  | _, _ => None
  end.

Definition decimalStrconv : Strconv := {| ParseFloat := decimalParseFloat |}.

(** A row selling a negative quantity. *)
Definition negativeRow : list string :=
  [""; "PETR4"; "I"; "10,50"; "-5"; "101530000"; "ABC"; "REGULAR";
   "2025-09-11"; "B"; "S"].

Definition negativeTrade : Trade :=
  {| ReferenceDate := zeroTime;
     InstrumentCode := "PETR4";
     UpdateAction := "I";
     TradePrice := 10.5%float;
     TradeQuantity := -5;
     ClosingTime := time_Date 0 1 1 10 15 30 0 LocUTC;
     TradeIdentifierCode := "ABC";
     SessionType := "REGULAR";
     TradeDate := time_Date 2025 9 11 0 0 0 0 LocUTC;
     BuyerParticipantCode := "B";
     SellerParticipantCode := "S" |}.

(** A row whose date, price, quantity and clock cells are blank, with
    padded string cells, and the trade it is converted to. *)
Definition blankRow : list string :=
  ["  "; " PETR4 "; "I"; ""; " "; "   "; " ABC"; "REGULAR "; ""; "B"; "S"].

Definition blankTrade : Trade :=
  {| ReferenceDate := zeroTime;
     InstrumentCode := "PETR4";
     UpdateAction := "I";
     TradePrice := 0%float;
     TradeQuantity := 0;
     ClosingTime := zeroTime;
     TradeIdentifierCode := "ABC";
     SessionType := "REGULAR";
     TradeDate := zeroTime;
     BuyerParticipantCode := "B";
     SellerParticipantCode := "S" |}.


(** *** Environments, files and directories of the examples *)

(** Every call succeeds, the ledger knows no day, the context is alive. *)
Definition quietEnv : Env :=
  {| env_insert _ _ := None;
     env_has _ _ := (false, None);
     env_upsert _ _ _ _ := None;
     env_delete _ _ := None;
     env_done _ := None |}.

(** The ledger reports every day as ingested. *)
Definition ingestedEnv : Env :=
  {| env_insert _ _ := None;
     env_has _ _ := (true, None);
     env_upsert _ _ _ _ := None;
     env_delete _ _ := None;
     env_done _ := None |}.

(** The ledger reports every day as ingested and the deletion fails. *)
Definition deleteFailsEnv : Env :=
  {| env_insert _ _ := None;
     env_has _ _ := (true, None);
     env_upsert _ _ _ _ := None;
     env_delete _ _ := Some (ExtErr "delete failed");
     env_done _ := None |}.

(** The store takes one batch and fails on the next. *)
Definition secondInsertFails : Env :=
  {| env_insert tr _ :=
       if 1 <=? len (batches tr) then Some (ExtErr "connection reset") else None;
     env_has _ _ := (false, None);
     env_upsert _ _ _ _ := None;
     env_delete _ _ := None;
     env_done _ := None |}.

(** The context is cancelled once the header and one row have been read. *)
Definition cancelledAfterFirstRow : Env :=
  {| env_insert _ _ := None;
     env_has _ _ := (false, None);
     env_upsert _ _ _ _ := None;
     env_delete _ _ := None;
     env_done tr := if 2 <=? countReads tr then Some context_Canceled else None |}.

Definition sampleRow (price : string) : list string :=
  ["2025-09-18"; "E2E4"; "I"; price; "50"; "100000000"; "X"; "REG";
   "2025-09-18"; "B"; "S"].

Definition threeRowFile : list ReadResult :=
  [ ReadRecord expectedHeaders; ReadRecord (sampleRow "10,0");
    ReadRecord (sampleRow "11,0"); ReadRecord (sampleRow "12,5") ].

(** A header of two cells. *)
Definition shortHeaderFile : list ReadResult :=
  [ ReadRecord ["DataReferencia"; "CodigoInstrumento"];
    ReadRecord (sampleRow "10,0") ].

(** A header whose second cell has another name. *)
Definition renamedHeader : list string :=
  <[1%nat := "Ticker"]> expectedHeaders.

Definition renamedHeaderFile : list ReadResult :=
  [ ReadRecord renamedHeader; ReadRecord (sampleRow "10,0") ].

(** A header whose first cell is padded with white space. *)
Definition paddedHeader : list string :=
  <[0%nat := " DataReferencia "]> expectedHeaders.

Definition paddedHeaderFile : list ReadResult :=
  [ ReadRecord paddedHeader; ReadRecord (sampleRow "10,0");
    ReadRecord (sampleRow "11,0") ].

(** A file whose second row has two cells. *)
Definition shortRowFile : list ReadResult :=
  [ ReadRecord expectedHeaders; ReadRecord (sampleRow "10,0");
    ReadRecord ["2025-09-18"; "E2E4"]; ReadRecord (sampleRow "11,0") ].

Definition sampleName : string := "18-09-2025_NEGOCIOSAVISTA.txt".
Definition fridayName : string := "19-09-2025_NEGOCIOSAVISTA.txt".
Definition samplePath : Path := filepath_Join "data" sampleName.
Definition sampleDay : Time := time_Date 2025 9 18 0 0 0 0 LocUTC.
Definition fridayDay : Time := time_Date 2025 9 19 0 0 0 0 LocUTC.

(** Saturday 20 September 2025, 12:30, as [time.Now()] returns it; the two
    business days before it. *)
Definition saturdayNoon : Time := time_Date 2025 9 20 12 30 0 0 LocLocal.

Definition lastTwoDays : list Time :=
  [ time_Date 2025 9 19 0 0 0 0 LocLocal; time_Date 2025 9 18 0 0 0 0 LocLocal ].

(** A store whose ledger holds both days. *)
Definition ingestedRepo : fakeRepoIngestion :=
  {| has := <[fridayDay := true]> (<[sampleDay := true]> ∅);
     inserted := 0;
     deleted := ∅ |}.

Definition emptyRepo : fakeRepoIngestion :=
  {| has := ∅; inserted := 0; deleted := ∅ |}.


Definition sampleDir : FS := dirWith [sampleName] sampleFile.
Definition threeRowDir : FS := dirWith [sampleName] threeRowFile.
Definition bothDaysDir : FS := dirWith [sampleName; fridayName] sampleFile.

(** A row whose price is no number. *)
Definition badPriceRow : list string :=
  [""; "PETR4"; "I"; "abc"; "-5"; "101530000"; "ABC"; "REGULAR";
   "2025-09-11"; "B"; "S"].

(** The parse of three rows, one row a batch, on a store that fails at the
    second insert. *)
Definition failedRun : option (Z * option Err) * list Entry :=
  run secondInsertFails
      (@parseAndPersistFile decimalStrconv threeRowDir samplePath 1) [].
(** ** Auxiliary definitions of the further properties *)


(** No business day lies between the dates of [l], nor between the first
    of them and day [z]. *)
Fixpoint gapless (loc : Location) (z : Z) (l : list Time) : Prop :=
  match l with
  | [] => True
  | t :: l' =>
      (forall x, tday t < x <= z -> isBusinessDayBR (midnight x loc) = false)
      /\ gapless loc (tday t - 1) l'
  end.

(** The decimal form of [x] in [width] digits reads back as [x]. *)
Definition digitsOK (width : nat) (x : Z) : bool :=
  let ds := list_ascii_of_string (appendInt x width) in
  (length ds =? width)%nat && bool_decide (decimalValue 0 ds = Some x).

(** What holds at every way a program may end, whatever the repository and
    the context answer: [P] of the value returned, [Q] at a panic. *)
Fixpoint leaves {A : Type} (P : A -> Prop) (Q : Prop) (p : Prog A) : Prop :=
  match p with
  | Ret a => P a
  | PanicP => Q
  | VInsert _ k => forall r, leaves P Q (k r)
  | VHas _ k => forall r, leaves P Q (k r)
  | VUpsert _ _ _ k => forall r, leaves P Q (k r)
  | VDelete _ k => forall r, leaves P Q (k r)
  | VDone k => forall r, leaves P Q (k r)
  | VRead _ k => leaves P Q k
  end.

(** The calls of the parser: polls, reads and inserts. *)
Definition isParseCall (e : Entry) : Prop :=
  match e with
  | EDone _ | ERead _ | EInsert _ _ => True
  | _ => False
  end.

(** The errors a worker returns for its file [f]. *)
Definition fileErrorOf (f : Path) (e : Err) : Prop :=
  e = ErrFileDate f
  \/ (exists e', e = ErrFileCheckLog f e')
  \/ (exists e', e = ErrFileDelete f e')
  \/ (exists e', e = ErrFile f e')
  \/ (exists e', e = ErrFileUpsert f e').

(** *** Invariants of the group of workers *)

Section GroupInvariantDefs.
Context {R : Type}.

(** What is known of the workers, one by one: [Wprog i repo p] of the
    program [p] that worker [i] has still to run on the store [repo],
    [Wfin i repo r] of what it returned. *)
Definition workerHolds (Wprog : nat -> R -> Prog (option Err) -> Prop)
           (Wfin : nat -> R -> option Err -> Prop)
           (i : nat) (repo : R) (w : WState) : Prop :=
  match w with
  | Pending p | Running p => Wprog i repo p
  | Finished r => Wfin i repo r
  end.

(** The error of the group is the error of a worker that returned, and
    there is one as soon as a worker returned an error. *)
Definition firstError (g : Group R) : Prop :=
  (forall e, g_err g = Some e ->
     exists i, g_workers g !! i = Some (Finished (Some e)))
  /\ (g_err g = None ->
      forall i r, g_workers g !! i = Some (Finished r) -> r = None).

Definition groupHolds (Wprog : nat -> R -> Prog (option Err) -> Prop)
           (Wfin : nat -> R -> option Err -> Prop) (g : Group R) : Prop :=
  g_panic g = false
  /\ (forall i w, g_workers g !! i = Some w ->
        workerHolds Wprog Wfin i (g_repo g) w)
  /\ firstError g.

Definition isFinished (w : WState) : Prop :=
  match w with Finished _ => True | _ => False end.

End GroupInvariantDefs.

(** What a worker may return for its file [f]: no error, or an error of
    that file. *)
Definition resultOf (f : Path) (r : option Err) : Prop :=
  forall e, r = Some e -> fileErrorOf f e.

(** The errors of [ProcessDirectory] for the expected [files]. *)
Definition directoryError (files : list Path) (e : Err) : Prop :=
  (exists full e', e = ErrStatFailed full e' /\ full ∈ files)
  \/ (exists message, e = ErrMissingFiles message)
  \/ (exists f, f ∈ files /\ fileErrorOf f e).

(** The files [ProcessDirectory] expects in [dir] at the time [now]. *)
Definition expectedFiles (dir : string) (nDays : Z) (now : Time) : list Path :=
  match LastNBusinessDays (clampDays nDays) now with
  | Some dates => map (fun d => filepath_Join dir (fileName d)) dates
  | None => []
  end.

(** The number of goroutines that hold a slot of the semaphore. *)
Definition runningCount (ws : list WState) : Z :=
  len (filter (fun w => isRunning w = true) ws).

(** The workers are launched in the order of the files: no worker waits
    behind one that was launched. *)
Definition launchedInOrder (ws : list WState) : Prop :=
  forall (i j : nat) w w',
    (i < j)%nat -> ws !! i = Some w -> ws !! j = Some w' ->
    isPending w' = false -> isPending w = false.

(** *** The ledger of the in-memory repository *)

(** The ledger of [fakeRepoIngestion] holds the day of the file [f]. *)
Definition dayLogged (repo : fakeRepoIngestion) (f : Path) : Prop :=
  exists d, fileDay f = Some d /\ has repo !! d = Some true.

(** Whatever the answers, the program returns no success without having
    called [UpsertIngestionLog] for the day of [f] as its last call. *)
Fixpoint logs (f : Path) (p : Prog (option Err)) : Prop :=
  match p with
  | Ret None => False
  | Ret (Some _) => True
  | PanicP => True
  | VUpsert d _ _ k =>
      (fileDay f = Some d /\ forall r, exists x, k r = Ret x)
      \/ forall r, logs f (k r)
  | VInsert _ k => forall r, logs f (k r)
  | VHas _ k => forall r, logs f (k r)
  | VDelete _ k => forall r, logs f (k r)
  | VDone k => forall r, logs f (k r)
  | VRead _ k => logs f k
  end.

(** The cell [s] is a date [YYYY-MM-DD] that exists, and [t] is midnight
    of that date in UTC. *)
Definition writtenDate (s : string) (t : Time) : Prop :=
  exists y1 y2 y3 y4 m1 m2 d1 d2 year month day,
    list_ascii_of_string s
    = [y1; y2; y3; y4; "-"%char; m1; m2; "-"%char; d1; d2]
    /\ decimalValue 0 [y1; y2; y3; y4] = Some year
    /\ decimalValue 0 [m1; m2] = Some month
    /\ decimalValue 0 [d1; d2] = Some day
    /\ 1 <= month <= 12 /\ 1 <= day <= daysIn month year
    /\ (Year t, Month t, Day t) = (year, month, day)
    /\ (Hour t, Minute t, Second t, Nanosecond t) = (0, 0, 0, 0)
    /\ TimeLocation t = LocUTC.

(** ** The PostgreSQL repository

    [storage.tradesRepository] talks to the database through [*sql.DB],
    [*sql.Tx] and [*sql.Stmt].  The database is kept abstract: it answers
    each call, given the calls made so far, with an error or with none. *)
Module storage.

(** The arguments of a statement (Go's [interface{}] values). *)
Inductive SqlValue : Type :=
| SqlNull
| SqlTime (t : Time)
| SqlString (s : string)
| SqlFloat (f : float)
| SqlInt (n : Z).

(** The calls on the database, the transaction and the statement;
    [TxPrepareCopyIn table columns] is [tx.Prepare(pq.CopyIn(table,
    columns...))]. *)
Inductive DbCall : Type :=
| DbBegin
| TxExec (query : string)
| TxPrepareCopyIn (table : string) (columns : list string)
| StmtExec (args : list SqlValue)
| StmtClose
| TxCommit
| TxRollback.

Definition DbEntry : Type := DbCall * option Err.

Definition Db : Type := list DbEntry -> DbCall -> option Err.

(** A computation on the database, from the calls made so far to a value
    and the calls made then. *)
Definition Sql (A : Type) : Type := list DbEntry -> A * list DbEntry.

#[global] Instance Sql_ret : MRet Sql := fun A (a : A) tr => (a, tr).

#[global] Instance Sql_bind : MBind Sql :=
  fun A B (k : A -> Sql B) (m : Sql A) tr => let '(a, tr') := m tr in k a tr'.

Definition call (db : Db) (c : DbCall) : Sql (option Err) :=
  fun tr => (db tr c, tr ++ [(c, db tr c)]).

Definition copyColumns : list string :=
  [ "reference_date"; "instrument_code"; "update_action"; "trade_price";
    "trade_quantity"; "closing_time"; "trade_identifier_code"; "session_type";
    "trade_date"; "buyer_participant_code"; "seller_participant_code" ].

(** The helpers that map the zero value of a time to NULL.  ([IsZero] is
    that of the times in UTC, which are the times [recordToTrade] gives.) *)
Definition toNullDate (d : Time) : SqlValue :=
  if IsZero d then SqlNull else SqlTime d.

Definition toNullTime (t : Time) : SqlValue :=
  if IsZero t then SqlNull else SqlTime t.

(** The arguments of [stmt.Exec] for one trade. *)
Definition execArgs (rec : Trade) : list SqlValue :=
  [ toNullDate (ReferenceDate rec);
    SqlString (InstrumentCode rec);
    SqlString (UpdateAction rec);
    SqlFloat (TradePrice rec);
    SqlInt (TradeQuantity rec);
    toNullTime (ClosingTime rec);
    SqlString (TradeIdentifierCode rec);
    SqlString (SessionType rec);
    toNullDate (TradeDate rec);
    SqlString (BuyerParticipantCode rec);
    SqlString (SellerParticipantCode rec) ].

Section Repository.
Variable db : Db.

(** The loop over the trades. *)
Fixpoint execTrades (trades : list Trade) : Sql (option Err) :=
  match trades with
  | [] => mret None
  | rec :: trades =>
      err ← call db (StmtExec (execArgs rec));
      match err with
      | Some e =>
          _ ← call db StmtClose;
          _ ← call db TxRollback;
          mret (Some e)
      | None => execTrades trades
      end
  end.

Definition InsertTradesBatch (trades : list Trade) : Sql (option Err) :=
  err ← call db DbBegin;
  match err with
  | Some e => mret (Some e)
  | None =>
      err ← call db (TxExec "SET LOCAL synchronous_commit = OFF");
      match err with
      | Some e => _ ← call db TxRollback; mret (Some e)
      | None =>
          err ← call db (TxPrepareCopyIn "trades" copyColumns);
          match err with
          | Some e => _ ← call db TxRollback; mret (Some e)
          | None =>
              err ← execTrades trades;
              match err with
              | Some e => mret (Some e)
              | None =>
                  err ← call db (StmtExec []);
                  match err with
                  | Some e =>
                      _ ← call db StmtClose;
                      _ ← call db TxRollback;
                      mret (Some e)
                  | None =>
                      err ← call db StmtClose;
                      match err with
                      | Some e => _ ← call db TxRollback; mret (Some e)
                      | None => call db TxCommit
                      end
                  end
              end
          end
      end
  end.

End Repository.

(** The calls of a batch when none fails. *)
Definition protocol (trades : list Trade) : list DbCall :=
  [ DbBegin; TxExec "SET LOCAL synchronous_commit = OFF";
    TxPrepareCopyIn "trades" copyColumns ]
  ++ map (fun rec => StmtExec (execArgs rec)) trades
  ++ [ StmtExec []; StmtClose; TxCommit ].

(** The calls that follow a failed call. *)
Definition cleanup (c : DbCall) : list DbCall :=
  match c with
  | DbBegin | TxCommit | TxRollback => []
  | TxExec _ | TxPrepareCopyIn _ _ | StmtClose => [TxRollback]
  | StmtExec _ => [StmtClose; TxRollback]
  end.

Definition succeeded (e : DbEntry) : Prop := e.2 = None.

End storage.

(** The calls that end a transaction. *)
Definition endsTx (c : storage.DbCall) : bool :=
  match c with
  | storage.TxCommit | storage.TxRollback => true
  | _ => false
  end.

(** *** A context that is already done *)

(** The calls that write trades or the ledger. *)
Definition isWrite (e : Entry) : Prop :=
  match e with
  | EInsert _ _ | EUpsert _ _ _ _ => True
  | _ => False
  end.

(** [p] makes no such call when every poll of the context finds it done,
    and [P] holds of what it returns. *)
Fixpoint quietly {A : Type} (P : A -> Prop) (p : Prog A) : Prop :=
  match p with
  | Ret a => P a
  | PanicP => True
  | VInsert _ _ => False
  | VUpsert _ _ _ _ => False
  | VHas _ k => forall r, quietly P (k r)
  | VDelete _ k => forall r, quietly P (k r)
  | VDone k => forall e, quietly P (k (Some e))
  | VRead _ k => quietly P k
  end.

(** The context is done, no write was made, and no worker is to make
    one. *)
Definition cancelledQuiet {R : Type} (g : Group R) : Prop :=
  (exists e, g_ctx g = Some e)
  /\ Forall (fun ie => ~ isWrite ie.2) (g_log g)
  /\ forall i w, g_workers g !! i = Some w ->
       match w with
       | Pending p | Running p => quietly (fun _ => True) p
       | Finished _ => True
       end.


(** A file whose second row has a price that is no number, and a file
    whose third read fails. *)
Definition badRowFile : list ReadResult :=
  [ ReadRecord expectedHeaders; ReadRecord (sampleRow "10,0");
    ReadRecord (sampleRow "abc"); ReadRecord (sampleRow "11,0") ].

Definition brokenReadFile : list ReadResult :=
  [ ReadRecord expectedHeaders; ReadRecord (sampleRow "10,0");
    ReadError (ExtErr "record on line 3: wrong number of fields");
    ReadRecord (sampleRow "11,0") ].


Definition thursday : Time := time_Date 2025 9 18 0 0 0 0 LocLocal.
Definition friday : Time := time_Date 2025 9 19 0 0 0 0 LocLocal.

(** The runs of the examples. *)
Definition badRowRun : option (Z * option Err) * list Entry :=
  run quietEnv
      (@parseAndPersistFile decimalStrconv (dirWith [sampleName] badRowFile)
                            samplePath 5000) [].

Definition brokenReadRun : option (Z * option Err) * list Entry :=
  run quietEnv
      (@parseAndPersistFile decimalStrconv (dirWith [sampleName] brokenReadFile)
                            samplePath 5000) [].

Definition freshWorkerRun : option (option Err) * list Entry :=
  run quietEnv (@worker decimalStrconv sampleDir false samplePath) [].

(** The calls of the trace of a cancelled run with [force]. *)
Definition cancelledForceRun : Res unit * fakeRepoIngestion * list (nat * Entry) :=
  @ProcessDirectory fakeRepoIngestion _ decimalStrconv bothDaysDir saturdayNoon 4
                    [StepWorker 0; StepWorker 1] (Some context_Canceled) "data"
                    ingestedRepo 2 0 true.

(** A database on which the [Exec] that flushes the [COPY] fails. *)
Definition flushFails : storage.Db :=
  fun _ c =>
    match c with
    | storage.StmtExec [] => Some (ExtErr "copy failed")
    | _ => None
    end.
(** * Properties *)

(** ** Row conversion *)

Lemma decimalValue_nonneg l : forall acc v,
  0 <= acc -> decimalValue acc l = Some v -> 0 <= v.
Proof.
  induction l as [|c l IH]; intros acc v Hacc; cbn.
  - intros [= <-]. exact Hacc.
  - destruct (isDigit c) eqn:Hd; [|discriminate].
    apply IH. unfold isDigit, digitVal in *. lia.
Qed.

Lemma ParseInt_range s v :
  ParseInt s = Some v -> - 2 ^ 63 <= v < 2 ^ 63.
Proof.
  unfold ParseInt.
  set (l := list_ascii_of_string s). clearbody l.
  assert (Hpd : forall l' un, parseDigits l' = Some un -> 0 <= un).
  { intros l' un. unfold parseDigits. destruct l'; [discriminate|].
    apply decimalValue_nonneg. lia. }
  destruct (match l with
            | "+"%char :: l' => (false, l')
            | "-"%char :: l' => (true, l')
            | _ => (false, l)
            end) as [neg l'] eqn:Hsign.
  destruct (parseDigits l') as [un|] eqn:Hun; [|discriminate].
  apply Hpd in Hun.
  destruct neg; cbn.
  - destruct (2 ^ 63 <? un) eqn:Hc; [discriminate|]. intros [= <-]. lia.
  - destruct (2 ^ 63 <=? un) eqn:Hc; [discriminate|]. intros [= <-]. lia.
Qed.

(** *** Trimming *)

Lemma stripPrefix_app p l : stripPrefix p (p ++ l) = Some l.
Proof.
  induction p as [|a p IH]; [destruct l; reflexivity|].
  cbn. rewrite bool_decide_eq_true_2 by reflexivity. exact IH.
Qed.

Lemma stripPrefix_Some p : forall l l',
  stripPrefix p l = Some l' -> l = p ++ l'.
Proof.
  induction p as [|a p IH]; intros l l'; cbn.
  - intros [= <-]. reflexivity.
  - destruct l as [|b l]; [discriminate|].
    destruct (decide (a = b)) as [<-|Hne].
    + rewrite bool_decide_eq_true_2 by reflexivity. intros Hs.
      rewrite (IH _ _ Hs). reflexivity.
    + rewrite bool_decide_eq_false_2 by exact Hne. discriminate.
Qed.

Lemma dropRune_Some runes l l' :
  dropRune runes l = Some l' -> exists r, (r ∈ runes) /\ l = r ++ l'.
Proof.
  induction runes as [|r runes IH]; cbn; [discriminate|].
  destruct (stripPrefix r l) as [x|] eqn:Hs.
  - intros [= <-]. exists r. split; [left|]. apply stripPrefix_Some. exact Hs.
  - intros Hd. destruct (IH Hd) as (r' & Hr' & ->). exists r'. split; [by right|done].
Qed.

Lemma dropRune_None runes l r rest :
  dropRune runes l = None -> r ∈ runes -> l <> r ++ rest.
Proof.
  induction runes as [|r0 runes IH]; cbn; intros Hd Hr.
  - inversion Hr.
  - destruct (stripPrefix r0 l) as [x|] eqn:Hs; [discriminate|].
    apply elem_of_cons in Hr as [->|Hr]; [|exact (IH Hd Hr)].
    intros ->. rewrite stripPrefix_app in Hs. discriminate.
Qed.

Lemma trimLeftRunes_spec runes :
  Forall (fun r => r <> []) runes ->
  forall fuel l,
    (length l <= fuel)%nat ->
    exists pre,
      Forall (fun r => r ∈ runes) pre
      /\ l = concat pre ++ trimLeftRunes fuel runes l
      /\ dropRune runes (trimLeftRunes fuel runes l) = None.
Proof.
  intros Hne. induction fuel as [|fuel IH]; intros l Hlen; cbn [trimLeftRunes].
  - destruct l; [|cbn in Hlen; lia]. exists []. split; [constructor|].
    split; [reflexivity|].
    clear Hlen. induction Hne as [|r runes Hr _ IHr]; [reflexivity|].
    cbn. destruct r; [done|]. cbn. exact IHr.
  - destruct (dropRune runes l) as [l'|] eqn:Hd.
    + destruct (dropRune_Some _ _ _ Hd) as (r & Hr & ->).
      assert (Hr0 : r <> []) by (eapply Forall_forall in Hne; eassumption).
      destruct (IH l') as (pre & Hpre & Hl' & Hnone).
      { rewrite length_app in Hlen. destruct r; [done|]. cbn in Hlen. lia. }
      exists (r :: pre). split; [constructor; assumption|].
      split; [|exact Hnone]. cbn. rewrite <- app_assoc, <- Hl'. reflexivity.
    + exists []. split; [constructor|]. split; [reflexivity|exact Hd].
Qed.

Lemma spaceRunes_nonempty : Forall (fun r : list ascii => r <> []) spaceRunes.
Proof. repeat constructor; discriminate. Qed.

Lemma rev_spaceRunes_nonempty :
  Forall (fun r : list ascii => r <> []) (map (@rev ascii) spaceRunes).
Proof. repeat constructor; discriminate. Qed.

(** No rune of white space begins another. *)
Lemma dropRune_space r rest :
  r ∈ spaceRunes -> dropRune spaceRunes (r ++ rest) = Some rest.
Proof.
  intros Hr. apply list_elem_of_In in Hr. vm_compute in Hr.
  repeat (destruct Hr as [<-|Hr]; [vm_compute; reflexivity|]). destruct Hr.
Qed.

Lemma whiteSpace_nil : whiteSpace [].
Proof. exists []. split; [constructor|reflexivity]. Qed.

Lemma whiteSpace_rune r : r ∈ spaceRunes -> whiteSpace r.
Proof.
  intros Hr. exists [r]. split; [constructor; [exact Hr|constructor]|].
  cbn. rewrite app_nil_r. reflexivity.
Qed.

Lemma whiteSpace_app l l' : whiteSpace l -> whiteSpace l' -> whiteSpace (l ++ l').
Proof.
  intros (a & Ha & ->) (b & Hb & ->). exists (a ++ b).
  split; [apply Forall_app; done|]. rewrite concat_app. reflexivity.
Qed.

Lemma whiteSpace_rev_concat pre :
  Forall (fun r => r ∈ map (@rev ascii) spaceRunes) pre ->
  whiteSpace (rev (concat pre)).
Proof.
  induction 1 as [|r pre Hr _ IH]; [apply whiteSpace_nil|].
  cbn. rewrite rev_app_distr. apply whiteSpace_app; [exact IH|].
  apply list_elem_of_fmap in Hr as (r0 & -> & Hr0).
  rewrite rev_involutive. apply whiteSpace_rune. exact Hr0.
Qed.

(** [strings.TrimSpace] trims, in the sense of the specification. *)
Lemma TrimSpace_trimmedOf cell : trimmedOf cell (TrimSpace cell).
Proof.
  unfold trimmedOf, TrimSpace. cbn zeta.
  set (l := list_ascii_of_string cell).
  destruct (trimLeftRunes_spec spaceRunes spaceRunes_nonempty (length l) l
              ltac:(lia)) as (pre & Hpre & Hl & Hleft).
  set (l1 := trimLeftRunes (length l) spaceRunes l) in *.
  destruct (trimLeftRunes_spec _ rev_spaceRunes_nonempty (length l1) (rev l1)
              ltac:(rewrite length_rev; lia)) as (post & Hpost & Hr & Hright).
  set (r := trimLeftRunes (length l1) (map (@rev ascii) spaceRunes) (rev l1)) in *.
  rewrite list_ascii_of_string_of_list_ascii.
  assert (Hl1 : l1 = rev r ++ rev (concat post)).
  { rewrite <- rev_app_distr, <- Hr, rev_involutive. reflexivity. }
  exists (concat pre), (rev (concat post)).
  split; [exists pre; done|]. split; [apply whiteSpace_rev_concat; exact Hpost|].
  split; [rewrite <- Hl1; exact Hl|]. split.
  - intros (r0 & rest & Hr0 & Heq).
    apply (dropRune_None _ _ r0 (rest ++ rev (concat post)) Hleft Hr0).
    rewrite Hl1, Heq, <- app_assoc. reflexivity.
  - intros (r0 & rest & Hr0 & Heq).
    apply (dropRune_None _ _ (rev r0) (rev rest) Hright).
    + apply list_elem_of_fmap. exists r0. done.
    + rewrite <- rev_app_distr, <- Heq, rev_involutive. reflexivity.
Qed.

Lemma trimLeftRunes_whiteSpace runes :
  Forall (fun r => r ∈ spaceRunes) runes ->
  forall fuel, (length (concat runes) <= fuel)%nat ->
  trimLeftRunes fuel spaceRunes (concat runes) = [].
Proof.
  induction 1 as [|r runes Hr _ IH]; intros fuel Hlen.
  - destruct fuel; reflexivity.
  - cbn [concat] in *.
    assert (Hr0 : r <> []).
    { pose proof spaceRunes_nonempty as Hne.
      eapply Forall_forall in Hne; eassumption. }
    destruct fuel as [|fuel].
    { rewrite length_app in Hlen. destruct r; [done|]. cbn in Hlen. lia. }
    cbn [trimLeftRunes]. rewrite dropRune_space by exact Hr. apply IH.
    rewrite length_app in Hlen. destruct r; [done|]. cbn in Hlen. lia.
Qed.

(** A cell is empty after trimming exactly when it is blank. *)
Lemma TrimSpace_blank cell : TrimSpace cell = "" <-> blankCell cell.
Proof.
  split.
  - intros He. destruct (TrimSpace_trimmedOf cell) as (pre & post & Hpre & Hpost & Hl & _).
    rewrite He in Hl. cbn in Hl. unfold blankCell. rewrite Hl.
    apply whiteSpace_app; assumption.
  - intros (runes & Hrunes & Hl). unfold TrimSpace. cbn zeta. rewrite Hl.
    rewrite trimLeftRunes_whiteSpace by (exact Hrunes || lia). reflexivity.
Qed.

Section RowProperties.
Context `{Strconv}.


Lemma res_bind_Ok {A B} (r : Res A) (k : A -> Res B) b :
  r ≫= k = Ok b -> exists a, r = Ok a /\ k a = Ok b.
Proof. destruct r; cbn; [eauto|discriminate..]. Qed.

(** Inversion of a successful [recordToTrade]: the record has the eleven
    cells read, and each field is its cell converted. *)
Lemma recordToTrade_Ok rec t :
  recordToTrade rec = Ok t ->
  exists c0 c1 c2 c3 c4 c5 c6 c7 c8 c9 c10 rest,
    rec = c0 :: c1 :: c2 :: c3 :: c4 :: c5 :: c6 :: c7 :: c8 :: c9 :: c10 :: rest
    /\ dateCell ErrInvalidReferenceDate c0 = Ok (ReferenceDate t)
    /\ InstrumentCode t = TrimSpace c1
    /\ UpdateAction t = TrimSpace c2
    /\ priceCell c3 = Ok (TradePrice t)
    /\ quantityCell c4 = Ok (TradeQuantity t)
    /\ clockCell c5 = Ok (ClosingTime t)
    /\ TradeIdentifierCode t = TrimSpace c6
    /\ SessionType t = TrimSpace c7
    /\ dateCell ErrInvalidTradeDate c8 = Ok (TradeDate t)
    /\ BuyerParticipantCode t = TrimSpace c9
    /\ SellerParticipantCode t = TrimSpace c10.
Proof.
  intros Hr.
  destruct rec as [|c0 [|c1 [|c2 [|c3 [|c4 [|c5 [|c6 [|c7 [|c8 [|c9 [|c10 rest]]]]]]]]]]];
    unfold recordToTrade, index in Hr; cbn in Hr;
    repeat match type of Hr with
           | ?r ≫= _ = Ok _ =>
               let a := fresh "a" in let Ha := fresh "Ha" in
               apply res_bind_Ok in Hr; destruct Hr as (a & Ha & Hr)
           end;
    try discriminate.
  exists c0, c1, c2, c3, c4, c5, c6, c7, c8, c9, c10, rest.
  injection Hr as <-. cbn. repeat split; assumption.
Qed.

(** C9, as amended: the quantity of a trade produced by a successful
    [recordToTrade] is an integer of the [int64] range, negative values
    included: it is zero when the quantity cell is blank, and otherwise the
    integer that [strconv.ParseInt] reads in the trimmed cell, whatever its
    sign.  Nothing restricts it to non-negative values. *)
Theorem quantity_in_int64_range rec t :
  recordToTrade rec = Ok t ->
  - 2 ^ 63 <= TradeQuantity t < 2 ^ 63
  /\ exists c4,
       rec !! 4%nat = Some c4
       /\ (blankCell c4 -> TradeQuantity t = 0)
       /\ (~ blankCell c4 -> ParseInt (TrimSpace c4) = Some (TradeQuantity t)).
Proof.
  intros Hr. apply recordToTrade_Ok in Hr.
  destruct Hr as (c0 & c1 & c2 & c3 & c4 & c5 & c6 & c7 & c8 & c9 & c10 & rest
                  & -> & _ & _ & _ & _ & Hq & _).
  unfold quantityCell in Hq. cbn zeta in Hq.
  destruct (decide (TrimSpace c4 = "")) as [He|Hne].
  - rewrite bool_decide_eq_true_2 in Hq by exact He. cbn [negb] in Hq.
    injection Hq as <-. split; [lia|]. exists c4. split; [reflexivity|].
    split; [reflexivity|]. intros Hnb. destruct Hnb. apply TrimSpace_blank. exact He.
  - rewrite bool_decide_eq_false_2 in Hq by exact Hne. cbn [negb] in Hq.
    destruct (ParseInt (TrimSpace c4)) as [v|] eqn:Hp; [|discriminate].
    injection Hq as <-. split; [eapply ParseInt_range; eassumption|].
    exists c4. split; [reflexivity|]. split; [|intros _; exact Hp].
    intros Hb. apply TrimSpace_blank in Hb. contradiction.
Qed.


Lemma dateCell_no_panic mk c : dateCell mk c <> Panicked.
Proof. unfold dateCell. repeat case_match; discriminate. Qed.

Lemma priceCell_no_panic c : priceCell c <> Panicked.
Proof. unfold priceCell. repeat case_match; discriminate. Qed.

Lemma quantityCell_no_panic c : quantityCell c <> Panicked.
Proof. unfold quantityCell. repeat case_match; discriminate. Qed.

Lemma clockCell_no_panic c : clockCell c <> Panicked.
Proof. unfold clockCell. repeat case_match; discriminate. Qed.

Lemma recordToTrade_eleven c0 c1 c2 c3 c4 c5 c6 c7 c8 c9 c10 :
  recordToTrade (elevenCells c0 c1 c2 c3 c4 c5 c6 c7 c8 c9 c10) =
  (referenceDate ← dateCell ErrInvalidReferenceDate c0;
   tradePrice ← priceCell c3;
   tradeQuantity ← quantityCell c4;
   closingTime ← clockCell c5;
   tradeDate ← dateCell ErrInvalidTradeDate c8;
   Ok (mkTrade referenceDate (TrimSpace c1) (TrimSpace c2) tradePrice
               tradeQuantity closingTime (TrimSpace c6) (TrimSpace c7)
               tradeDate (TrimSpace c9) (TrimSpace c10))).
Proof. reflexivity. Qed.

(** A row of eleven cells is converted or rejected, it never panics. *)
Lemma recordToTrade_eleven_cases c0 c1 c2 c3 c4 c5 c6 c7 c8 c9 c10 :
  (exists t, recordToTrade (elevenCells c0 c1 c2 c3 c4 c5 c6 c7 c8 c9 c10) = Ok t)
  \/ (exists e, recordToTrade (elevenCells c0 c1 c2 c3 c4 c5 c6 c7 c8 c9 c10) = Raise e).
Proof.
  rewrite recordToTrade_eleven.
  pose proof (dateCell_no_panic ErrInvalidReferenceDate c0).
  pose proof (priceCell_no_panic c3).
  pose proof (quantityCell_no_panic c4).
  pose proof (clockCell_no_panic c5).
  pose proof (dateCell_no_panic ErrInvalidTradeDate c8).
  destruct (dateCell ErrInvalidReferenceDate c0); cbn; [|eauto|done].
  destruct (priceCell c3); cbn; [|eauto|done].
  destruct (quantityCell c4); cbn; [|eauto|done].
  destruct (clockCell c5); cbn; [|eauto|done].
  destruct (dateCell ErrInvalidTradeDate c8); cbn; [|eauto|done].
  eauto.
Qed.

Lemma recordToTrade_eleven_fails c0 c1 c2 c3 c4 c5 c6 c7 c8 c9 c10 :
  (forall t, recordToTrade (elevenCells c0 c1 c2 c3 c4 c5 c6 c7 c8 c9 c10) <> Ok t) ->
  exists e, recordToTrade (elevenCells c0 c1 c2 c3 c4 c5 c6 c7 c8 c9 c10) = Raise e.
Proof.
  intros Hno.
  destruct (recordToTrade_eleven_cases c0 c1 c2 c3 c4 c5 c6 c7 c8 c9 c10)
    as [[t Ht]|He]; [|exact He].
  exfalso. exact (Hno t Ht).
Qed.

(** The values of the cells of a converted row, and the cells that make
    the conversion fail. *)
Lemma recordToTrade_values c0 c1 c2 c3 c4 c5 c6 c7 c8 c9 c10 :
  let rec := elevenCells c0 c1 c2 c3 c4 c5 c6 c7 c8 c9 c10 in
  let fails := exists e, recordToTrade rec = Raise e in
  (* price *)
  (forall t, recordToTrade rec = Ok t ->
             if bool_decide (TrimSpace c3 = "") then TradePrice t = 0%float
             else ParseFloat (ReplaceAll_comma_dot (TrimSpace c3))
                  = Some (TradePrice t))
  /\ (TrimSpace c3 <> "" ->
      ParseFloat (ReplaceAll_comma_dot (TrimSpace c3)) = None -> fails)
  (* quantity *)
  /\ (forall t, recordToTrade rec = Ok t ->
                if bool_decide (TrimSpace c4 = "") then TradeQuantity t = 0
                else ParseInt (TrimSpace c4) = Some (TradeQuantity t))
  /\ (TrimSpace c4 <> "" -> ParseInt (TrimSpace c4) = None -> fails)
  (* dates *)
  /\ (forall t, recordToTrade rec = Ok t ->
                (if bool_decide (TrimSpace c0 = "") then ReferenceDate t = zeroTime
                 else time_Parse_date (TrimSpace c0) = Some (ReferenceDate t))
                /\ (if bool_decide (TrimSpace c8 = "") then TradeDate t = zeroTime
                    else time_Parse_date (TrimSpace c8) = Some (TradeDate t)))
  /\ (TrimSpace c0 <> "" -> time_Parse_date (TrimSpace c0) = None -> fails)
  /\ (TrimSpace c8 <> "" -> time_Parse_date (TrimSpace c8) = None -> fails)
  (* clock time *)
  /\ (forall t, recordToTrade rec = Ok t ->
                if bool_decide (TrimSpace c5 = "") then ClosingTime t = zeroTime
                else 6 <= Z.of_nat (String.length (TrimSpace c5))
                     /\ exists h,
                         time_Parse_clock (substring 0 6 (TrimSpace c5)) = Some h
                         /\ ClosingTime t
                            = time_Date 0 1 1 (Hour h) (Minute h) (Second h) 0 LocUTC)
  /\ (TrimSpace c5 <> "" -> Z.of_nat (String.length (TrimSpace c5)) < 6 -> fails)
  (* the other cells *)
  /\ (forall t, recordToTrade rec = Ok t ->
                InstrumentCode t = TrimSpace c1
                /\ UpdateAction t = TrimSpace c2
                /\ TradeIdentifierCode t = TrimSpace c6
                /\ SessionType t = TrimSpace c7
                /\ BuyerParticipantCode t = TrimSpace c9
                /\ SellerParticipantCode t = TrimSpace c10).
Proof.
  intros rec fails.
  assert (Hinv : forall t, recordToTrade rec = Ok t ->
            dateCell ErrInvalidReferenceDate c0 = Ok (ReferenceDate t)
            /\ InstrumentCode t = TrimSpace c1
            /\ UpdateAction t = TrimSpace c2
            /\ priceCell c3 = Ok (TradePrice t)
            /\ quantityCell c4 = Ok (TradeQuantity t)
            /\ clockCell c5 = Ok (ClosingTime t)
            /\ TradeIdentifierCode t = TrimSpace c6
            /\ SessionType t = TrimSpace c7
            /\ dateCell ErrInvalidTradeDate c8 = Ok (TradeDate t)
            /\ BuyerParticipantCode t = TrimSpace c9
            /\ SellerParticipantCode t = TrimSpace c10).
  { intros t Ht. apply recordToTrade_Ok in Ht.
    destruct Ht as (? & ? & ? & ? & ? & ? & ? & ? & ? & ? & ? & ? & Heq & Ht).
    injection Heq as <- <- <- <- <- <- <- <- <- <- <- <-. exact Ht. }
  assert (Hfail : (forall t, recordToTrade rec <> Ok t) -> fails)
    by apply recordToTrade_eleven_fails.
  repeat split.
  - intros t Ht. destruct (Hinv t Ht) as (_ & _ & _ & Hp & _).
    unfold priceCell in Hp. revert Hp.
    destruct (bool_decide (TrimSpace c3 = "")); cbn; [congruence|].
    case_match; congruence.
  - intros Hne Hp. apply Hfail. intros t Ht.
    destruct (Hinv t Ht) as (_ & _ & _ & Hc & _).
    unfold priceCell in Hc. rewrite bool_decide_false in Hc by done.
    cbn in Hc. rewrite Hp in Hc. discriminate.
  - intros t Ht. destruct (Hinv t Ht) as (_ & _ & _ & _ & Hq & _).
    unfold quantityCell in Hq. revert Hq.
    destruct (bool_decide (TrimSpace c4 = "")); cbn; [congruence|].
    case_match; congruence.
  - intros Hne Hp. apply Hfail. intros t Ht.
    destruct (Hinv t Ht) as (_ & _ & _ & _ & Hc & _).
    unfold quantityCell in Hc. rewrite bool_decide_false in Hc by done.
    cbn in Hc. rewrite Hp in Hc. discriminate.
  - destruct (Hinv t H0) as (Hd & _).
    unfold dateCell in Hd. revert Hd.
    destruct (bool_decide (TrimSpace c0 = "")); cbn; [congruence|].
    case_match; congruence.
  - destruct (Hinv t H0) as (_ & _ & _ & _ & _ & _ & _ & _ & Hd & _).
    unfold dateCell in Hd. revert Hd.
    destruct (bool_decide (TrimSpace c8 = "")); cbn; [congruence|].
    case_match; congruence.
  - intros Hne Hp. apply Hfail. intros t Ht.
    destruct (Hinv t Ht) as (Hc & _).
    unfold dateCell in Hc. rewrite bool_decide_false in Hc by done.
    cbn in Hc. rewrite Hp in Hc. discriminate.
  - intros Hne Hp. apply Hfail. intros t Ht.
    destruct (Hinv t Ht) as (_ & _ & _ & _ & _ & _ & _ & _ & Hc & _).
    unfold dateCell in Hc. rewrite bool_decide_false in Hc by done.
    cbn in Hc. rewrite Hp in Hc. discriminate.
  - intros t Ht. destruct (Hinv t Ht) as (_ & _ & _ & _ & _ & Hc & _).
    unfold clockCell in Hc. revert Hc.
    destruct (bool_decide (TrimSpace c5 = "")); cbn; [congruence|].
    destruct (Z.of_nat (String.length (TrimSpace c5)) <? 6) eqn:Hlen; [discriminate|].
    intros Hc. split; [lia|].
    destruct (time_Parse_clock _) as [h|]; [|discriminate].
    exists h. split; [reflexivity|congruence].
  - intros Hne Hlen. apply Hfail. intros t Ht.
    destruct (Hinv t Ht) as (_ & _ & _ & _ & _ & Hc & _).
    unfold clockCell in Hc. rewrite bool_decide_false in Hc by done.
    cbn in Hc. apply Z.ltb_lt in Hlen. rewrite Hlen in Hc. discriminate.
  - apply (Hinv t H0).
  - apply (Hinv t H0).
  - apply (Hinv t H0).
  - apply (Hinv t H0).
  - apply (Hinv t H0).
  - apply (Hinv t H0).
Qed.

(** Which cells are accepted. *)
Lemma dateCell_Ok_iff mk c :
  (exists t, dateCell mk c = Ok t)
  <-> blankCell c \/ time_Parse_date (TrimSpace c) <> None.
Proof.
  rewrite <- TrimSpace_blank. unfold dateCell. cbn zeta.
  destruct (decide (TrimSpace c = "")) as [He|Hne].
  - rewrite bool_decide_eq_true_2 by exact He. cbn [negb]. split; eauto.
  - rewrite bool_decide_eq_false_2 by exact Hne. cbn [negb].
    destruct (time_Parse_date (TrimSpace c)) as [d|]; split; eauto;
      try (intros [? ?]; discriminate); try (intros [?|?]; done);
      try (intros _; right; discriminate).
Qed.

Lemma priceCell_Ok_iff c :
  (exists v, priceCell c = Ok v)
  <-> blankCell c \/ ParseFloat (ReplaceAll_comma_dot (TrimSpace c)) <> None.
Proof.
  rewrite <- TrimSpace_blank. unfold priceCell. cbn zeta.
  destruct (decide (TrimSpace c = "")) as [He|Hne].
  - rewrite bool_decide_eq_true_2 by exact He. cbn [negb]. split; eauto.
  - rewrite bool_decide_eq_false_2 by exact Hne. cbn [negb].
    destruct (ParseFloat _) as [v|]; split; eauto;
      try (intros [? ?]; discriminate); try (intros [?|?]; done);
      try (intros _; right; discriminate).
Qed.

Lemma quantityCell_Ok_iff c :
  (exists v, quantityCell c = Ok v)
  <-> blankCell c \/ ParseInt (TrimSpace c) <> None.
Proof.
  rewrite <- TrimSpace_blank. unfold quantityCell. cbn zeta.
  destruct (decide (TrimSpace c = "")) as [He|Hne].
  - rewrite bool_decide_eq_true_2 by exact He. cbn [negb]. split; eauto.
  - rewrite bool_decide_eq_false_2 by exact Hne. cbn [negb].
    destruct (ParseInt _) as [v|]; split; eauto;
      try (intros [? ?]; discriminate); try (intros [?|?]; done);
      try (intros _; right; discriminate).
Qed.

Lemma clockCell_Ok_iff c :
  (exists t, clockCell c = Ok t)
  <-> blankCell c
      \/ (6 <= Z.of_nat (String.length (TrimSpace c))
          /\ time_Parse_clock (substring 0 6 (TrimSpace c)) <> None).
Proof.
  rewrite <- TrimSpace_blank. unfold clockCell. cbn zeta.
  destruct (decide (TrimSpace c = "")) as [He|Hne].
  - rewrite bool_decide_eq_true_2 by exact He. cbn [negb]. split; eauto.
  - rewrite bool_decide_eq_false_2 by exact Hne. cbn [negb].
    destruct (Z.ltb_spec (Z.of_nat (String.length (TrimSpace c))) 6) as [Hlt|Hge].
    { split; [intros [t Ht]; discriminate|]. intros [He|[Hlen _]]; [done|lia]. }
    destruct (time_Parse_clock _) as [h|]; split; eauto;
      try (intros [? ?]; discriminate); try (intros [?|[_ ?]]; done);
      try (intros _; right; split; [lia|discriminate]).
Qed.

(** C6: the conversion of the cells of a row of eleven cells.  The values
    of the cells of a converted row and the cells that make the conversion
    fail; a cell is empty after trimming exactly when it holds white space
    only; the row is converted exactly when each date, price, quantity and
    clock cell is blank or well formed, and fails otherwise; a blank cell
    gives the zero value of its field; each string field is its cell
    trimmed of surrounding white space. *)
Theorem recordToTrade_cells c0 c1 c2 c3 c4 c5 c6 c7 c8 c9 c10 :
  let rec := elevenCells c0 c1 c2 c3 c4 c5 c6 c7 c8 c9 c10 in
  let fails := exists e, recordToTrade rec = Raise e in
  (* price *)
  (forall t, recordToTrade rec = Ok t ->
             if bool_decide (TrimSpace c3 = "") then TradePrice t = 0%float
             else ParseFloat (ReplaceAll_comma_dot (TrimSpace c3))
                  = Some (TradePrice t))
  /\ (TrimSpace c3 <> "" ->
      ParseFloat (ReplaceAll_comma_dot (TrimSpace c3)) = None -> fails)
  (* quantity *)
  /\ (forall t, recordToTrade rec = Ok t ->
                if bool_decide (TrimSpace c4 = "") then TradeQuantity t = 0
                else ParseInt (TrimSpace c4) = Some (TradeQuantity t))
  /\ (TrimSpace c4 <> "" -> ParseInt (TrimSpace c4) = None -> fails)
  (* dates *)
  /\ (forall t, recordToTrade rec = Ok t ->
                (if bool_decide (TrimSpace c0 = "") then ReferenceDate t = zeroTime
                 else time_Parse_date (TrimSpace c0) = Some (ReferenceDate t))
                /\ (if bool_decide (TrimSpace c8 = "") then TradeDate t = zeroTime
                    else time_Parse_date (TrimSpace c8) = Some (TradeDate t)))
  /\ (TrimSpace c0 <> "" -> time_Parse_date (TrimSpace c0) = None -> fails)
  /\ (TrimSpace c8 <> "" -> time_Parse_date (TrimSpace c8) = None -> fails)
  (* clock time *)
  /\ (forall t, recordToTrade rec = Ok t ->
                if bool_decide (TrimSpace c5 = "") then ClosingTime t = zeroTime
                else 6 <= Z.of_nat (String.length (TrimSpace c5))
                     /\ exists h,
                         time_Parse_clock (substring 0 6 (TrimSpace c5)) = Some h
                         /\ ClosingTime t
                            = time_Date 0 1 1 (Hour h) (Minute h) (Second h) 0 LocUTC)
  /\ (TrimSpace c5 <> "" -> Z.of_nat (String.length (TrimSpace c5)) < 6 -> fails)
  (* the other cells *)
  /\ (forall t, recordToTrade rec = Ok t ->
                InstrumentCode t = TrimSpace c1
                /\ UpdateAction t = TrimSpace c2
                /\ TradeIdentifierCode t = TrimSpace c6
                /\ SessionType t = TrimSpace c7
                /\ BuyerParticipantCode t = TrimSpace c9
                /\ SellerParticipantCode t = TrimSpace c10)
  (* empty after trimming: white space only *)
  /\ (forall c, TrimSpace c = "" <-> blankCell c)
  (* the rows that are converted; the others fail *)
  /\ ((exists t, recordToTrade rec = Ok t)
      <-> (blankCell c0 \/ time_Parse_date (TrimSpace c0) <> None)
          /\ (blankCell c3
              \/ ParseFloat (ReplaceAll_comma_dot (TrimSpace c3)) <> None)
          /\ (blankCell c4 \/ ParseInt (TrimSpace c4) <> None)
          /\ (blankCell c5
              \/ (6 <= Z.of_nat (String.length (TrimSpace c5))
                  /\ time_Parse_clock (substring 0 6 (TrimSpace c5)) <> None))
          /\ (blankCell c8 \/ time_Parse_date (TrimSpace c8) <> None))
  /\ ((exists t, recordToTrade rec = Ok t) \/ fails)
  (* blank cells are tolerated: they give the zero values *)
  /\ (forall t, recordToTrade rec = Ok t ->
                (blankCell c3 -> TradePrice t = 0%float)
                /\ (blankCell c4 -> TradeQuantity t = 0)
                /\ (blankCell c0 -> ReferenceDate t = zeroTime)
                /\ (blankCell c8 -> TradeDate t = zeroTime)
                /\ (blankCell c5 -> ClosingTime t = zeroTime))
  (* the string cells, trimmed of surrounding white space *)
  /\ (forall t, recordToTrade rec = Ok t ->
                trimmedOf c1 (InstrumentCode t)
                /\ trimmedOf c2 (UpdateAction t)
                /\ trimmedOf c6 (TradeIdentifierCode t)
                /\ trimmedOf c7 (SessionType t)
                /\ trimmedOf c9 (BuyerParticipantCode t)
                /\ trimmedOf c10 (SellerParticipantCode t)).
Proof.
  intros rec fails.
  destruct (recordToTrade_values c0 c1 c2 c3 c4 c5 c6 c7 c8 c9 c10)
    as (Hprice & Hprice' & Hqty & Hqty' & Hdates & Href' & Htrade' & Hclock
        & Hclock' & Hstrings).
  do 10 (split; [assumption|]).
  split; [exact TrimSpace_blank|].
  split; [|split; [apply recordToTrade_eleven_cases|split]].
  - unfold rec. rewrite recordToTrade_eleven.
    rewrite <- (dateCell_Ok_iff ErrInvalidReferenceDate c0), <- priceCell_Ok_iff,
      <- quantityCell_Ok_iff, <- clockCell_Ok_iff,
      <- (dateCell_Ok_iff ErrInvalidTradeDate c8).
    split.
    + intros [t Ht].
      destruct (dateCell ErrInvalidReferenceDate c0) as [d0| |]; try discriminate.
      destruct (priceCell c3) as [p| |]; try discriminate.
      destruct (quantityCell c4) as [q| |]; try discriminate.
      destruct (clockCell c5) as [h| |]; try discriminate.
      destruct (dateCell ErrInvalidTradeDate c8) as [d8| |]; try discriminate.
      eauto 10.
    + intros ([d0 ->] & [p ->] & [q ->] & [h ->] & [d8 ->]). cbn. eauto.
  - intros t Ht.
    specialize (Hprice t Ht). specialize (Hqty t Ht). specialize (Hclock t Ht).
    destruct (Hdates t Ht) as [Href Htrade].
    repeat split; intros Hb; apply TrimSpace_blank in Hb.
    + rewrite bool_decide_eq_true_2 in Hprice by exact Hb. exact Hprice.
    + rewrite bool_decide_eq_true_2 in Hqty by exact Hb. exact Hqty.
    + rewrite bool_decide_eq_true_2 in Href by exact Hb. exact Href.
    + rewrite bool_decide_eq_true_2 in Htrade by exact Hb. exact Htrade.
    + rewrite bool_decide_eq_true_2 in Hclock by exact Hb. exact Hclock.
  - intros t Ht.
    destruct (Hstrings t Ht) as (-> & -> & -> & -> & -> & ->).
    repeat split; apply TrimSpace_trimmedOf.
Qed.



End RowProperties.
(** ** The parser *)

(** Splitting a trace at one of its entries. *)
Lemma split_cons {A} (pre : list A) x post a l :
  pre ++ x :: post = a :: l ->
  (pre = [] /\ x = a /\ post = l) \/ (exists pre', pre = a :: pre' /\ pre' ++ x :: post = l).
Proof.
  destruct pre as [|p pre]; cbn; intros Heq; injection Heq as ? ?; subst; eauto.
Qed.

Ltac split_trace H :=
  repeat match type of H with
         | _ ++ _ :: _ = [] => destruct (app_cons_not_nil _ _ _ (eq_sym H))
         | _ ++ _ :: _ = _ :: _ =>
             let Hp := fresh "Hp" in
             let Hx := fresh "Hx" in
             let Hl := fresh "Hl" in
             let pre' := fresh "pre" in
             apply split_cons in H;
             destruct H as [(Hp & Hx & Hl)|(pre' & -> & H)];
             [try discriminate Hx|]
         end.

Lemma len_snoc {A} (l : list A) (x : A) : len (l ++ [x]) = len l + 1.
Proof. unfold len. rewrite length_app. cbn. lia. Qed.

Lemma len_nonneg {A} (l : list A) : 0 <= len l.
Proof. unfold len. lia. Qed.

Lemma len_app {A} (l1 l2 : list A) : len (l1 ++ l2) = len l1 + len l2.
Proof. unfold len. rewrite length_app. lia. Qed.

Lemma Chunks_concat b l bs : Chunks b l bs -> concat bs = l.
Proof.
  induction 1 as [|c Hc|c l bs Hc Hne _ IH]; cbn.
  - reflexivity.
  - apply app_nil_r.
  - rewrite IH. reflexivity.
Qed.

Lemma Chunks_count b l bs :
  1 <= b -> Chunks b l bs -> len bs = (len l + b - 1) / b.
Proof.
  intros Hb. induction 1 as [|c Hc|c l bs Hc Hne _ IH].
  - symmetry. apply Z.div_small. unfold len; cbn. lia.
  - change (len [c]) with 1.
    apply (Z.div_unique_pos _ _ 1 (len c - 1)); lia.
  - change (len (c :: bs)) with (Z.of_nat (S (length bs))).
    rewrite len_app, Hc, Nat2Z.inj_succ. fold (len bs). rewrite IH.
    replace (b + len l + b - 1) with (1 * b + (len l + b - 1)) by lia.
    rewrite Z.div_add_l by lia. lia.
Qed.

Lemma Chunks_full_but_last b l bs :
  1 <= b -> Chunks b l bs ->
  forall (i : nat) c, bs !! i = Some c ->
    (1 <= len c <= b) /\ ((S i < length bs)%nat -> len c = b).
Proof.
  intros Hb. induction 1 as [|c0 Hc|c0 l bs Hc Hne Hch IH]; intros i c Hi.
  - discriminate.
  - destruct i as [|i]; [|discriminate]. injection Hi as <-.
    split; [exact Hc|]. cbn. lia.
  - destruct i as [|i].
    + injection Hi as <-. split; [lia|intros _; exact Hc].
    + destruct (IH i c Hi) as [H1 H2]. split; [exact H1|].
      cbn. intros Hlt. apply H2. lia.
Qed.

Section ParserProperties.
Context `{Strconv}.


Lemma run_bind {A B : Type} (env : Env) (p : Prog A) (k : A -> Prog B) tr :
  run env (p ≫= k) tr =
  match run env p tr with
  | (Some a, ext) => let '(b, ext') := run env (k a) (tr ++ ext) in (b, ext ++ ext')
  | (None, ext) => (None, ext)
  end.
Proof.
  revert tr. induction p as [a| |ts h IH|d h IH|d f n h IH|d h IH|h IH|r h IH];
    intros tr; cbn.
  - rewrite app_nil_r. destruct (run env (k a) tr); reflexivity.
  - reflexivity.
  - rewrite IH. destruct (run env (h _) _) as [[a|] ext]; cbn; [|reflexivity].
    rewrite <- app_assoc. cbn. destruct (run env (k a) _); reflexivity.
  - rewrite IH. destruct (run env (h _) _) as [[a|] ext]; cbn; [|reflexivity].
    rewrite <- app_assoc. cbn. destruct (run env (k a) _); reflexivity.
  - rewrite IH. destruct (run env (h _) _) as [[a|] ext]; cbn; [|reflexivity].
    rewrite <- app_assoc. cbn. destruct (run env (k a) _); reflexivity.
  - rewrite IH. destruct (run env (h _) _) as [[a|] ext]; cbn; [|reflexivity].
    rewrite <- app_assoc. cbn. destruct (run env (k a) _); reflexivity.
  - rewrite IH. destruct (run env (h _) _) as [[a|] ext]; cbn; [|reflexivity].
    rewrite <- app_assoc. cbn. destruct (run env (k a) _); reflexivity.
  - rewrite IH. destruct (run env h _) as [[a|] ext]; cbn; [|reflexivity].
    rewrite <- app_assoc. cbn. destruct (run env (k a) _); reflexivity.
Qed.

(** One iteration of the row loop, as an equation on runs. *)
Lemma run_parseRows env batch r buf lineNumber total tr :
  run env (parseRows batch r buf lineNumber total) tr =
  match env_done env tr with
  | Some e => (Some (0, Some e), [EDone (Some e)])
  | None =>
      let tr0 := tr ++ [EDone None] in
      match r with
      | [] =>
          loggedAll [EDone None; ERead (ReadError io_EOF)]
            (finalFlushRun env buf total (tr0 ++ [ERead (ReadError io_EOF)]))
      | ReadError e :: _ =>
          if isEOF e then
            loggedAll [EDone None; ERead (ReadError e)]
              (finalFlushRun env buf total (tr0 ++ [ERead (ReadError e)]))
          else
            (Some (0, Some (ErrReadLine lineNumber e)),
             [EDone None; ERead (ReadError e)])
      | ReadRecord rec :: r' =>
          let tr1 := tr0 ++ [ERead (ReadRecord rec)] in
          let es := [EDone None; ERead (ReadRecord rec)] in
          if negb (len rec =? 11)
          then (Some (0, Some (ErrColumnCount (lineNumber + 1) 11 (len rec))), es)
          else
            match recordToTrade rec with
            | Panicked => (None, es)
            | Raise e => (Some (0, Some (ErrLine (lineNumber + 1) e)), es)
            | Ok t =>
                if batch <=? len (buf ++ [t]) then
                  match env_insert env tr1 (buf ++ [t]) with
                  | Some e =>
                      (Some (0, Some (ErrFlushBatch (lineNumber + 1) e)),
                       es ++ [EInsert (buf ++ [t]) (Some e)])
                  | None =>
                      loggedAll (es ++ [EInsert (buf ++ [t]) None])
                        (run env (parseRows batch r' [] (lineNumber + 1) (total + 1))
                             (tr1 ++ [EInsert (buf ++ [t]) None]))
                  end
                else
                  loggedAll es
                    (run env (parseRows batch r' (buf ++ [t]) (lineNumber + 1)
                                        (total + 1)) tr1)
            end
      end
  end.
Proof.
  assert (Hz : forall t, (len (buf ++ [t]) =? 0) = false).
  { intros t. rewrite len_snoc. pose proof (len_nonneg buf). lia. }
  destruct r as [|[rec|e] r']; cbn -[len].
  - destruct (env_done env tr); [reflexivity|]. cbn -[len].
    unfold flush, finalFlushRun, loggedAll, logged.
    destruct (len buf =? 0); cbn -[len]; [reflexivity|].
    destruct (env_insert env _ buf); reflexivity.
  - destruct (env_done env tr); [reflexivity|]. cbn -[len].
    change (len expectedHeaders) with 11.
    destruct (negb (len rec =? 11)); [reflexivity|].
    destruct (recordToTrade rec) as [t| |]; try reflexivity.
    destruct (batch <=? len (buf ++ [t])) eqn:Hb; [|reflexivity].
    unfold flush. rewrite Hz. cbn -[len].
    destruct (env_insert env _ (buf ++ [t])); reflexivity.
  - destruct (env_done env tr); [reflexivity|]. cbn -[len].
    destruct (isEOF e); [|reflexivity].
    unfold flush, finalFlushRun, loggedAll, logged.
    destruct (len buf =? 0); cbn -[len]; [reflexivity|].
    destruct (env_insert env _ buf); reflexivity.
Qed.

(** The run of [parseAndPersistFile], down to the row loop. *)
Lemma run_parseAndPersistFile env fs path batch tr :
  run env (parseAndPersistFile fs path batch) tr =
  match os_Open fs path with
  | inl e => (Some (0, Some (ErrOpen e)), [])
  | inr [] => (Some (0, Some (ErrReadHeader io_EOF)), [ERead (ReadError io_EOF)])
  | inr (ReadError e :: _) => (Some (0, Some (ErrReadHeader e)), [ERead (ReadError e)])
  | inr (ReadRecord header :: r) =>
      let es := [ERead (ReadRecord header)] in
      if negb (len header =? 11)
      then (Some (0, Some (ErrHeaderLength 11 (len header))), es)
      else match checkHeader 0 header expectedHeaders with
           | Some e => (Some (0, Some e), es)
           | None =>
               if batch <? 0 then (None, es)
               else loggedAll es (run env (parseRows batch r [] 1 0) (tr ++ es))
           end
  end.
Proof.
  unfold parseAndPersistFile.
  destruct (os_Open fs path) as [e|[|[header|e] r]]; try reflexivity.
  cbn -[len parseRows]. change (len expectedHeaders) with 11.
  destruct (negb (len header =? 11)); [reflexivity|].
  destruct (checkHeader 0 header expectedHeaders); [reflexivity|].
  destruct (batch <? 0); reflexivity.
Qed.

Lemma finalFlushRun_error env buf total tr n e ext :
  finalFlushRun env buf total tr = (Some (n, Some e), ext) -> n = 0.
Proof.
  unfold finalFlushRun. repeat case_match; intros [= <- <- <-]; reflexivity.
Qed.

Lemma parseRows_error_zero env batch r : forall buf lineNumber total tr n e ext,
  run env (parseRows batch r buf lineNumber total) tr = (Some (n, Some e), ext) ->
  n = 0.
Proof.
  induction r as [|x r IH]; intros buf lineNumber total tr n e ext;
    rewrite run_parseRows; cbn zeta.
  - destruct (env_done env tr); [intros [= <- _ _]; reflexivity|].
    destruct (finalFlushRun _ _ _ _) as [res ext0] eqn:Hf. unfold loggedAll; cbn.
    intros [= -> _]. eapply finalFlushRun_error; eassumption.
  - destruct (env_done env tr); [intros [= <- _ _]; reflexivity|].
    destruct x as [rec|e0].
    + destruct (negb (len rec =? 11)); [intros [= <- _ _]; reflexivity|].
      destruct (recordToTrade rec) as [t|e1|];
        [|intros [= <- _ _]; reflexivity|discriminate].
      destruct (batch <=? len (buf ++ [t])).
      * destruct (env_insert env _ (buf ++ [t]));
          [intros [= <- _ _]; reflexivity|].
        destruct (run env _ _) as [res ext0] eqn:Hr. unfold loggedAll; cbn.
        intros [= -> _]. eapply IH; eassumption.
      * destruct (run env _ _) as [res ext0] eqn:Hr. unfold loggedAll; cbn.
        intros [= -> _]. eapply IH; eassumption.
    + destruct (isEOF e0); [|intros [= <- _ _]; reflexivity].
      destruct (finalFlushRun _ _ _ _) as [res ext0] eqn:Hf. unfold loggedAll; cbn.
      intros [= -> _]. eapply finalFlushRun_error; eassumption.
Qed.

(** C10: whenever [parseAndPersistFile] returns an error, the row count it
    returns with it is 0, whatever was inserted before. *)
Theorem parse_error_returns_zero env fs path batch tr n e ext :
  run env (parseAndPersistFile fs path batch) tr = (Some (n, Some e), ext) ->
  n = 0.
Proof.
  rewrite run_parseAndPersistFile.
  destruct (os_Open fs path) as [e0|[|[header|e0] r]]; cbn zeta;
    try (intros [= <- _ _]; reflexivity).
  destruct (negb (len header =? 11));
    [intros [= <- _ _]; reflexivity|].
  destruct (checkHeader 0 header expectedHeaders);
    [intros [= <- _ _]; reflexivity|].
  destruct (batch <? 0); [discriminate|].
  destruct (run env _ _) as [res ext0] eqn:Hr. unfold loggedAll; cbn.
  intros [= -> _]. eapply parseRows_error_zero; eassumption.
Qed.


Lemma finalFlushRun_cases env buf total tr :
  finalFlushRun env buf total tr = (Some (total, None), [])
  \/ (exists e, finalFlushRun env buf total tr
                = (Some (0, Some (ErrFinalFlush e)), [EInsert buf (Some e)]))
  \/ finalFlushRun env buf total tr = (Some (total, None), [EInsert buf None]).
Proof.
  unfold finalFlushRun. destruct (len buf =? 0); [eauto|].
  destruct (env_insert env tr buf); eauto.
Qed.

Lemma parseRows_polled env batch r : forall buf lineNumber total tr res ext,
  run env (parseRows batch r buf lineNumber total) tr = (res, ext) ->
  polledReads ext.
Proof.
  induction r as [|x r IH]; intros buf lineNumber total tr res ext;
    rewrite run_parseRows; unfold loggedAll; cbn zeta.
  - destruct (env_done env tr); [intros [= _ <-]; exact I|].
    destruct (finalFlushRun_cases env buf total
                ((tr ++ [EDone None]) ++ [ERead (ReadError io_EOF)]))
      as [-> | [[e ->] | ->]]; cbn; intros [= _ <-]; exact I.
  - destruct (env_done env tr); [intros [= _ <-]; exact I|].
    destruct x as [rec|e0].
    + destruct (negb (len rec =? 11)); [intros [= _ <-]; exact I|].
      destruct (recordToTrade rec) as [t|e1|]; try (intros [= _ <-]; exact I).
      destruct (batch <=? len (buf ++ [t])).
      * destruct (env_insert env _ (buf ++ [t])); [intros [= _ <-]; exact I|].
        destruct (run env _ _) as [res0 ext0] eqn:Hr. intros [= _ <-].
        cbn. eapply IH; eassumption.
      * destruct (run env _ _) as [res0 ext0] eqn:Hr. intros [= _ <-].
        cbn. eapply IH; eassumption.
    + destruct (isEOF e0); [|intros [= _ <-]; exact I].
      destruct (finalFlushRun_cases env buf total
                  ((tr ++ [EDone None]) ++ [ERead (ReadError e0)]))
        as [-> | [[e ->] | ->]]; cbn; intros [= _ <-]; exact I.
Qed.

Lemma parseRows_cancelled env batch r : forall buf lineNumber total tr res ext,
  run env (parseRows batch r buf lineNumber total) tr = (res, ext) ->
  forall pre e post, ext = pre ++ EDone (Some e) :: post ->
  post = [] /\ res = Some (0, Some e).
Proof.
  induction r as [|x r IH]; intros buf lineNumber total tr res ext;
    rewrite run_parseRows; unfold loggedAll; cbn zeta.
  - destruct (env_done env tr).
    { intros [= <- <-] pre e0 post Heq. symmetry in Heq. split_trace Heq.
      simplify_eq. done. }
    destruct (finalFlushRun_cases env buf total
                ((tr ++ [EDone None]) ++ [ERead (ReadError io_EOF)]))
      as [-> | [[e ->] | ->]]; cbn; intros [= <- <-] pre e0 post Heq;
      symmetry in Heq; cbn in Heq; split_trace Heq.
  - destruct (env_done env tr).
    { intros [= <- <-] pre e0 post Heq. symmetry in Heq. split_trace Heq.
      simplify_eq. done. }
    destruct x as [rec|e0].
    + destruct (negb (len rec =? 11)).
      { intros [= <- <-] pre e0 post Heq. symmetry in Heq. split_trace Heq. }
      destruct (recordToTrade rec) as [t|e1|];
        try solve [intros [= <- <-] pre e0 post Heq; symmetry in Heq; split_trace Heq].
      destruct (batch <=? len (buf ++ [t])).
      * destruct (env_insert env _ (buf ++ [t])).
        { intros [= <- <-] pre e0 post Heq. symmetry in Heq. cbn in Heq.
          split_trace Heq. }
        destruct (run env _ _) as [res0 ext0] eqn:Hr.
        intros [= <- <-] pre e0 post Heq. symmetry in Heq. cbn in Heq.
        split_trace Heq. eapply IH; [eassumption|]. symmetry. exact Heq.
      * destruct (run env _ _) as [res0 ext0] eqn:Hr.
        intros [= <- <-] pre e0 post Heq. symmetry in Heq. cbn in Heq.
        split_trace Heq. eapply IH; [eassumption|]. symmetry. exact Heq.
    + destruct (isEOF e0);
        [|intros [= <- <-] pre e1 post Heq; symmetry in Heq; split_trace Heq].
      destruct (finalFlushRun_cases env buf total
                  ((tr ++ [EDone None]) ++ [ERead (ReadError e0)]))
        as [-> | [[e ->] | ->]]; cbn; intros [= <- <-] pre e1 post Heq;
        symmetry in Heq; cbn in Heq; split_trace Heq.
Qed.


Lemma batches_app tr1 tr2 : batches (tr1 ++ tr2) = batches tr1 ++ batches tr2.
Proof.
  induction tr1 as [|[] tr1 IH]; cbn; rewrite ?IH; reflexivity.
Qed.

Lemma finalFlush_success env b buf total tr n ext :
  len buf < b ->
  finalFlushRun env buf total tr = (Some (n, None), ext) ->
  n = total /\ Chunks b buf (batches ext).
Proof.
  intros Hb. unfold finalFlushRun.
  destruct (len buf =? 0) eqn:Hz.
  - intros [= <- <-]. split; [reflexivity|].
    destruct buf; [constructor|]. unfold len in Hz. cbn in Hz. discriminate.
  - destruct (env_insert env tr buf); intros [= <- <-].
    split; [reflexivity|]. cbn. constructor.
    pose proof (len_nonneg buf). lia.
Qed.

(** The row loop when it succeeds: every row up to the end of the reader
    was converted, and the buffer followed by the trades of these rows went
    to the repository in batches of [batch]. *)
Lemma parseRows_success env batch r :
  1 <= batch ->
  forall buf lineNumber total tr n ext,
    len buf < batch ->
    run env (parseRows batch r buf lineNumber total) tr = (Some (n, None), ext) ->
    exists trades,
      Forall2 (fun rec t => recordToTrade rec = Ok t) (dataRows r) trades
      /\ n = total + len trades
      /\ Chunks batch (buf ++ trades) (batches ext).
Proof.
  intros Hb.
  induction r as [|x r IH]; intros buf lineNumber total tr n ext Hbuf;
    rewrite run_parseRows; unfold loggedAll; cbn zeta.
  - destruct (env_done env tr); [discriminate|].
    destruct (finalFlushRun _ _ _ _) as [res ext0] eqn:Hf. cbn.
    intros [= -> <-]. eapply finalFlush_success in Hf; [|eassumption].
    destruct Hf as [-> Hch]. exists []. cbn. rewrite app_nil_r.
    split; [constructor|]. split; [unfold len; cbn; lia|exact Hch].
  - destruct (env_done env tr); [discriminate|].
    destruct x as [rec|e0].
    + destruct (negb (len rec =? 11)); [discriminate|].
      destruct (recordToTrade rec) as [t|e1|] eqn:Ht; [|discriminate..].
      destruct (batch <=? len (buf ++ [t])) eqn:Hfull.
      * destruct (env_insert env _ (buf ++ [t])); [discriminate|].
        destruct (run env _ _) as [res0 ext0] eqn:Hr. cbn.
        intros [= -> <-].
        eapply IH in Hr; [|unfold len; cbn; lia].
        destruct Hr as (trades & Hrows & -> & Hch).
        exists (t :: trades). cbn.
        split; [constructor; assumption|].
        split; [unfold len; cbn; lia|].
        cbn in Hch.
        replace (buf ++ t :: trades) with ((buf ++ [t]) ++ trades)
          by (rewrite <- app_assoc; reflexivity).
        rewrite len_snoc in Hfull.
        destruct (batches ext0) as [|c bs] eqn:Hbs.
        -- inversion Hch; subst. rewrite app_nil_r. constructor.
           rewrite len_snoc. lia.
        -- constructor; [rewrite len_snoc; lia|discriminate|exact Hch].
      * destruct (run env _ _) as [res0 ext0] eqn:Hr. cbn.
        intros [= -> <-]. rewrite len_snoc in Hfull.
        eapply IH in Hr; [|rewrite len_snoc; lia].
        destruct Hr as (trades & Hrows & -> & Hch).
        exists (t :: trades). cbn.
        split; [constructor; assumption|].
        split; [unfold len; cbn; lia|].
        rewrite <- app_assoc in Hch. exact Hch.
    + destruct (isEOF e0); [|discriminate].
      destruct (finalFlushRun _ _ _ _) as [res ext0] eqn:Hf. cbn.
      intros [= -> <-]. eapply finalFlush_success in Hf; [|eassumption].
      destruct Hf as [-> Hch]. exists []. cbn. rewrite app_nil_r.
      split; [constructor|]. split; [unfold len; cbn; lia|exact Hch].
Qed.

Lemma parseRows_insert_failed env batch r : forall buf lineNumber total tr res ext,
  run env (parseRows batch r buf lineNumber total) tr = (res, ext) ->
  forall pre trades e post, ext = pre ++ EInsert trades (Some e) :: post ->
  post = []
  /\ (res = Some (0, Some (ErrFinalFlush e))
      \/ exists line, res = Some (0, Some (ErrFlushBatch line e))).
Proof.
  induction r as [|x r IH]; intros buf lineNumber total tr res ext;
    rewrite run_parseRows; unfold loggedAll; cbn zeta.
  - destruct (env_done env tr).
    { intros [= <- <-] pre ts e0 post Heq. symmetry in Heq. split_trace Heq. }
    destruct (finalFlushRun_cases env buf total
                ((tr ++ [EDone None]) ++ [ERead (ReadError io_EOF)]))
      as [-> | [[e ->] | ->]]; cbn; intros [= <- <-] pre ts e0 post Heq;
      symmetry in Heq; cbn in Heq; split_trace Heq.
    simplify_eq. eauto.
  - destruct (env_done env tr).
    { intros [= <- <-] pre ts e0 post Heq. symmetry in Heq. split_trace Heq. }
    destruct x as [rec|e0].
    + destruct (negb (len rec =? 11)).
      { intros [= <- <-] pre ts e0 post Heq. symmetry in Heq. split_trace Heq. }
      destruct (recordToTrade rec) as [t|e1|];
        try solve [intros [= <- <-] pre ts e0 post Heq; symmetry in Heq;
                   split_trace Heq].
      destruct (batch <=? len (buf ++ [t])).
      * destruct (env_insert env _ (buf ++ [t])).
        { intros [= <- <-] pre ts e0 post Heq. symmetry in Heq. cbn in Heq.
          split_trace Heq. simplify_eq. eauto. }
        destruct (run env _ _) as [res0 ext0] eqn:Hr. cbn.
        intros [= <- <-] pre ts e0 post Heq. symmetry in Heq.
        split_trace Heq. eapply IH; [eassumption|]. symmetry. exact Heq.
      * destruct (run env _ _) as [res0 ext0] eqn:Hr. cbn.
        intros [= <- <-] pre ts e0 post Heq. symmetry in Heq.
        split_trace Heq. eapply IH; [eassumption|]. symmetry. exact Heq.
    + destruct (isEOF e0);
        [|intros [= <- <-] pre ts e1 post Heq; symmetry in Heq; split_trace Heq].
      destruct (finalFlushRun_cases env buf total
                  ((tr ++ [EDone None]) ++ [ERead (ReadError e0)]))
        as [-> | [[e ->] | ->]]; cbn; intros [= <- <-] pre ts e1 post Heq;
        symmetry in Heq; cbn in Heq; split_trace Heq.
      simplify_eq. eauto.
Qed.

Lemma parseRows_column_count env batch r : forall buf lineNumber total tr res ext,
  run env (parseRows batch r buf lineNumber total) tr = (res, ext) ->
  forall pre rec post, ext = pre ++ ERead (ReadRecord rec) :: post ->
  len rec <> 11 ->
  post = []
  /\ res = Some (0, Some (ErrColumnCount (lineNumber + 1 + countReads pre) 11
                                         (len rec))).
Proof.
  induction r as [|x r IH]; intros buf lineNumber total tr res ext;
    rewrite run_parseRows; unfold loggedAll; cbn zeta.
  - destruct (env_done env tr).
    { intros [= <- <-] pre rec post Heq. symmetry in Heq. split_trace Heq. }
    destruct (finalFlushRun_cases env buf total
                ((tr ++ [EDone None]) ++ [ERead (ReadError io_EOF)]))
      as [-> | [[e ->] | ->]]; cbn; intros [= <- <-] pre rec post Heq;
      symmetry in Heq; cbn in Heq; split_trace Heq.
  - destruct (env_done env tr).
    { intros [= <- <-] pre rec post Heq. symmetry in Heq. split_trace Heq. }
    destruct x as [rec0|e0].
    + destruct (negb (len rec0 =? 11)) eqn:Hlen.
      { intros [= <- <-] pre rec post Heq Hne. symmetry in Heq. split_trace Heq.
        simplify_eq. cbn. rewrite Z.add_0_r. done. }
      assert (Hthis : forall pre rec post (es : list Entry),
                 pre ++ ERead (ReadRecord rec) :: post
                 = EDone None :: ERead (ReadRecord rec0) :: es ->
                 len rec <> 11 ->
                 exists pre', pre = EDone None :: ERead (ReadRecord rec0) :: pre'
                              /\ pre' ++ ERead (ReadRecord rec) :: post = es).
      { intros pre rec post es Heq Hne.
        apply split_cons in Heq. destruct Heq as [(_ & [=] & _)|(pre1 & -> & Heq)].
        apply split_cons in Heq. destruct Heq as [(_ & Hx & _)|(pre2 & -> & Heq)].
        - injection Hx as ->. apply negb_false_iff, Z.eqb_eq in Hlen. done.
        - eauto. }
      destruct (recordToTrade rec0) as [t|e1|];
        try solve [intros [= <- <-] pre rec post Heq Hne; symmetry in Heq;
                   destruct (Hthis _ _ _ _ Heq Hne) as (pre' & -> & Heq');
                   split_trace Heq'].
      destruct (batch <=? len (buf ++ [t])).
      * destruct (env_insert env _ (buf ++ [t])).
        { intros [= <- <-] pre rec post Heq Hne. symmetry in Heq.
          destruct (Hthis _ _ _ _ Heq Hne) as (pre' & -> & Heq').
          split_trace Heq'. }
        destruct (run env _ _) as [res0 ext0] eqn:Hr. cbn.
        intros [= <- <-] pre rec post Heq Hne. symmetry in Heq.
        destruct (Hthis _ _ _ _ Heq Hne) as (pre' & -> & Heq').
        split_trace Heq'.
        destruct (IH _ _ _ _ _ _ Hr _ _ _ (eq_sym Heq') Hne) as [-> ->].
        split; [reflexivity|]. cbn. do 4 f_equal. lia.
      * destruct (run env _ _) as [res0 ext0] eqn:Hr. cbn.
        intros [= <- <-] pre rec post Heq Hne. symmetry in Heq.
        destruct (Hthis _ _ _ _ Heq Hne) as (pre' & -> & Heq').
        destruct (IH _ _ _ _ _ _ Hr _ _ _ (eq_sym Heq') Hne) as [-> ->].
        split; [reflexivity|]. cbn. do 4 f_equal. lia.
    + destruct (isEOF e0);
        [|intros [= <- <-] pre rec post Heq; symmetry in Heq; split_trace Heq].
      destruct (finalFlushRun_cases env buf total
                  ((tr ++ [EDone None]) ++ [ERead (ReadError e0)]))
        as [-> | [[e ->] | ->]]; cbn; intros [= <- <-] pre rec post Heq;
        symmetry in Heq; cbn in Heq; split_trace Heq.
Qed.


Lemma checkHeader_mismatch header : forall expected k (i : nat) h name,
  header !! i = Some h -> expected !! i = Some name -> TrimSpace h <> name ->
  exists col want got, checkHeader k header expected = Some (ErrHeaderCol col want got).
Proof.
  induction header as [|h0 header IH]; intros expected k i h name Hh He Hne;
    [discriminate|].
  destruct expected as [|e0 expected]; [discriminate|]. cbn.
  destruct (bool_decide (TrimSpace h0 = e0)) eqn:Hd; cbn; [|eauto].
  destruct i as [|i]; cbn in Hh, He.
  - apply bool_decide_eq_true in Hd. congruence.
  - eapply IH; eassumption.
Qed.

(** C5, as amended: a header that has not eleven cells, or one of whose
    cells differs, once trimmed of surrounding white space, from the
    expected name at its position, fails the file after the read of the
    header alone: no poll, no read of a row, no insert.  And when a row
    that has not eleven cells is read, it is the last call of the run, which
    fails with the error of that line, the line number being the rank of
    the record in the file. *)
Theorem parse_rejects_bad_shape env fs path batch tr header r :
  os_Open fs path = inr (ReadRecord header :: r) ->
  ((len header <> 11
    \/ exists (i : nat) h name,
         header !! i = Some h /\ expectedHeaders !! i = Some name
         /\ TrimSpace h <> name) ->
   exists e,
     run env (parseAndPersistFile fs path batch) tr
     = (Some (0, Some e), [ERead (ReadRecord header)])
     /\ (e = ErrHeaderLength 11 (len header)
         \/ exists col want got, e = ErrHeaderCol col want got))
  /\ (forall res ext pre rec post,
        run env (parseAndPersistFile fs path batch) tr = (res, ext) ->
        ext = pre ++ ERead (ReadRecord rec) :: post ->
        pre <> [] -> len rec <> 11 ->
        post = []
        /\ res = Some (0, Some (ErrColumnCount (1 + countReads pre) 11 (len rec)))).
Proof.
  intros Hopen. rewrite run_parseAndPersistFile, Hopen. cbn zeta. split.
  - intros Hbad.
    destruct (negb (len header =? 11)) eqn:Hlen; [eauto|].
    apply negb_false_iff, Z.eqb_eq in Hlen.
    destruct Hbad as [Hbad|(i & h & name & Hh & He & Hne)]; [done|].
    destruct (checkHeader_mismatch header expectedHeaders 0 i h name Hh He Hne)
      as (col & want & got & ->).
    eauto 10.
  - intros res ext pre rec post.
    destruct (negb (len header =? 11)).
    { intros [= <- <-] Heq. symmetry in Heq. split_trace Heq. done. }
    destruct (checkHeader 0 header expectedHeaders).
    { intros [= <- <-] Heq. symmetry in Heq. split_trace Heq. done. }
    destruct (batch <? 0).
    { intros [= <- <-] Heq. symmetry in Heq. split_trace Heq. done. }
    destruct (run env _ _) as [res0 ext0] eqn:Hr. unfold loggedAll. cbn.
    intros [= <- <-] Heq Hpre Hlen. symmetry in Heq.
    apply split_cons in Heq. destruct Heq as [(-> & _)|(pre' & -> & Heq)]; [done|].
    destruct (parseRows_column_count _ _ _ _ _ _ _ _ _ Hr _ _ _ (eq_sym Heq) Hlen)
      as [-> ->].
    split; [reflexivity|]. cbn. do 4 f_equal. lia.
Qed.

(** A successful parse with a batch size of at least 1. *)
Lemma parseAndPersistFile_success env fs path batch tr n ext :
  1 <= batch ->
  run env (parseAndPersistFile fs path batch) tr = (Some (n, None), ext) ->
  exists header r trades,
    os_Open fs path = inr (ReadRecord header :: r)
    /\ Forall2 (fun rec t => recordToTrade rec = Ok t) (dataRows r) trades
    /\ n = len trades
    /\ Chunks batch trades (batches ext).
Proof.
  intros Hb. rewrite run_parseAndPersistFile.
  destruct (os_Open fs path) as [e0|[|[header|e0] r]]; cbn zeta;
    try discriminate.
  destruct (negb (len header =? 11)); [discriminate|].
  destruct (checkHeader 0 header expectedHeaders); [discriminate|].
  destruct (batch <? 0); [discriminate|].
  destruct (run env _ _) as [res0 ext0] eqn:Hr. unfold loggedAll. cbn.
  intros [= -> <-].
  apply (parseRows_success env batch r Hb) in Hr; [|unfold len; cbn; lia].
  destruct Hr as (trades & Hrows & -> & Hch). cbn in Hch.
  exists header, r, trades. cbn.
  split; [reflexivity|]. split; [exact Hrows|]. split; [lia|exact Hch].
Qed.

(** C7: in a successful parse with a batch size of at least 1 the rows of
    the file, converted, go to [InsertTradesBatch] in order, in
    ceiling(n / batch) calls that but for the last pass [batch] trades, and
    the count returned is their number; and a call that fails is the last
    call of the run, which returns its error. *)
Theorem parse_batches env fs path batch tr :
  (1 <= batch ->
   forall n ext,
     run env (parseAndPersistFile fs path batch) tr = (Some (n, None), ext) ->
     exists header r trades,
       os_Open fs path = inr (ReadRecord header :: r)
       /\ Forall2 (fun rec t => recordToTrade rec = Ok t) (dataRows r) trades
       /\ n = len trades
       /\ concat (batches ext) = trades
       /\ len (batches ext) = (n + batch - 1) / batch
       /\ forall (i : nat) c, batches ext !! i = Some c ->
            1 <= len c <= batch
            /\ ((S i < length (batches ext))%nat -> len c = batch))
  /\ (forall res ext pre trades e post,
        run env (parseAndPersistFile fs path batch) tr = (res, ext) ->
        ext = pre ++ EInsert trades (Some e) :: post ->
        post = []
        /\ (res = Some (0, Some (ErrFinalFlush e))
            \/ exists line, res = Some (0, Some (ErrFlushBatch line e)))).
Proof.
  split.
  - intros Hb n ext Hrun.
    destruct (parseAndPersistFile_success _ _ _ _ _ _ _ Hb Hrun)
      as (header & r & trades & Hopen & Hrows & -> & Hch).
    exists header, r, trades.
    split; [exact Hopen|]. split; [exact Hrows|]. split; [reflexivity|].
    split; [eapply Chunks_concat; eassumption|].
    split; [apply Chunks_count; assumption|].
    eapply Chunks_full_but_last; eassumption.
  - intros res ext pre trades e post. rewrite run_parseAndPersistFile.
    destruct (os_Open fs path) as [e0|[|[header|e0] r]]; cbn zeta;
      try solve [intros [= <- <-] Heq; symmetry in Heq; split_trace Heq].
    destruct (negb (len header =? 11)).
    { intros [= <- <-] Heq. symmetry in Heq. split_trace Heq. }
    destruct (checkHeader 0 header expectedHeaders).
    { intros [= <- <-] Heq. symmetry in Heq. split_trace Heq. }
    destruct (batch <? 0).
    { intros [= <- <-] Heq. symmetry in Heq. split_trace Heq. }
    destruct (run env _ _) as [res0 ext0] eqn:Hr. unfold loggedAll. cbn.
    intros [= <- <-] Heq. symmetry in Heq. split_trace Heq.
    eapply parseRows_insert_failed; [eassumption|]. symmetry. exact Heq.
Qed.

(** C8: the row loop polls the context once before each read, and a poll
    that finds the context done is the last call of the run, which returns
    the error of the context: nothing is inserted after it, the rows
    buffered stay where they are. *)
Theorem parse_polls_before_each_read env fs path batch tr res ext :
  run env (parseAndPersistFile fs path batch) tr = (res, ext) ->
  (ext = [] \/ exists header calls, ext = ERead header :: calls /\ polledReads calls)
  /\ (forall pre e post, ext = pre ++ EDone (Some e) :: post ->
        post = [] /\ res = Some (0, Some e)).
Proof.
  rewrite run_parseAndPersistFile.
  destruct (os_Open fs path) as [e0|[|[header|e0] r]]; cbn zeta;
    try solve [intros [= <- <-]; split;
               [first [left; reflexivity | right; eexists _, []; done]
               |intros pre e' post Heq; symmetry in Heq; split_trace Heq]].
  destruct (negb (len header =? 11));
    [intros [= <- <-]; split;
     [right; eexists _, []; done
     |intros pre e' post Heq; symmetry in Heq; split_trace Heq]|].
  destruct (checkHeader 0 header expectedHeaders);
    [intros [= <- <-]; split;
     [right; eexists _, []; done
     |intros pre e' post Heq; symmetry in Heq; split_trace Heq]|].
  destruct (batch <? 0);
    [intros [= <- <-]; split;
     [right; eexists _, []; done
     |intros pre e' post Heq; symmetry in Heq; split_trace Heq]|].
  destruct (run env _ _) as [res0 ext0] eqn:Hr. unfold loggedAll. cbn.
  intros [= <- <-]. split.
  - right. eexists _, _. split; [reflexivity|].
    eapply parseRows_polled; eassumption.
  - intros pre e post Heq. symmetry in Heq. split_trace Heq.
    eapply parseRows_cancelled; [eassumption|]. symmetry. exact Heq.
Qed.


End ParserProperties.
(** ** The orchestrator *)

Section WorkerProperties.
Context `{Strconv}.

(** The run of a worker, call by call. *)
Lemma run_worker env fs force f tr :
  run env (worker fs force f) tr =
  match fileDay f with
  | None => (Some (Some (ErrFileDate f)), [])
  | Some d =>
      let h := env_has env tr d in
      let tr1 := tr ++ [EHas d h] in
      match h with
      | (_, Some e) => (Some (Some (ErrFileCheckLog f e)), [EHas d h])
      | (exists_, None) =>
          if exists_ && negb force then (Some None, [EHas d h])
          else if exists_ && force then
            let dr := env_delete env tr1 d in
            match dr with
            | Some e => (Some (Some (ErrFileDelete f e)), [EHas d h; EDelete d dr])
            | None =>
                loggedAll [EHas d h; EDelete d dr]
                          (processRun env fs f d (tr1 ++ [EDelete d dr]))
            end
          else loggedAll [EHas d h] (processRun env fs f d tr1)
      end
  end.
Proof.
  assert (Hprocess : forall tr',
    run env ('(total, err) ← parseAndPersistFile fs f defaultBatchSize;
             match err with
             | Some e => Ret (Some (ErrFile f e))
             | None =>
                 err ← UpsertIngestionLog (default zeroTime (fileDay f))
                                          (filepath_Base f) total;
                 match err with
                 | Some e => Ret (Some (ErrFileUpsert f e))
                 | None => Ret None
                 end
             end) tr'
    = processRun env fs f (default zeroTime (fileDay f)) tr').
  { intros tr'. rewrite run_bind. unfold processRun.
    destruct (run env (parseAndPersistFile fs f defaultBatchSize) tr')
      as [[[total [e|]]|] pext]; cbn; rewrite ?app_nil_r; try reflexivity.
    destruct (env_upsert env _ _ _ _); reflexivity. }
  unfold worker. fold (fileDay f) in *.
  destruct (fileDay f) as [d|] eqn:Hd; [|reflexivity].
  cbn [default] in Hprocess. cbn -[parseAndPersistFile].
  destruct (env_has env tr d) as [exists_ [e|]]; [reflexivity|].
  destruct exists_, force; cbn -[parseAndPersistFile].
  - destruct (env_delete env _ d); [reflexivity|].
    unfold logged, loggedAll. cbn -[parseAndPersistFile].
    rewrite <- Hprocess. reflexivity.
  - reflexivity.
  - unfold logged, loggedAll. cbn -[parseAndPersistFile].
    rewrite <- Hprocess. reflexivity.
  - unfold logged, loggedAll. cbn -[parseAndPersistFile].
    rewrite <- Hprocess. reflexivity.
Qed.

(** C2, for one worker: when the ledger answers that the business day of
    the file is ingested and [force] is false, the worker returns no error
    and its only call is that query: it does not open the file and calls
    neither [InsertTradesBatch], nor [DeleteTradesByDate], nor
    [UpsertIngestionLog]. *)
Lemma worker_skips_ingested_day env fs f tr d :
  fileDay f = Some d ->
  env_has env tr d = (true, None) ->
  run env (worker fs false f) tr = (Some None, [EHas d (true, None)]).
Proof.
  intros Hd Hhas. rewrite run_worker, Hd. cbn zeta. rewrite Hhas. reflexivity.
Qed.

(** C3: with [force], a worker whose day the ledger reports as ingested
    calls [DeleteTradesByDate] for that day right after the query, hence
    before any insert; when the deletion fails the worker returns its error
    and makes no other call; when it succeeds and the parse returns [n]
    rows without error, [n] is the number of trades inserted and the next
    call is [UpsertIngestionLog] for that day with [n]. *)
Theorem worker_force_reprocess env fs f tr d res ext :
  fileDay f = Some d ->
  env_has env tr d = (true, None) ->
  run env (worker fs true f) tr = (res, ext) ->
  let tr1 := tr ++ [EHas d (true, None)] in
  let dr := env_delete env tr1 d in
  let tr2 := tr1 ++ [EDelete d dr] in
  exists rest,
    ext = EHas d (true, None) :: EDelete d dr :: rest
    /\ (forall e, dr = Some e ->
          res = Some (Some (ErrFileDelete f e)) /\ rest = [])
    /\ (dr = None ->
        forall n pext,
          run env (parseAndPersistFile fs f defaultBatchSize) tr2
          = (Some (n, None), pext) ->
          n = len (concat (batches pext))
          /\ exists u,
               rest = pext ++ [EUpsert d (filepath_Base f) n u]
               /\ u = env_upsert env (tr2 ++ pext) d (filepath_Base f) n
               /\ res = Some (match u with
                              | Some e => Some (ErrFileUpsert f e)
                              | None => None
                              end)).
Proof.
  intros Hd Hhas. rewrite run_worker, Hd. cbn zeta. rewrite Hhas. cbn [andb negb].
  destruct (env_delete env (tr ++ [EHas d (true, None)]) d) as [e|] eqn:Hdel.
  - intros [= <- <-]. exists []. split; [reflexivity|].
    split; [intros e0 [= <-]; done|discriminate].
  - unfold loggedAll. cbn [fst snd app]. intros [= <- <-].
    eexists. split; [reflexivity|]. split; [discriminate|].
    intros _ n pext Hparse. unfold processRun. rewrite Hparse.
    assert (Hb : 1 <= defaultBatchSize) by (unfold defaultBatchSize; lia).
    destruct (parseAndPersistFile_success _ _ _ _ _ _ _ Hb Hparse)
      as (header & r & trades & _ & _ & -> & Hch).
    split; [rewrite (Chunks_concat _ _ _ Hch); reflexivity|].
    eexists. split; [reflexivity|]. split; reflexivity.
Qed.

End WorkerProperties.

Lemma statFiles_spec fs dir dates : forall files missing,
  match statFiles fs dir dates files missing with
  | inl e =>
      exists d e0, d ∈ dates
        /\ os_Stat fs (filepath_Join dir (fileName d)) = StatError e0
        /\ e = ErrStatFailed (filepath_Join dir (fileName d)) e0
  | inr (files', missing') =>
      files' = files ++ map (fun d => filepath_Join dir (fileName d)) dates
      /\ missing' = missing
           ++ filter (fun name => isNotExist (os_Stat fs (filepath_Join dir name)))
                     (map fileName dates)
      /\ forall d e0, d ∈ dates ->
           os_Stat fs (filepath_Join dir (fileName d)) <> StatError e0
  end.
Proof.
  induction dates as [|d dates IH]; intros files missing; cbn [statFiles].
  - cbn. rewrite !app_nil_r. split; [reflexivity|]. split; [reflexivity|].
    intros d e0 Hd. inversion Hd.
  - destruct (os_Stat fs (filepath_Join dir (fileName d))) as [| |e] eqn:Hs.
    + specialize (IH (files ++ [filepath_Join dir (fileName d)]) missing).
      destruct (statFiles fs dir dates _ missing) as [e|[files' missing']].
      * destruct IH as (d' & e0 & Hd' & He). exists d', e0.
        split; [by right|exact He].
      * destruct IH as (-> & -> & Hno). rewrite <- app_assoc. cbn [map app].
        rewrite filter_cons, Hs. cbn [isNotExist].
        rewrite decide_False by exact id.
        split; [reflexivity|]. split; [reflexivity|].
        intros d' e0 Hd'. apply elem_of_cons in Hd' as [->|Hd'];
          [rewrite Hs; discriminate|by apply Hno].
    + specialize (IH (files ++ [filepath_Join dir (fileName d)])
                     (missing ++ [fileName d])).
      destruct (statFiles fs dir dates _ _) as [e|[files' missing']].
      * destruct IH as (d' & e0 & Hd' & He). exists d', e0.
        split; [by right|exact He].
      * destruct IH as (-> & -> & Hno). rewrite <- !app_assoc. cbn [map app].
        rewrite filter_cons, Hs. cbn [isNotExist].
        rewrite decide_True by exact I.
        split; [reflexivity|]. split; [reflexivity|].
        intros d' e0 Hd'. apply elem_of_cons in Hd' as [->|Hd'];
          [rewrite Hs; discriminate|by apply Hno].
    + exists d, e. split; [by left|]. split; [exact Hs|reflexivity].
Qed.

Section GroupProperties.
Context {R : Type} `{TradesRepository R} `{Strconv}.

Lemma skipping_stepWorker repo maxParallel i g :
  skipping repo g -> skipping repo (stepWorker maxParallel i g).
Proof.
  intros (Hrepo & Herr & Hpanic & Hlog & Hws). unfold stepWorker.
  rewrite Hpanic.
  destruct (g_workers g !! i) as [w|] eqn:Hi; [|done].
  pose proof (Forall_lookup_1 _ _ _ _ Hws Hi) as Hw.
  destruct w as [p|p|r]; [| |done].
  - case_match; [|done]. unfold skipping, setWorker; cbn.
    repeat split; try assumption. apply Forall_insert; assumption.
  - destruct Hw as [->|(d & k & -> & Hhas & Hk)].
    + unfold skipping, finishWorker; cbn. rewrite Herr.
      repeat split; try assumption. apply Forall_insert; [assumption|done].
    + cbn. rewrite Hrepo, Hhas. unfold skipping; cbn.
      repeat split; try assumption.
      * apply Forall_app. split; [assumption|]. constructor; [done|constructor].
      * apply Forall_insert; [assumption|]. left. exact Hk.
Qed.

Lemma skipping_act repo maxParallel a g :
  skipping repo g -> skipping repo (act maxParallel a g).
Proof.
  destruct a as [i|e]; [apply skipping_stepWorker|].
  intros (Hrepo & Herr & Hpanic & Hlog & Hws). done.
Qed.

Lemma skipping_completeWorker repo g i :
  skipping repo g -> skipping repo (completeWorker g i).
Proof.
  intros (Hrepo & Herr & Hpanic & Hlog & Hws). unfold completeWorker.
  rewrite Hpanic.
  destruct (g_workers g !! i) as [w|] eqn:Hi; [|done].
  pose proof (Forall_lookup_1 _ _ _ _ Hws Hi) as Hw.
  assert (Hrun : forall p, skipsProg repo p ->
            exists log, runProg i p (g_repo g) (g_ctx g) (g_log g)
                        = (Some None, repo, log) /\ Forall isQuery log).
  { intros p [->|(d & k & -> & Hhas & Hk)]; cbn.
    - exists (g_log g). rewrite Hrepo. done.
    - rewrite Hrepo, Hhas, Hk. cbn. eexists. split; [reflexivity|].
      apply Forall_app. split; [assumption|]. constructor; [done|constructor]. }
  destruct w as [p|p|r]; [| |done];
    destruct (Hrun p Hw) as (log & -> & Hlog');
    unfold skipping, finishWorker; cbn; rewrite Herr;
    (repeat split; try assumption; apply Forall_insert; [assumption|done]).
Qed.

Lemma skipping_runGroup repo maxParallel sched g :
  skipping repo g -> skipping repo (runGroup maxParallel sched g).
Proof.
  intros Hg. unfold runGroup.
  assert (Hsched : skipping repo (fold_left (fun g a => act maxParallel a g) sched g)).
  { revert g Hg. induction sched as [|a sched IH]; intros g Hg; cbn; [exact Hg|].
    apply IH, skipping_act, Hg. }
  set (g1 := fold_left _ sched g) in *. clearbody g1.
  generalize (seq 0 (length (g_workers g1))). intros l.
  revert g1 Hsched. induction l as [|i l IH]; intros g1 Hg1; cbn; [exact Hg1|].
  apply IH, skipping_completeWorker, Hg1.
Qed.




(** C2: when the ledger answers that the business day of a file is
    ingested and [force] is false, the worker returns no error and its only
    call is that query: it reads no record of the file and calls neither
    [InsertTradesBatch], nor [DeleteTradesByDate], nor [UpsertIngestionLog].
    Hence [ProcessDirectory], run without [force] on a directory that holds
    every expected file, all of whose days the store reports as ingested,
    returns no error under every schedule, leaves the store as it was, and
    logs nothing but these queries: no batch is inserted. *)
Theorem skip_already_ingested :
  (forall env fs f tr d,
     fileDay f = Some d ->
     env_has env tr d = (true, None) ->
     run env (worker fs false f) tr = (Some None, [EHas d (true, None)]))
  /\ (forall fs now numCPU sched ctx dir (repo : R) nDays parallel dates,
        LastNBusinessDays (clampDays nDays) now = Some dates ->
        (forall d, d ∈ dates ->
           os_Stat fs (filepath_Join dir (fileName d)) = StatOk) ->
        (forall d, d ∈ dates ->
           exists day, fileDay (filepath_Join dir (fileName d)) = Some day
             /\ repo_HasIngestionForDate day repo = ((true, None), repo)) ->
        exists log,
          ProcessDirectory fs now numCPU sched ctx dir repo nDays parallel false
          = (Ok tt, repo, log)
          /\ Forall isQuery log).
Proof.
  split; [intros; by apply worker_skips_ingested_day|].
  intros fs now numCPU sched ctx dir repo nDays parallel dates Hdates Hstat Hhas.
  unfold ProcessDirectory. cbn zeta. rewrite Hdates.
  pose proof (statFiles_spec fs dir dates [] []) as Hsf.
  destruct (statFiles fs dir dates [] []) as [e|[files missing]].
  { destruct Hsf as (d & e0 & Hd & He & _). rewrite (Hstat d Hd) in He. done. }
  destruct Hsf as (-> & -> & _).
  assert (Hnone : filter (fun name => isNotExist (os_Stat fs (filepath_Join dir name)))
                         (map fileName dates) = []).
  { clear Hhas Hdates. induction dates as [|d dates IH]; [reflexivity|]. cbn [map].
    rewrite filter_cons, (Hstat d) by (by left). cbn [isNotExist].
    rewrite decide_False by exact id. apply IH. intros d' Hd'. apply Hstat. by right. }
  rewrite Hnone. cbn [app len length Z.of_nat Z.ltb Z.compare].
  set (g0 := mkGroup repo ctx None false [] _).
  assert (Hg0 : skipping repo g0).
  { unfold skipping, g0; cbn. repeat split; [constructor|].
    apply Forall_fmap, Forall_fmap, Forall_forall. intros d Hd.
    destruct (Hhas d Hd) as (day & Hday & Hq). cbn. right.
    unfold worker. fold (fileDay (filepath_Join dir (fileName d))). rewrite Hday.
    cbn. eexists day, _. split; [reflexivity|]. split; [exact Hq|reflexivity]. }
  apply (skipping_runGroup repo (maxParallelOf parallel numCPU) sched) in Hg0.
  destruct Hg0 as (Hrepo & Herr & Hpanic & Hlog & _).
  exists (g_log (runGroup (maxParallelOf parallel numCPU) sched g0)).
  unfold groupResult. rewrite Hrepo, Herr, Hpanic. split; [reflexivity|exact Hlog].
Qed.


End GroupProperties.
(** ** The calendar *)

Lemma forallFrom_spec f count : forall start r,
  forallFrom f count start = true ->
  start <= r < start + Z.of_nat count -> f r = true.
Proof.
  induction count as [|count IH]; intros start r Hall Hr; [lia|].
  cbn [forallFrom] in Hall. apply andb_true_iff in Hall as [Hhere Hrest].
  destruct (decide (r = start)) as [->|Hne]; [exact Hhere|].
  apply (IH (start + 1)); [exact Hrest|lia].
Qed.

Lemma isLeap_shift y q : isLeap (y + 400 * q) = isLeap y.
Proof.
  unfold isLeap.
  replace ((y + 400 * q) mod 4) with (y mod 4)
    by (replace (y + 400 * q) with (y + (100 * q) * 4) by lia;
        rewrite Z.mod_add by lia; reflexivity).
  replace ((y + 400 * q) mod 100) with (y mod 100)
    by (replace (y + 400 * q) with (y + (4 * q) * 100) by lia;
        rewrite Z.mod_add by lia; reflexivity).
  replace ((y + 400 * q) mod 400) with (y mod 400)
    by (replace (y + 400 * q) with (y + q * 400) by lia;
        rewrite Z.mod_add by lia; reflexivity).
  reflexivity.
Qed.

Lemma daysSinceEpoch_shift y q :
  daysSinceEpoch (y + 400 * q) = daysSinceEpoch y + 146097 * q.
Proof.
  unfold daysSinceEpoch. cbn zeta.
  replace (y + 400 * q - 1) with (y - 1 + (100 * q) * 4) at 2 by lia.
  rewrite Z.div_add by lia.
  replace (y + 400 * q - 1) with (y - 1 + (4 * q) * 100) at 2 by lia.
  rewrite Z.div_add by lia.
  replace (y + 400 * q - 1) with (y - 1 + q * 400) at 2 by lia.
  rewrite Z.div_add by lia.
  lia.
Qed.

Lemma daysOfCivil_shift y m d q :
  daysOfCivil (y + 400 * q) m d = daysOfCivil y m d + 146097 * q.
Proof.
  unfold daysOfCivil. cbn zeta.
  replace (y + 400 * q + (m - 1) / 12) with (y + (m - 1) / 12 + 400 * q) by lia.
  rewrite daysSinceEpoch_shift, isLeap_shift. lia.
Qed.

Lemma daysOfCivil_add_days y m d k :
  daysOfCivil y m (d + k) = daysOfCivil y m d + k.
Proof. unfold daysOfCivil. lia. Qed.

Lemma civilOfDays_shift n q :
  civilOfDays (n + 146097 * q) =
  let '(y, m, d) := civilOfDays n in (y + 400 * q, m, d).
Proof.
  unfold civilOfDays. cbn zeta.
  replace (n + 146097 * q) with (n + q * 146097) by lia.
  rewrite Z.div_add, Z.mod_add by lia.
  set (r := n mod 146097).
  set (n100 := Z.min (r / 36524) 3).
  set (n4 := (r - 36524 * n100) / 1461).
  set (n1 := Z.min ((r - 36524 * n100 - 1461 * n4) / 365) 3).
  replace (400 * (n / 146097 + q) + 100 * n100 + 4 * n4 + n1 + 1)
    with (400 * (n / 146097) + 100 * n100 + 4 * n4 + n1 + 1 + 400 * q) by lia.
  rewrite isLeap_shift.
  destruct (monthDayOfYday _ _). reflexivity.
Qed.

Lemma cycleLength_Z : Z.of_nat cycleLength = 146097.
Proof. unfold cycleLength. apply Z2Nat.id. lia. Qed.

Lemma cycle_roundtrip : forallFrom roundTripAt cycleLength 0 = true.
Proof. vm_cast_no_check (eq_refl true). Qed. (* brute *)

(** A day count names a day that exists, and [time.Date] gives the count
    back. *)
Lemma roundTripAt_cycle r : 0 <= r < 146097 -> roundTripAt r = true.
Proof.
  intros Hr. apply (forallFrom_spec _ _ 0 r cycle_roundtrip).
  rewrite cycleLength_Z. lia.
Qed.

Lemma roundTripAt_true r y m d :
  civilOfDays r = (y, m, d) -> roundTripAt r = true ->
  daysOfCivil y m d = r /\ 1 <= m <= 12 /\ 1 <= d <= daysIn m y.
Proof.
  unfold roundTripAt. intros -> Hrt.
  repeat (apply andb_true_iff in Hrt as [Hrt ?]).
  apply Z.eqb_eq in Hrt.
  repeat match goal with
         | Hb : (_ <=? _) = true |- _ => apply Z.leb_le in Hb
         end.
  lia.
Qed.

Lemma civilOfDays_cycle r y m d :
  0 <= r < 146097 -> civilOfDays r = (y, m, d) ->
  daysOfCivil y m d = r /\ 1 <= m <= 12 /\ 1 <= d <= daysIn m y.
Proof.
  intros Hr Hc. apply roundTripAt_true; [exact Hc|].
  apply roundTripAt_cycle, Hr.
Qed.

Lemma civilOfDays_valid n y m d :
  civilOfDays n = (y, m, d) ->
  daysOfCivil y m d = n /\ 1 <= m <= 12 /\ 1 <= d <= daysIn m y.
Proof.
  intros Hc.
  pose proof (Z.div_mod n 146097 ltac:(lia)) as Hn.
  pose proof (Z.mod_pos_bound n 146097 ltac:(lia)) as Hr.
  pose proof (civilOfDays_shift (n mod 146097) (n / 146097)) as Hs.
  replace (n mod 146097 + 146097 * (n / 146097)) with n in Hs by lia.
  destruct (civilOfDays (n mod 146097)) as [[y0 m0] d0] eqn:Hc0.
  rewrite Hc in Hs. injection Hs as -> -> ->.
  destruct (civilOfDays_cycle _ _ _ _ Hr Hc0) as (Hd & Hm & Hdd).
  rewrite daysOfCivil_shift.
  assert (Hin : daysIn m0 (y0 + 400 * (n / 146097)) = daysIn m0 y0)
    by (unfold daysIn; rewrite isLeap_shift; reflexivity).
  rewrite Hin. lia.
Qed.

Lemma daysOfCivil_civilOfDays n k :
  daysOfCivil (civilOfDays n).1.1 (civilOfDays n).1.2 ((civilOfDays n).2 + k) = n + k.
Proof.
  destruct (civilOfDays n) as [[y m] d] eqn:Hc. cbn.
  destruct (civilOfDays_valid n y m d Hc) as [Hv _].
  rewrite daysOfCivil_add_days. lia.
Qed.

Lemma time_Date_midnight y m d loc :
  time_Date y m d 0 0 0 0 loc = midnight (daysOfCivil y m d) loc.
Proof.
  unfold time_Date, midnight.
  change (((0 * 60 + 0) * 60 + 0) * 1000000000 + 0) with 0.
  change (0 / nanosPerDay) with 0. change (0 mod nanosPerDay) with 0.
  rewrite Z.add_0_r. reflexivity.
Qed.

Lemma truncateToDate_midnight t :
  truncateToDate t = midnight (tday t) (tloc t).
Proof.
  unfold truncateToDate, Year, Month, Day, TimeLocation.
  rewrite time_Date_midnight. f_equal.
  pose proof (daysOfCivil_civilOfDays (tday t) 0) as Hrt.
  rewrite Z.add_0_r in Hrt. rewrite Z.add_0_r in Hrt. exact Hrt.
Qed.

Lemma AddDate_midnight k z loc :
  AddDate 0 0 k (midnight z loc) = midnight (z + k) loc.
Proof.
  unfold AddDate, Year, Month, Day, Hour, Minute, Second, Nanosecond, TimeLocation.
  cbn [tday tnano tloc midnight]. rewrite !Z.add_0_r.
  change (0 / 3600000000000) with 0. change (0 / 60000000000 mod 60) with 0.
  change (0 / 1000000000 mod 60) with 0. change (0 mod 1000000000) with 0.
  rewrite time_Date_midnight, daysOfCivil_civilOfDays. reflexivity.
Qed.

(** *** Business days at midnight *)

Lemma fixed_keys : forallb fixedKeyOK monthDays = true.
Proof. vm_compute. reflexivity. Qed.

Lemma monthDays_spec m d :
  1 <= m <= 12 -> 1 <= d <= 31 -> (m, d) ∈ monthDays.
Proof.
  intros Hm Hd.
  assert (Hm' : m ∈ [1; 2; 3; 4; 5; 6; 7; 8; 9; 10; 11; 12])
    by (apply list_elem_of_In; cbn; lia).
  assert (Hd' : d ∈ [1; 2; 3; 4; 5; 6; 7; 8; 9; 10; 11; 12; 13; 14; 15; 16; 17;
                     18; 19; 20; 21; 22; 23; 24; 25; 26; 27; 28; 29; 30; 31])
    by (apply list_elem_of_In; cbn; lia).
  unfold monthDays. apply list_elem_of_bind. exists m. split; [|exact Hm'].
  apply list_elem_of_bind. exists d. split; [|exact Hd']. constructor.
Qed.

Lemma daysIn_le_31 m y : 1 <= m <= 12 -> daysIn m y <= 31.
Proof.
  intros Hm. unfold daysIn.
  assert (m = 1 \/ m = 2 \/ m = 3 \/ m = 4 \/ m = 5 \/ m = 6 \/ m = 7 \/ m = 8
          \/ m = 9 \/ m = 10 \/ m = 11 \/ m = 12) as Hc by lia.
  repeat destruct Hc as [->|Hc]; try subst m; destruct (isLeap y);
    vm_compute; discriminate.
Qed.

(** The key of a day in the map [fixed], for all days. *)
Lemma fixed_key_of_day z loc :
  bool_decide (Format_01_02 (midnight z loc) ∈ fixed)
  = isFixedMD (civilOfDays z).1.2 (civilOfDays z).2.
Proof.
  unfold Format_01_02, Month, Day. cbn [tday midnight].
  destruct (civilOfDays z) as [[y m] d] eqn:Hc. cbn [fst snd].
  destruct (civilOfDays_valid z y m d Hc) as (_ & Hm & Hd).
  pose proof (daysIn_le_31 m y Hm) as H31.
  pose proof (monthDays_spec m d Hm ltac:(lia)) as Hin.
  pose proof fixed_keys as Hall. rewrite forallb_forall in Hall.
  apply list_elem_of_In in Hin. specialize (Hall _ Hin).
  unfold fixedKeyOK in Hall. apply bool_decide_eq_true in Hall. exact Hall.
Qed.

Lemma easterSunday_midnight y :
  exists E, easterSunday y = midnight E LocLocal.
Proof. unfold easterSunday. cbn zeta. rewrite time_Date_midnight. eauto. Qed.

(** The map [movables] of a year holds four midnights of [time.Local]. *)
Lemma movables_spec y :
  exists E, easterSunday y = midnight E LocLocal
    /\ movables y = {[ midnight (E + -48) LocLocal; midnight (E + -47) LocLocal;
                      midnight (E + -2) LocLocal; midnight (E + 60) LocLocal ]}.
Proof.
  destruct (easterSunday_midnight y) as [E HE]. exists E. split; [exact HE|].
  unfold movables. cbn zeta. rewrite HE, !AddDate_midnight, !truncateToDate_midnight.
  reflexivity.
Qed.

Lemma isBusinessDayBR_midnight z loc :
  isBusinessDayBR (midnight z loc)
  = weekdayOK z
    && negb (isFixedMD (civilOfDays z).1.2 (civilOfDays z).2)
    && negb (bool_decide (midnight z loc ∈ movables (civilOfDays z).1.1)).
Proof.
  unfold isBusinessDayBR. cbn zeta.
  rewrite fixed_key_of_day, truncateToDate_midnight.
  unfold Year. cbn [tday tloc midnight].
  assert (Hwd : bool_decide (TimeWeekday (midnight z loc) = Saturday)
                || bool_decide (TimeWeekday (midnight z loc) = Sunday)
                = negb (weekdayOK z)).
  { unfold TimeWeekday, weekdayOK. cbn [tday midnight].
    pose proof (Z.mod_pos_bound (z + 1) 7 ltac:(lia)) as Hb.
    rewrite negb_involutive.
    assert ((z + 1) mod 7 = 0 \/ (z + 1) mod 7 = 1 \/ (z + 1) mod 7 = 2
            \/ (z + 1) mod 7 = 3 \/ (z + 1) mod 7 = 4 \/ (z + 1) mod 7 = 5
            \/ (z + 1) mod 7 = 6) as Hc by lia.
    repeat destruct Hc as [->|Hc]; try rewrite Hc; reflexivity. }
  rewrite Hwd.
  destruct (weekdayOK z); cbn [negb andb]; [|reflexivity].
  destruct (isFixedMD _ _); cbn [negb andb]; [reflexivity|].
  destruct (bool_decide (midnight z loc ∈ _)); reflexivity.
Qed.

(** A day of another location than [time.Local] is never a key of
    [movables]. *)
Lemma movables_other_location z loc y :
  loc <> LocLocal -> midnight z loc ∉ movables y.
Proof.
  intros Hloc. destruct (movables_spec y) as (E & _ & ->).
  unfold midnight. rewrite !elem_of_union, !elem_of_singleton.
  intros [[[Heq|Heq]|Heq]|Heq]; injection Heq as _ ->; done.
Qed.

(** *** A business day in every three weeks

    A day is a candidate when it is a weekday and no fixed holiday.  In
    every window of 21 days at least five candidates fall in one year,
    which has four movable holidays only: one candidate is a business day.
    The count is checked on the 400-year cycle of the calendar. *)

Lemma cycle_windows :
  windowsFrom cycleLength 0 (map dayInfo (back (0 - 1) 20)) = true.
Proof. vm_cast_no_check (eq_refl true). Qed. (* brute *)

Lemma back_firstn z k : firstn k (back z (S k)) = back z k.
Proof.
  revert z. induction k as [|k IH]; intros z; [reflexivity|].
  change (back z (S (S k))) with (z :: back (z - 1) (S k)).
  cbn [firstn]. rewrite IH. reflexivity.
Qed.

Lemma back_spec z k x : x ∈ back z k <-> z - Z.of_nat k < x <= z.
Proof.
  revert z. induction k as [|k IH]; intros z; cbn [back].
  - split; [intros Hin; inversion Hin|lia].
  - rewrite elem_of_cons, IH. lia.
Qed.

Lemma back_NoDup z k : NoDup (back z k).
Proof.
  revert z. induction k as [|k IH]; intros z; cbn [back]; constructor.
  - rewrite back_spec. lia.
  - apply IH.
Qed.

Lemma windowsFrom_spec count : forall z,
  windowsFrom count z (map dayInfo (back (z - 1) 20)) = true ->
  forall r, z <= r < z + Z.of_nat count ->
  goodInfos (map dayInfo (back r 21)) = true.
Proof.
  induction count as [|count IH]; intros z Hall r Hr; [lia|].
  cbn [windowsFrom] in Hall. apply andb_true_iff in Hall as [Hhere Hrest].
  change (dayInfo z :: map dayInfo (back (z - 1) 20))
    with (map dayInfo (back z 21)) in Hhere, Hrest.
  destruct (decide (r = z)) as [->|Hne]; [exact Hhere|].
  apply (IH (z + 1)); [|lia].
  rewrite firstn_map, back_firstn in Hrest.
  replace (z + 1 - 1) with z by lia. exact Hrest.
Qed.

Lemma weekdayOK_shift z q : weekdayOK (z + 146097 * q) = weekdayOK z.
Proof.
  unfold weekdayOK.
  replace (z + 146097 * q + 1) with (z + 1 + (20871 * q) * 7) by lia.
  rewrite Z.mod_add by lia. reflexivity.
Qed.

Lemma dayInfo_shift z q :
  dayInfo (z + 146097 * q) = ((dayInfo z).1, (dayInfo z).2 + 400 * q).
Proof.
  unfold dayInfo. rewrite civilOfDays_shift, weekdayOK_shift.
  destruct (civilOfDays z) as [[y m] d]. reflexivity.
Qed.

Lemma back_shift z c k : back (z + c) k = map (fun x => x + c) (back z k).
Proof.
  revert z. induction k as [|k IH]; intros z; [reflexivity|].
  cbn [back map]. f_equal.
  replace (z + c - 1) with (z - 1 + c) by lia. apply IH.
Qed.

Lemma countYear_shift Y c w :
  countYear (Y + c) (map (fun i => (i.1, i.2 + c)) w) = countYear Y w.
Proof.
  unfold countYear. induction w as [|[b y] w IH]; [reflexivity|].
  cbn [map List.filter fst snd].
  assert (Hy : inYear (Y + c) (b, y + c) = inYear Y (b, y)).
  { unfold inYear. cbn [fst snd]. f_equal.
    destruct (Z.eqb_spec y Y), (Z.eqb_spec (y + c) (Y + c)); lia. }
  rewrite Hy. destruct (inYear Y (b, y)); cbn [length]; rewrite IH; reflexivity.
Qed.

Lemma goodInfos_count w :
  goodInfos w = true -> exists Y, (5 <= countYear Y w)%nat.
Proof.
  unfold goodInfos. destruct w as [|i w]; [discriminate|].
  intros Hgood. apply orb_true_iff in Hgood as [Hc|Hc]; apply Nat.leb_le in Hc; eauto.
Qed.

(** Five candidates of one year in every window of 21 days. *)
Lemma five_candidates z :
  exists Y, (5 <= countYear Y (map dayInfo (back z 21)))%nat.
Proof.
  pose proof (Z.div_mod z 146097 ltac:(lia)) as Hz.
  pose proof (Z.mod_pos_bound z 146097 ltac:(lia)) as Hr.
  assert (Hgood : goodInfos (map dayInfo (back (z mod 146097) 21)) = true).
  { apply (windowsFrom_spec cycleLength 0 cycle_windows).
    rewrite cycleLength_Z. lia. }
  apply goodInfos_count in Hgood. destruct Hgood as [Y HY].
  exists (Y + 400 * (z / 146097)).
  assert (Hw : map dayInfo (back z 21)
               = map (fun i => (i.1, i.2 + 400 * (z / 146097)))
                     (map dayInfo (back (z mod 146097) 21))).
  { rewrite map_map.
    replace z with (z mod 146097 + 146097 * (z / 146097)) at 1 by lia.
    rewrite back_shift, map_map.
    apply map_ext. intros x. apply dayInfo_shift. }
  rewrite Hw, countYear_shift. exact HY.
Qed.

Lemma dayInfo_proj z :
  dayInfo z = (weekdayOK z && negb (isFixedMD (civilOfDays z).1.2 (civilOfDays z).2),
               (civilOfDays z).1.1).
Proof. unfold dayInfo. destruct (civilOfDays z) as [[y m] d]. reflexivity. Qed.

Lemma countYear_map {A} Y (g : A -> bool * Z) l :
  countYear Y (map g l) = length (List.filter (fun x => inYear Y (g x)) l).
Proof.
  unfold countYear. induction l as [|x l IH]; [reflexivity|].
  cbn [map List.filter].
  destruct (inYear Y (g x)); cbn [length]; rewrite IH; reflexivity.
Qed.

Lemma forallb_false {A} (f : A -> bool) l :
  forallb f l = false -> exists x, In x l /\ f x = false.
Proof.
  induction l as [|x l IH]; [discriminate|]. cbn [forallb].
  destruct (f x) eqn:Hx; cbn [andb].
  - intros Hl. destruct (IH Hl) as (x' & Hin & Hf). exists x'. split; [by right|exact Hf].
  - intros _. exists x. split; [by left|exact Hx].
Qed.

(** Five candidate days of one year are not all movable holidays. *)
Lemma candidate_not_movable (L : list Z) Y loc :
  NoDup L -> (5 <= length L)%nat ->
  (forall x, In x L ->
     weekdayOK x && negb (isFixedMD (civilOfDays x).1.2 (civilOfDays x).2) = true
     /\ (civilOfDays x).1.1 = Y) ->
  exists x, In x L /\ isBusinessDayBR (midnight x loc) = true.
Proof.
  intros HndL HY HL.
  destruct (forallb (fun x => bool_decide (midnight x loc ∈ movables Y)) L) eqn:Hall.
  - exfalso. rewrite forallb_forall in Hall.
    destruct (movables_spec Y) as (E & _ & HM).
    assert (Hincl : incl (map (fun x => midnight x loc) L)
                         [midnight (E + -48) LocLocal; midnight (E + -47) LocLocal;
                          midnight (E + -2) LocLocal; midnight (E + 60) LocLocal]).
    { intros t Ht. apply in_map_iff in Ht as (x & <- & Hx).
      specialize (Hall x Hx). apply bool_decide_eq_true in Hall.
      rewrite HM in Hall. rewrite !elem_of_union, !elem_of_singleton in Hall.
      cbn [In]. destruct Hall as [[[->| ->]| ->]| ->]; auto. }
    assert (Hnd : NoDup (map (fun x => midnight x loc) L)).
    { apply NoDup_fmap_2; [intros x y [= ->]; reflexivity|exact HndL]. }
    apply NoDup_ListNoDup in Hnd.
    pose proof (List.NoDup_incl_length Hnd Hincl) as Hlen.
    rewrite length_map in Hlen. cbn [length] in Hlen. lia.
  - apply forallb_false in Hall as (x & Hx & Hnot).
    destruct (HL x Hx) as (Hcand & Hyear).
    exists x. split; [exact Hx|].
    rewrite isBusinessDayBR_midnight, Hcand, Hyear, Hnot. reflexivity.
Qed.

Lemma candidates_of_window z Y x :
  In x (List.filter (fun x => inYear Y (dayInfo x)) (back z 21)) ->
  z - 20 <= x <= z
  /\ weekdayOK x && negb (isFixedMD (civilOfDays x).1.2 (civilOfDays x).2) = true
  /\ (civilOfDays x).1.1 = Y.
Proof.
  intros Hx. apply filter_In in Hx as [Hin Hy].
  apply list_elem_of_In, back_spec in Hin.
  rewrite dayInfo_proj in Hy. unfold inYear in Hy. cbn [fst snd] in Hy.
  apply andb_true_iff in Hy as [Hc Hyear]. apply Z.eqb_eq in Hyear.
  split; [lia|]. split; assumption.
Qed.

(** Among the 21 days that end with a given day, one is a business day,
    in any location. *)
Lemma business_day_within_21 z loc :
  exists x, z - 20 <= x <= z /\ isBusinessDayBR (midnight x loc) = true.
Proof.
  destruct (five_candidates z) as [Y HY].
  rewrite countYear_map in HY.
  destruct (candidate_not_movable
              (List.filter (fun x => inYear Y (dayInfo x)) (back z 21)) Y loc)
    as (x & Hx & Hbus).
  - apply NoDup_ListNoDup, List.NoDup_filter, NoDup_ListNoDup, back_NoDup.
  - exact HY.
  - intros x Hx. apply (candidates_of_window z Y x Hx).
  - exists x. split; [apply (candidates_of_window z Y x Hx)|exact Hbus].
Qed.

(** *** The loop of [LastNBusinessDays] *)

Lemma descending_weaken loc z z' l :
  z <= z' -> descending loc z l -> descending loc z' l.
Proof.
  destruct l as [|t l]; [done|]. cbn [descending].
  intros Hz (Ht & Hle & Hb & Hl). repeat split; try assumption. lia.
Qed.

Lemma lastNLoop_step fuel n out d :
  lastNLoop (S fuel) n out d =
  if len out <? n then
    lastNLoop fuel n (if isBusinessDayBR d then out ++ [d] else out)
              (AddDate 0 0 (-1) d)
  else Some out.
Proof. reflexivity. Qed.

Lemma lastNLoop_done fuel n out d :
  n <= len out -> lastNLoop fuel n out d = Some out.
Proof.
  intros Hn. destruct fuel; cbn [lastNLoop]; fold (len out);
    destruct (Z.ltb_spec (len out) n); try lia; reflexivity.
Qed.

Lemma lastNLoop_total loc n (m : nat) : forall (fuel : nat) out z,
  len out + Z.of_nat m = n ->
  21 * Z.of_nat m <= Z.of_nat fuel ->
  exists new,
    lastNLoop fuel n out (midnight z loc) = Some (out ++ new)
    /\ length new = m /\ descending loc z new.
Proof.
  induction m as [|m IHm]; intros fuel out z Hn Hfuel.
  - exists []. rewrite app_nil_r. split; [apply lastNLoop_done; lia|done].
  - assert (Hfound : forall (k : nat) (fuel : nat) z,
              isBusinessDayBR (midnight (z - Z.of_nat k) loc) = true ->
              Z.of_nat k + 1 + 21 * Z.of_nat m <= Z.of_nat fuel ->
              exists new,
                lastNLoop fuel n out (midnight z loc) = Some (out ++ new)
                /\ length new = S m /\ descending loc z new).
    { clear fuel z Hfuel.
      induction k as [|k IHk]; intros fuel z Hbus Hfuel;
        (destruct fuel as [|fuel]; [lia|]);
        rewrite lastNLoop_step, AddDate_midnight;
        (destruct (Z.ltb_spec (len out) n); [|lia]).
      - replace (z - Z.of_nat 0) with z in Hbus by lia. rewrite Hbus.
        destruct (IHm fuel (out ++ [midnight z loc]) (z + -1)) as (new & Hrun & Hlen & Hdesc).
        { unfold len in *. rewrite length_app. cbn [length]. lia. }
        { lia. }
        exists (midnight z loc :: new). rewrite <- app_assoc in Hrun.
        split; [exact Hrun|]. split; [cbn [length]; lia|].
        cbn [descending tday midnight]. split; [reflexivity|].
        split; [lia|]. split; [exact Hbus|].
        replace (z - 1) with (z + -1) by lia. exact Hdesc.
      - destruct (isBusinessDayBR (midnight z loc)) eqn:Hz.
        + destruct (IHm fuel (out ++ [midnight z loc]) (z + -1))
            as (new & Hrun & Hlen & Hdesc).
          { unfold len in *. rewrite length_app. cbn [length]. lia. }
          { lia. }
          exists (midnight z loc :: new). rewrite <- app_assoc in Hrun.
          split; [exact Hrun|]. split; [cbn [length]; lia|].
          cbn [descending tday midnight]. split; [reflexivity|].
          split; [lia|]. split; [exact Hz|].
          replace (z - 1) with (z + -1) by lia. exact Hdesc.
        + destruct (IHk fuel (z + -1)) as (new & Hrun & Hlen & Hdesc).
          { replace (z + -1 - Z.of_nat k) with (z - Z.of_nat (S k)) by lia.
            exact Hbus. }
          { lia. }
          exists new. split; [exact Hrun|]. split; [exact Hlen|].
          eapply descending_weaken; [|exact Hdesc]. lia. }
    destruct (business_day_within_21 z loc) as (x & Hx & Hbus).
    apply (Hfound (Z.to_nat (z - x))).
    + replace (z - Z.of_nat (Z.to_nat (z - x))) with x by lia. exact Hbus.
    + lia.
Qed.

(** [LastNBusinessDays] returns, for every [n >= 0] and every reference
    instant: [n] business days at midnight in the location of the
    reference, none after its day, each strictly before the one that
    precedes it. *)
Lemma LastNBusinessDays_total n from :
  0 <= n ->
  exists l,
    LastNBusinessDays n from = Some l
    /\ len l = n /\ descending (tloc from) (tday from) l.
Proof.
  intros Hn. unfold LastNBusinessDays.
  destruct (Z.ltb_spec n 0); [lia|].
  rewrite truncateToDate_midnight.
  destruct (lastNLoop_total (tloc from) n (Z.to_nat n) (lastNFuel n) [] (tday from))
    as (new & Hrun & Hlen & Hdesc).
  - unfold len. cbn [length]. lia.
  - unfold lastNFuel. lia.
  - exists new. split; [exact Hrun|]. split; [unfold len; lia|exact Hdesc].
Qed.

(** *** What [LastNBusinessDays] returns *)

Lemma isBusinessDayBR_true t :
  isBusinessDayBR t = true ->
  TimeWeekday t <> Saturday /\ TimeWeekday t <> Sunday
  /\ (Format_01_02 t ∉ fixed) /\ (truncateToDate t ∉ movables (Year t)).
Proof.
  unfold isBusinessDayBR. cbn zeta.
  destruct (decide (TimeWeekday t = Saturday)) as [Hsat|Hsat].
  { rewrite (bool_decide_eq_true_2 _ Hsat). discriminate. }
  destruct (decide (TimeWeekday t = Sunday)) as [Hsun|Hsun].
  { rewrite (bool_decide_eq_true_2 _ Hsun), orb_true_r. discriminate. }
  destruct (decide (Format_01_02 t ∈ fixed)) as [Hfix|Hfix].
  { rewrite (bool_decide_eq_true_2 _ Hfix).
    destruct (_ || _); discriminate. }
  destruct (decide (truncateToDate t ∈ movables (Year t))) as [Hmov|Hmov].
  { rewrite (bool_decide_eq_true_2 _ Hmov).
    destruct (_ || _); [discriminate|]. destruct (bool_decide _); discriminate. }
  intros _. repeat split; assumption.
Qed.

Lemma sameDate_tday t u : sameDate t u <-> tday t = tday u.
Proof.
  unfold sameDate, Year, Month, Day. split.
  - intros Heq.
    destruct (civilOfDays (tday t)) as [[y m] d] eqn:Ht.
    destruct (civilOfDays (tday u)) as [[y' m'] d'] eqn:Hu.
    cbn [fst snd] in Heq. injection Heq as -> -> ->.
    apply civilOfDays_valid in Ht, Hu.
    destruct Ht as [<- _], Hu as [<- _]. reflexivity.
  - intros ->. reflexivity.
Qed.

(** In [time.Local] the keys of [movables] are the movable holidays. *)
Lemma movables_local z :
  midnight z LocLocal ∈ movables (Year (midnight z LocLocal))
  <-> movableHoliday (midnight z LocLocal).
Proof.
  unfold movableHoliday, movableOffsets.
  destruct (movables_spec (Year (midnight z LocLocal))) as (E & HE & ->).
  rewrite HE. rewrite !elem_of_union, !elem_of_singleton. split.
  - intros [[[Heq|Heq]|Heq]|Heq]; injection Heq as ->;
      [exists (-48)|exists (-47)|exists (-2)|exists 60];
      (split; [set_solver|]); rewrite AddDate_midnight; apply sameDate_tday;
      reflexivity.
  - intros (k & Hk & Hsame). rewrite AddDate_midnight in Hsame.
    apply sameDate_tday in Hsame. cbn [tday midnight] in Hsame. subst z.
    rewrite !elem_of_cons, elem_of_nil in Hk.
    destruct Hk as [->|[->|[->|[->|[]]]]]; auto.
Qed.

(** In any other location the check of the movable holidays never fires:
    a business day is then any weekday that is no fixed holiday. *)
Lemma isBusinessDayBR_other_location z loc :
  loc <> LocLocal ->
  isBusinessDayBR (midnight z loc)
  = weekdayOK z && negb (isFixedMD (civilOfDays z).1.2 (civilOfDays z).2).
Proof.
  intros Hloc. rewrite isBusinessDayBR_midnight.
  rewrite (bool_decide_eq_false_2 _ (movables_other_location z loc _ Hloc)).
  cbn [negb]. apply andb_true_r.
Qed.

Lemma descending_Forall loc : forall l z,
  descending loc z l ->
  Forall (fun t => t = midnight (tday t) loc /\ tday t <= z
                   /\ isBusinessDayBR t = true) l
  /\ (forall (i : nat) t u,
         l !! i = Some t -> l !! S i = Some u -> tday u < tday t).
Proof.
  induction l as [|t l IHl]; intros z Hd.
  - split; [constructor|]. intros i t u Hi. rewrite lookup_nil in Hi. discriminate.
  - cbn [descending] in Hd. destruct Hd as (Ht & Hle & Hb & Hl).
    destruct (IHl _ Hl) as [Hall Hadj]. split.
    + constructor; [auto|].
      eapply Forall_impl; [exact Hall|]. cbn beta.
      intros u (Hu & Hlu & Hbu). repeat split; try assumption. lia.
    + intros [|i] t' u Hi Hsi.
      * cbn in Hi. injection Hi as <-. cbn in Hsi.
        destruct l as [|v l']; [discriminate|]. cbn in Hsi. injection Hsi as <-.
        apply Forall_inv in Hall. lia.
      * cbn in Hi, Hsi. eapply Hadj; eassumption.
Qed.

(** For every [n >= 0] and every reference instant, [LastNBusinessDays]
    returns [n] dates at midnight in the location of the reference, none
    after the date of the reference, each before the one that precedes it,
    none a Saturday, a Sunday or a fixed holiday, and none a key of the map
    [movables] of its year. *)
Lemma LastNBusinessDays_spec n from :
  0 <= n ->
  exists l,
    LastNBusinessDays n from = Some l
    /\ len l = n
    /\ (forall (i : nat) t u,
           l !! i = Some t -> l !! S i = Some u -> Before u t = true)
    /\ Forall (fun t =>
                 truncateToDate t = t
                 /\ TimeLocation t = TimeLocation from
                 /\ Before (truncateToDate from) t = false
                 /\ TimeWeekday t <> Saturday /\ TimeWeekday t <> Sunday
                 /\ (Format_01_02 t ∉ fixed)
                 /\ (truncateToDate t ∉ movables (Year t))) l.
Proof.
  intros Hn. destruct (LastNBusinessDays_total n from Hn) as (l & Hrun & Hlen & Hd).
  apply descending_Forall in Hd. destruct Hd as [Hall Hadj].
  exists l. split; [exact Hrun|]. split; [exact Hlen|]. split.
  - intros i t u Hi Hsi. unfold Before.
    pose proof (Hadj i t u Hi Hsi) as Hlt.
    apply orb_true_iff. left. apply Z.ltb_lt. exact Hlt.
  - eapply Forall_impl; [exact Hall|]. cbn beta.
    intros t (Ht & Hle & Hb).
    pose proof (isBusinessDayBR_true t Hb) as (Hsat & Hsun & Hfix & Hmov).
    assert (Htr : truncateToDate t = t).
    { rewrite truncateToDate_midnight. rewrite Ht at 3.
      rewrite Ht at 2. reflexivity. }
    repeat split; try assumption.
    + unfold TimeLocation. rewrite Ht. reflexivity.
    + rewrite truncateToDate_midnight. unfold Before.
      cbn [tday tnano midnight]. rewrite Ht. cbn [tday tnano midnight].
      rewrite Z.ltb_irrefl, andb_false_r, orb_false_r.
      apply Z.ltb_ge. lia.
Qed.

(** For a reference instant in [time.Local] (such as [time.Now()], the
    one reference that [ProcessDirectory] passes), no date returned is a
    movable holiday of its year. *)
Lemma LastNBusinessDays_local n from :
  0 <= n -> TimeLocation from = LocLocal ->
  exists l,
    LastNBusinessDays n from = Some l
    /\ Forall (fun t => ~ movableHoliday t) l.
Proof.
  intros Hn Hloc. destruct (LastNBusinessDays_spec n from Hn)
    as (l & Hrun & _ & _ & Hall).
  exists l. split; [exact Hrun|].
  eapply Forall_impl; [exact Hall|]. cbn beta.
  intros t (Htr & Hl & _ & _ & _ & _ & Hmov).
  rewrite Htr in Hmov. rewrite truncateToDate_midnight in Htr.
  unfold TimeLocation in Hl, Hloc. rewrite Hl, Hloc in Htr.
  rewrite <- Htr in Hmov |- *. rewrite <- movables_local. exact Hmov.
Qed.

(** C1, at a reference instant in [time.UTC]: for noon of 18 April 2025
    and [n = 1], [LastNBusinessDays] returns 18 April 2025, which is the
    Good Friday of 2025, two days before the Easter Sunday that
    [easterSunday] computes (20 April 2025).  The claim, and the comment
    of [LastNBusinessDays], exclude the movable holidays; the keys of the
    map [movables] are in [time.Local] and a [time.Time] of another
    location is never equal to one of them. *)
Theorem LastNBusinessDays_returns_good_friday :
  let ref := time_Date 2025 4 18 12 0 0 0 LocUTC in
  let day := time_Date 2025 4 18 0 0 0 0 LocUTC in
  LastNBusinessDays 1 ref = Some [day]
  /\ (Year (easterSunday 2025), Month (easterSunday 2025),
      Day (easterSunday 2025)) = (2025, 4, 20)
  /\ (-2 ∈ movableOffsets)
  /\ sameDate day (AddDate 0 0 (-2) (easterSunday (Year day)))
  /\ movableHoliday day.
Proof.
  cbn zeta.
  assert (Hsame : sameDate (time_Date 2025 4 18 0 0 0 0 LocUTC)
            (AddDate 0 0 (-2)
               (easterSunday (Year (time_Date 2025 4 18 0 0 0 0 LocUTC))))).
  { vm_compute. reflexivity. }
  assert (Hin : -2 ∈ movableOffsets) by (unfold movableOffsets; set_solver).
  split; [vm_compute; reflexivity|].
  split; [vm_compute; reflexivity|].
  split; [exact Hin|]. split; [exact Hsame|].
  exists (-2). split; [exact Hin|exact Hsame].
Qed.
(** ** Further properties of the calendar ([holidays.go]) *)













(** The loop of [LastNBusinessDays] leaves out no business day and looks
    at no more days than it has fuel. *)
Lemma lastNLoop_gapless loc n (fuel : nat) : forall out z res,
  lastNLoop fuel n out (midnight z loc) = Some res ->
  exists new,
    res = out ++ new /\ gapless loc z new
    /\ Forall (fun t => z - Z.of_nat fuel < tday t) new.
Proof.
  induction fuel as [|fuel IH]; intros out z res Hrun.
  - cbn [lastNLoop] in Hrun. destruct (len out <? n); [discriminate|].
    injection Hrun as <-. exists []. rewrite app_nil_r. repeat split. constructor.
  - rewrite lastNLoop_step, AddDate_midnight in Hrun.
    destruct (len out <? n).
    + destruct (isBusinessDayBR (midnight z loc)) eqn:Hb.
      * destruct (IH _ _ _ Hrun) as (new & -> & Hgap & Hrange).
        exists (midnight z loc :: new). rewrite <- app_assoc. split; [reflexivity|].
        cbn [gapless tday midnight]. split; [split|].
        -- intros x Hx. lia.
        -- replace (z - 1) with (z + -1) by lia. exact Hgap.
        -- constructor; [cbn [tday midnight]; lia|].
           eapply Forall_impl; [exact Hrange|]. cbn beta. intros t Ht. lia.
      * destruct (IH _ _ _ Hrun) as (new & -> & Hgap & Hrange).
        exists new. split; [reflexivity|]. split.
        -- destruct new as [|t new]; [exact I|]. cbn [gapless] in Hgap |- *.
           destruct Hgap as [Hnone Hrest]. split; [|exact Hrest].
           intros x Hx. destruct (decide (x = z)) as [->|Hne]; [exact Hb|].
           apply Hnone. lia.
        -- eapply Forall_impl; [exact Hrange|]. cbn beta. intros t Ht. lia.
    + injection Hrun as <-. exists []. rewrite app_nil_r. repeat split. constructor.
Qed.





(** X8: each of the [n] dates that [LastNBusinessDays] returns lies
    within the [21 * n] days that end with the date of the reference: every
    three weeks hold a business day. *)
Theorem LastNBusinessDays_recent n from l :
  LastNBusinessDays n from = Some l ->
  Forall (fun t => Before (AddDate 0 0 (- (21 * n)) (truncateToDate from)) t = true) l.
Proof.
  intros Hrun.
  assert (Hn : 0 <= n).
  { unfold LastNBusinessDays in Hrun. destruct (Z.ltb_spec n 0); [discriminate|lia]. }
  unfold LastNBusinessDays in Hrun. destruct (n <? 0); [discriminate|].
  rewrite truncateToDate_midnight in Hrun |- *. rewrite AddDate_midnight.
  destruct (lastNLoop_gapless _ _ _ _ _ _ Hrun) as (new & Hnew & _ & Hrange).
  cbn [app] in Hnew. subst new.
  eapply Forall_impl; [exact Hrange|]. cbn beta. intros t Ht.
  unfold Before. cbn [tday midnight]. apply orb_true_iff. left.
  apply Z.ltb_lt. unfold lastNFuel in Ht. lia.
Qed.

(** ** Dates read back *)

Lemma daysSinceEpoch_succ y :
  daysSinceEpoch (y + 1) = daysSinceEpoch y + 365 + (if isLeap y then 1 else 0).
Proof.
  unfold daysSinceEpoch, isLeap. cbn zeta.
  replace (y + 1 - 1) with y by lia.
  destruct (Z.eqb_spec (y mod 4) 0), (Z.eqb_spec (y mod 100) 0),
    (Z.eqb_spec (y mod 400) 0); cbn [andb orb negb];
    Z.div_mod_to_equations; lia.
Qed.

Lemma daysSinceEpoch_mono y y' : y <= y' -> daysSinceEpoch y <= daysSinceEpoch y'.
Proof. unfold daysSinceEpoch. cbn zeta. intros Hle. Z.div_mod_to_equations. lia. Qed.

Lemma daysOfCivil_in_year y m d :
  1 <= m <= 12 ->
  daysOfCivil y m d
  = daysSinceEpoch y + daysBefore (m - 1)
    + (if isLeap y && (2 <=? m - 1) then 1 else 0) + (d - 1).
Proof.
  intros Hm. unfold daysOfCivil. cbn zeta.
  rewrite (Z.div_small (m - 1) 12), (Z.mod_small (m - 1) 12), Z.add_0_r by lia.
  reflexivity.
Qed.

Ltac months :=
  repeat match goal with
         | |- context [daysBefore ?k] =>
             let v := eval vm_compute in (daysBefore k) in
             change (daysBefore k) with v
         | H : context [daysBefore ?k] |- _ =>
             let v := eval vm_compute in (daysBefore k) in
             change (daysBefore k) with v in H
         | |- context [Z.leb 2 ?k] =>
             let v := eval vm_compute in (Z.leb 2 k) in
             change (Z.leb 2 k) with v
         | H : context [Z.leb 2 ?k] |- _ =>
             let v := eval vm_compute in (Z.leb 2 k) in
             change (Z.leb 2 k) with v in H
         | H : context [Z.eqb ?k 2] |- _ =>
             let v := eval vm_compute in (Z.eqb k 2) in
             change (Z.eqb k 2) with v in H
         end;
  cbn [andb] in *.

(** The day of the year of a date that exists. *)
Lemma daysOfCivil_yday y m d :
  1 <= m <= 12 -> 1 <= d <= daysIn m y ->
  exists yday,
    daysOfCivil y m d = daysSinceEpoch y + yday
    /\ 0 <= yday < 365 + (if isLeap y then 1 else 0)
    /\ forall m' d' yday',
         1 <= m' <= 12 -> 1 <= d' <= daysIn m' y ->
         daysOfCivil y m' d' = daysSinceEpoch y + yday' ->
         yday' = yday -> m' = m /\ d' = d.
Proof.
  intros Hm Hd.
  exists (daysOfCivil y m d - daysSinceEpoch y). split; [lia|].
  assert (Hc : m = 1 \/ m = 2 \/ m = 3 \/ m = 4 \/ m = 5 \/ m = 6 \/ m = 7 \/ m = 8
               \/ m = 9 \/ m = 10 \/ m = 11 \/ m = 12) by lia.
  split.
  - rewrite daysOfCivil_in_year by exact Hm. unfold daysIn in Hd.
    repeat destruct Hc as [->|Hc]; try subst m; destruct (isLeap y);
      months; lia.
  - intros m' d' yday' Hm' Hd' Hy' ->.
    assert (Hc' : m' = 1 \/ m' = 2 \/ m' = 3 \/ m' = 4 \/ m' = 5 \/ m' = 6 \/ m' = 7
                  \/ m' = 8 \/ m' = 9 \/ m' = 10 \/ m' = 11 \/ m' = 12) by lia.
    rewrite daysOfCivil_in_year in Hy' by exact Hm'.
    rewrite daysOfCivil_in_year in Hy' by exact Hm.
    unfold daysIn in Hd, Hd'.
    repeat destruct Hc as [->|Hc]; try subst m;
      repeat destruct Hc' as [->|Hc']; try subst m';
      destruct (isLeap y); months; lia.
Qed.

Lemma daysOfCivil_inj y m d y' m' d' :
  1 <= m <= 12 -> 1 <= d <= daysIn m y ->
  1 <= m' <= 12 -> 1 <= d' <= daysIn m' y' ->
  daysOfCivil y m d = daysOfCivil y' m' d' ->
  y = y' /\ m = m' /\ d = d'.
Proof.
  intros Hm Hd Hm' Hd' Heq.
  destruct (daysOfCivil_yday y m d Hm Hd) as (yd & Hyd & Hr & Hinj).
  destruct (daysOfCivil_yday y' m' d' Hm' Hd') as (yd' & Hyd' & Hr' & _).
  pose proof (daysSinceEpoch_succ y) as Hs.
  pose proof (daysSinceEpoch_succ y') as Hs'.
  assert (Hy : y = y').
  { destruct (Z.lt_trichotomy y y') as [Hlt|[Heq'|Hgt]]; [|exact Heq'|].
    - pose proof (daysSinceEpoch_mono (y + 1) y' ltac:(lia)). lia.
    - pose proof (daysSinceEpoch_mono (y' + 1) y ltac:(lia)). lia. }
  subst y'. split; [reflexivity|].
  destruct (Hinj m' d' yd' Hm' Hd' Hyd' ltac:(lia)) as [-> ->]. split; reflexivity.
Qed.

(** [time.Date] of a date that exists reads back as that date. *)
Lemma civilOfDays_daysOfCivil y m d :
  1 <= m <= 12 -> 1 <= d <= daysIn m y ->
  civilOfDays (daysOfCivil y m d) = (y, m, d).
Proof.
  intros Hm Hd.
  destruct (civilOfDays (daysOfCivil y m d)) as [[y' m'] d'] eqn:Hc.
  destruct (civilOfDays_valid _ _ _ _ Hc) as (Heq & Hm' & Hd').
  destruct (daysOfCivil_inj _ _ _ _ _ _ Hm' Hd' Hm Hd Heq) as (-> & -> & ->).
  reflexivity.
Qed.

(** ** Further properties of the rows *)

Lemma substring_take (n : nat) : forall s,
  list_ascii_of_string (substring 0 n s) = take n (list_ascii_of_string s).
Proof.
  induction n as [|n IH]; intros [|c s]; cbn; try reflexivity.
  rewrite IH. reflexivity.
Qed.

(** The clock of [time.Date(0, 1, 1, hh, mm, ss, 0, time.UTC)]. *)
Lemma clock_of_time_Date hh mm ss :
  0 <= hh < 24 -> 0 <= mm < 60 -> 0 <= ss < 60 ->
  let t := time_Date 0 1 1 hh mm ss 0 LocUTC in
  Hour t = hh /\ Minute t = mm /\ Second t = ss /\ Nanosecond t = 0
  /\ (Year t, Month t, Day t) = (0, 1, 1).
Proof.
  intros Hh Hm Hs. cbn zeta. unfold time_Date, nanosPerDay. cbn zeta.
  set (ns := ((hh * 60 + mm) * 60 + ss) * 1000000000 + 0).
  assert (Hns : 0 <= ns < 86400 * 1000000000) by (unfold ns; lia).
  rewrite (Z.div_small ns) by exact Hns. rewrite (Z.mod_small ns) by exact Hns.
  unfold Hour, Minute, Second, Nanosecond, Year, Month, Day. cbn [tday tnano].
  change (daysOfCivil 0 1 1 + 0) with (-366).
  assert (Hc : civilOfDays (-366) = (0, 1, 1)) by (vm_compute; reflexivity).
  rewrite Hc. cbn [fst snd].
  split; [symmetry; apply (Z.div_unique ns 3600000000000 hh
                             ((mm * 60 + ss) * 1000000000)); unfold ns; lia|].
  split.
  { assert (Hq : ns / 60000000000 = hh * 60 + mm).
    { symmetry. apply (Z.div_unique ns 60000000000 (hh * 60 + mm) (ss * 1000000000));
        unfold ns; lia. }
    rewrite Hq. symmetry. apply (Z.mod_unique (hh * 60 + mm) 60 hh mm); lia. }
  split.
  { assert (Hq : ns / 1000000000 = (hh * 60 + mm) * 60 + ss).
    { symmetry. apply (Z.div_unique ns 1000000000 ((hh * 60 + mm) * 60 + ss) 0);
        unfold ns; lia. }
    rewrite Hq. symmetry. apply (Z.mod_unique _ 60 (hh * 60 + mm) ss); lia. }
  split; [|reflexivity].
  symmetry. apply (Z.mod_unique ns 1000000000 ((hh * 60 + mm) * 60 + ss) 0);
    unfold ns; lia.
Qed.

Section MoreRowProperties.
Context `{Strconv}.

(** X9: the closing time of a parsed trade.  A cell that is not
    blank gives the clock of its first six characters, read as two digits
    each of hours, minutes and seconds, on 1 January of year 0 in UTC; what
    follows the sixth character (the milliseconds) is dropped, the
    nanoseconds are 0. *)
Theorem closing_time_clock rec t c5 :
  recordToTrade rec = Ok t ->
  rec !! 5%nat = Some c5 -> TrimSpace c5 <> "" ->
  exists h1 h2 m1 m2 s1 s2 rest hh mm ss,
    list_ascii_of_string (TrimSpace c5) = h1 :: h2 :: m1 :: m2 :: s1 :: s2 :: rest
    /\ decimalValue 0 [h1; h2] = Some hh /\ hh < 24
    /\ decimalValue 0 [m1; m2] = Some mm /\ mm < 60
    /\ decimalValue 0 [s1; s2] = Some ss /\ ss < 60
    /\ ClosingTime t = time_Date 0 1 1 hh mm ss 0 LocUTC
    /\ Hour (ClosingTime t) = hh /\ Minute (ClosingTime t) = mm
    /\ Second (ClosingTime t) = ss /\ Nanosecond (ClosingTime t) = 0
    /\ (Year (ClosingTime t), Month (ClosingTime t), Day (ClosingTime t)) = (0, 1, 1).
Proof.
  intros Hrec Hc5 Hne.
  destruct (recordToTrade_Ok rec t Hrec)
    as (c0 & c1 & c2 & c3 & c4 & c5' & c6 & c7 & c8 & c9 & c10 & rest' & -> &
        _ & _ & _ & _ & _ & Hclock & _).
  cbn in Hc5. injection Hc5 as ->.
  unfold clockCell in Hclock. cbn zeta in Hclock.
  rewrite bool_decide_eq_false_2 in Hclock by exact Hne. cbn [negb] in Hclock.
  destruct (Z.of_nat (String.length (TrimSpace c5)) <? 6); [discriminate|].
  destruct (time_Parse_clock (substring 0 6 (TrimSpace c5))) as [h|] eqn:Hparse;
    [|discriminate].
  injection Hclock as Hclock.
  unfold time_Parse_clock in Hparse. rewrite substring_take in Hparse.
  destruct (list_ascii_of_string (TrimSpace c5))
    as [|h1 [|h2 [|m1 [|m2 [|s1 [|s2 rest]]]]]] eqn:Hs; try discriminate Hparse.
  cbn [take] in Hparse.
  destruct (decimalValue 0 [h1; h2]) as [hh|] eqn:Hhh; [|discriminate].
  destruct (decimalValue 0 [m1; m2]) as [mm|] eqn:Hmm; [|discriminate].
  destruct (decimalValue 0 [s1; s2]) as [ss|] eqn:Hss; [|discriminate].
  destruct ((hh <? 24) && (mm <? 60) && (ss <? 60)) eqn:Hrange; [|discriminate].
  injection Hparse as <-.
  rewrite !andb_true_iff, !Z.ltb_lt in Hrange. destruct Hrange as [[Hh Hm] Hsec].
  pose proof (decimalValue_nonneg _ 0 hh ltac:(lia) Hhh) as Hh0.
  pose proof (decimalValue_nonneg _ 0 mm ltac:(lia) Hmm) as Hm0.
  pose proof (decimalValue_nonneg _ 0 ss ltac:(lia) Hss) as Hs0.
  destruct (clock_of_time_Date hh mm ss ltac:(lia) ltac:(lia) ltac:(lia))
    as (Hhour & Hmin & Hsecond & Hnano & Hdate).
  rewrite Hhour, Hmin, Hsecond in Hclock.
  exists h1, h2, m1, m2, s1, s2, rest, hh, mm, ss.
  rewrite <- Hclock. repeat split; try assumption; try reflexivity.
Qed.

End MoreRowProperties.

Lemma time_Parse_date_Some s t :
  time_Parse_date s = Some t -> writtenDate s t.
Proof.
  unfold time_Parse_date, writtenDate.
  destruct (list_ascii_of_string s)
    as [|y1 [|y2 [|y3 [|y4 [|a [|m1 [|m2 [|b [|d1 [|d2 [|x l]]]]]]]]]]];
    try discriminate;
    (destruct (decide (a = "-"%char)) as [->|Ha];
     [|destruct a as [[] [] [] [] [] [] [] []]; try discriminate; done]);
    try discriminate;
    (destruct (decide (b = "-"%char)) as [->|Hb];
     [|destruct b as [[] [] [] [] [] [] [] []]; try discriminate; done]);
    try discriminate.
  destruct (decimalValue 0 [y1; y2; y3; y4]) as [year|] eqn:Hy; [|discriminate].
  destruct (decimalValue 0 [m1; m2]) as [month|] eqn:Hm; [|discriminate].
  destruct (decimalValue 0 [d1; d2]) as [day|] eqn:Hd; [|discriminate].
  destruct (validDate year month day) eqn:Hv; [|discriminate].
  intros [= <-]. unfold validDate in Hv.
  rewrite !andb_true_iff, !Z.leb_le in Hv. destruct Hv as [[[Hm1 Hm2] Hd1] Hd2].
  exists y1, y2, y3, y4, m1, m2, d1, d2, year, month, day.
  repeat split; try assumption.
  rewrite time_Date_midnight. unfold Year, Month, Day. cbn [tday midnight].
  rewrite civilOfDays_daysOfCivil by lia. reflexivity.
Qed.

Section DateCells.
Context `{Strconv}.

Lemma dateCell_written mk cell t :
  dateCell mk cell = Ok t -> TrimSpace cell <> "" -> writtenDate (TrimSpace cell) t.
Proof.
  unfold dateCell. cbn zeta. intros Hc Hne.
  rewrite bool_decide_eq_false_2 in Hc by exact Hne. cbn [negb] in Hc.
  destruct (time_Parse_date (TrimSpace cell)) as [d|] eqn:Hp; [|discriminate].
  injection Hc as <-. apply time_Parse_date_Some. exact Hp.
Qed.

(** X10: the two dates of a parsed trade.  A date cell that is not blank
    is a date [YYYY-MM-DD] that exists (a day such as 30 February is
    rejected), and the field of the trade reads back as that year, month
    and day, at midnight in UTC. *)
Theorem date_cells_read_back rec t :
  recordToTrade rec = Ok t ->
  (forall c0, rec !! 0%nat = Some c0 -> TrimSpace c0 <> "" ->
              writtenDate (TrimSpace c0) (ReferenceDate t))
  /\ (forall c8, rec !! 8%nat = Some c8 -> TrimSpace c8 <> "" ->
                 writtenDate (TrimSpace c8) (TradeDate t)).
Proof.
  intros Hrec.
  destruct (recordToTrade_Ok rec t Hrec)
    as (c0 & c1 & c2 & c3 & c4 & c5 & c6 & c7 & c8 & c9 & c10 & rest & -> &
        Href & _ & _ & _ & _ & _ & _ & _ & Htrade & _).
  split; intros c Hc Hne; cbn in Hc; injection Hc as <-.
  - exact (dateCell_written _ _ _ Href Hne).
  - exact (dateCell_written _ _ _ Htrade Hne).
Qed.

End DateCells.

(** ** Further properties of the parser *)

Section MoreParserProperties.
Context `{Strconv}.

Lemma recordToTrade_no_panic rec : len rec = 11 -> recordToTrade rec <> Panicked.
Proof.
  intros Hlen.
  do 11 (destruct rec as [|? rec]; [discriminate Hlen|]).
  destruct rec; [|unfold len in Hlen; cbn in Hlen; lia].
  match goal with
  | |- recordToTrade [?c0; ?c1; ?c2; ?c3; ?c4; ?c5; ?c6; ?c7; ?c8; ?c9; ?c10] <> _ =>
      destruct (recordToTrade_eleven_cases c0 c1 c2 c3 c4 c5 c6 c7 c8 c9 c10)
        as [[t Ht]|[e He]]; unfold elevenCells in *; congruence
  end.
Qed.

(** A read that does not give a row of the file: the run ends with it. *)
Lemma parseRows_bad_read env batch r : forall buf lineNumber total tr res ext,
  run env (parseRows batch r buf lineNumber total) tr = (res, ext) ->
  forall pre x post, ext = pre ++ ERead x :: post ->
  match x with
  | ReadRecord rec =>
      forall e, len rec = 11 -> recordToTrade rec = Raise e ->
        post = []
        /\ res = Some (0, Some (ErrLine (lineNumber + 1 + countReads pre) e))
  | ReadError e =>
      isEOF e = false ->
      post = []
      /\ res = Some (0, Some (ErrReadLine (lineNumber + countReads pre) e))
  end.
Proof.
  induction r as [|x0 r IH]; intros buf lineNumber total tr res ext;
    rewrite run_parseRows; unfold loggedAll; cbn zeta.
  - destruct (env_done env tr).
    { intros [= <- <-] pre x post Heq. symmetry in Heq. split_trace Heq. }
    destruct (finalFlushRun_cases env buf total
                ((tr ++ [EDone None]) ++ [ERead (ReadError io_EOF)]))
      as [-> | [[e ->] | ->]]; cbn; intros [= <- <-] pre x post Heq;
      symmetry in Heq; cbn in Heq; split_trace Heq; simplify_eq; discriminate.
  - destruct (env_done env tr).
    { intros [= <- <-] pre x post Heq. symmetry in Heq. split_trace Heq. }
    destruct x0 as [rec0|e0].
    + assert (Hhere : forall (pre : list Entry) x post (es : list Entry),
                 pre ++ ERead x :: post
                 = EDone None :: ERead (ReadRecord rec0) :: es ->
                 (pre = [EDone None] /\ x = ReadRecord rec0 /\ post = es)
                 \/ exists pre', pre = EDone None :: ERead (ReadRecord rec0) :: pre'
                                 /\ pre' ++ ERead x :: post = es).
      { intros pre x post es Heq.
        apply split_cons in Heq. destruct Heq as [(_ & [=] & _)|(pre1 & -> & Heq)].
        apply split_cons in Heq. destruct Heq as [(-> & Hx & ->)|(pre2 & -> & Heq)].
        - injection Hx as ->. left. done.
        - right. eauto. }
      destruct (negb (len rec0 =? 11)) eqn:Hlen.
      { intros [= <- <-] pre x post Heq. symmetry in Heq.
        destruct (Hhere _ _ _ _ Heq) as [(-> & -> & ->)|(pre' & -> & Heq')].
        - intros e' Hl. apply negb_true_iff, Z.eqb_neq in Hlen. done.
        - split_trace Heq'. }
      destruct (recordToTrade rec0) as [t|e1|] eqn:Hrec.
      * destruct (batch <=? len (buf ++ [t])).
        -- destruct (env_insert env _ (buf ++ [t])).
           { intros [= <- <-] pre x post Heq. symmetry in Heq.
             destruct (Hhere _ _ _ _ Heq) as [(-> & -> & ->)|(pre' & -> & Heq')].
             - intros e' Hl He. congruence.
             - split_trace Heq'. }
           destruct (run env _ _) as [res0 ext0] eqn:Hr. cbn.
           intros [= <- <-] pre x post Heq. symmetry in Heq.
           destruct (Hhere _ _ _ _ Heq) as [(-> & -> & ->)|(pre' & -> & Heq')].
           { intros e' Hl He. congruence. }
           split_trace Heq'.
           pose proof (IH _ _ _ _ _ _ Hr _ _ _ (eq_sym Heq')) as Hlater.
           destruct x as [rec1|er]; cbn.
           ++ intros e' Hl He. destruct (Hlater e' Hl He) as [-> ->].
              split; [reflexivity|]. do 4 f_equal. lia.
           ++ intros He. destruct (Hlater He) as [-> ->].
              split; [reflexivity|]. do 4 f_equal. lia.
        -- destruct (run env _ _) as [res0 ext0] eqn:Hr. cbn.
           intros [= <- <-] pre x post Heq. symmetry in Heq.
           destruct (Hhere _ _ _ _ Heq) as [(-> & -> & ->)|(pre' & -> & Heq')].
           { intros e' Hl He. congruence. }
           pose proof (IH _ _ _ _ _ _ Hr _ _ _ (eq_sym Heq')) as Hlater.
           destruct x as [rec1|er]; cbn.
           ++ intros e' Hl He. destruct (Hlater e' Hl He) as [-> ->].
              split; [reflexivity|]. do 4 f_equal. lia.
           ++ intros He. destruct (Hlater He) as [-> ->].
              split; [reflexivity|]. do 4 f_equal. lia.
      * intros [= <- <-] pre x post Heq. symmetry in Heq.
        destruct (Hhere _ _ _ _ Heq) as [(-> & -> & ->)|(pre' & -> & Heq')].
        -- intros e' Hl He. cbn. rewrite Z.add_0_r. split; congruence.
        -- split_trace Heq'.
      * intros [= <- <-] pre x post Heq. symmetry in Heq.
        destruct (Hhere _ _ _ _ Heq) as [(-> & -> & ->)|(pre' & -> & Heq')].
        -- intros e' Hl He. congruence.
        -- split_trace Heq'.
    + destruct (isEOF e0) eqn:Heof.
      * destruct (finalFlushRun_cases env buf total
                    ((tr ++ [EDone None]) ++ [ERead (ReadError e0)]))
          as [-> | [[e ->] | ->]]; cbn; intros [= <- <-] pre x post Heq;
          symmetry in Heq; cbn in Heq; split_trace Heq; simplify_eq; congruence.
      * intros [= <- <-] pre x post Heq. symmetry in Heq. split_trace Heq.
        simplify_eq. intros _. cbn. rewrite Z.add_0_r. done.
Qed.


(** The row loop never panics: the column count is checked before
    [recordToTrade] indexes the row. *)
Lemma parseRows_no_panic env batch r : forall buf lineNumber total tr,
  (run env (parseRows batch r buf lineNumber total) tr).1 <> None.
Proof.
  induction r as [|x0 r IH]; intros buf lineNumber total tr;
    rewrite run_parseRows; unfold loggedAll; cbn zeta.
  - destruct (env_done env tr); [discriminate|].
    destruct (finalFlushRun_cases env buf total
                ((tr ++ [EDone None]) ++ [ERead (ReadError io_EOF)]))
      as [-> | [[e ->] | ->]]; discriminate.
  - destruct (env_done env tr); [discriminate|].
    destruct x0 as [rec0|e0].
    + destruct (negb (len rec0 =? 11)) eqn:Hlen; [discriminate|].
      apply negb_false_iff, Z.eqb_eq in Hlen.
      pose proof (recordToTrade_no_panic rec0 Hlen) as Hnp.
      destruct (recordToTrade rec0) as [t|e1|]; [|discriminate|done].
      destruct (batch <=? len (buf ++ [t])).
      * destruct (env_insert env _ (buf ++ [t])); [discriminate|]. apply IH.
      * apply IH.
    + destruct (isEOF e0); [|discriminate].
      destruct (finalFlushRun_cases env buf total
                  ((tr ++ [EDone None]) ++ [ERead (ReadError e0)]))
        as [-> | [[e ->] | ->]]; discriminate.
Qed.

(** The header loop accepts a header as long as the expected one when its
    cells, trimmed, are the expected names. *)
Lemma checkHeader_None header : forall expected k,
  length header = length expected ->
  checkHeader k header expected = None <-> map TrimSpace header = expected.
Proof.
  induction header as [|h header IH]; intros [|e expected] k Hlen;
    try discriminate Hlen; [done|].
  cbn. injection Hlen as Hlen. destruct (decide (TrimSpace h = e)) as [->|Hne].
  - rewrite bool_decide_eq_true_2 by reflexivity. cbn.
    rewrite (IH expected (k + 1) Hlen). split; [intros ->; reflexivity|].
    intros [= ->]. reflexivity.
  - rewrite bool_decide_eq_false_2 by exact Hne. cbn. split; [discriminate|].
    intros [= Hh _]. contradiction.
Qed.

Lemma header_accepted header :
  (negb (len header =? 11) = false
   /\ checkHeader 0 header expectedHeaders = None)
  <-> map TrimSpace header = expectedHeaders.
Proof.
  rewrite negb_false_iff, Z.eqb_eq. split.
  - intros [Hlen Hcheck]. apply (checkHeader_None header expectedHeaders 0);
      [unfold len in Hlen; cbn; lia|exact Hcheck].
  - intros Hmap.
    assert (Hlen : length header = length expectedHeaders).
    { rewrite <- Hmap, length_map. reflexivity. }
    split; [unfold len; rewrite Hlen; reflexivity|].
    apply (checkHeader_None header expectedHeaders 0 Hlen). exact Hmap.
Qed.

Lemma checkHeader_Some header : forall expected k e,
  checkHeader k header expected = Some e ->
  exists col want got, e = ErrHeaderCol col want got.
Proof.
  induction header as [|h header IH]; intros [|e0 expected] k e; try discriminate.
  cbn. destruct (negb (bool_decide (TrimSpace h = e0))).
  - intros [= <-]. eauto.
  - apply IH.
Qed.

(** The row loop starts with a poll. *)
Lemma parseRows_first_call env batch r buf lineNumber total tr :
  (run env (parseRows batch r buf lineNumber total) tr).2 <> [].
Proof.
  rewrite run_parseRows. cbn zeta. unfold loggedAll.
  destruct (env_done env tr); [discriminate|].
  destruct r as [|[rec|e] r]; [discriminate| |].
  - destruct (negb (len rec =? 11)); [discriminate|].
    destruct (recordToTrade rec) as [t|e|]; try discriminate.
    destruct (batch <=? len (buf ++ [t])); [|discriminate].
    destruct (env_insert env _ _); discriminate.
  - destruct (isEOF e); discriminate.
Qed.

(** X11: the header of a file is accepted exactly when its cells, each
    trimmed of surrounding white space, are the eleven expected names in
    their order; any other header fails the file right after it is read,
    with the error of the length or of a column of the header. *)
Theorem parse_header_rejected_iff env fs path batch tr header r :
  os_Open fs path = inr (ReadRecord header :: r) ->
  map TrimSpace header <> expectedHeaders
  <-> exists e,
        run env (parseAndPersistFile fs path batch) tr
        = (Some (0, Some e), [ERead (ReadRecord header)])
        /\ (e = ErrHeaderLength 11 (len header)
            \/ exists col want got, e = ErrHeaderCol col want got).
Proof.
  intros Hopen. rewrite run_parseAndPersistFile, Hopen. cbn zeta.
  pose proof (header_accepted header) as Hacc.
  destruct (negb (len header =? 11)).
  { split; [eauto|]. intros _ Hmap. apply Hacc in Hmap. destruct Hmap; discriminate. }
  destruct (checkHeader 0 header expectedHeaders) as [e|] eqn:Hcheck.
  { split.
    - intros _. destruct (checkHeader_Some _ _ _ _ Hcheck) as (col & want & got & ->).
      eauto 10.
    - intros _ Hmap. apply Hacc in Hmap. destruct Hmap; discriminate. }
  split.
  - intros Hmap. destruct Hmap. apply Hacc. done.
  - intros (e & Hrun & _). exfalso. destruct (batch <? 0); [discriminate|].
    unfold loggedAll in Hrun. cbn in Hrun. injection Hrun as _ Hext.
    exact (parseRows_first_call _ _ _ _ _ _ _ Hext).
Qed.


Lemma parseRows_batch_zero env r : forall lineNumber total tr,
  run env (parseRows 0 r [] lineNumber total) tr
  = run env (parseRows 1 r [] lineNumber total) tr.
Proof.
  induction r as [|x0 r IH]; intros lineNumber total tr;
    rewrite !run_parseRows; cbn zeta; [reflexivity|].
  destruct (env_done env tr); [reflexivity|].
  destruct x0 as [rec0|e0]; [|reflexivity].
  destruct (negb (len rec0 =? 11)); [reflexivity|].
  destruct (recordToTrade rec0) as [t| |]; try reflexivity.
  change (0 <=? len ([] ++ [t])) with true.
  change (1 <=? len ([] ++ [t])) with true. cbn [app].
  destruct (env_insert env _ [t]); [reflexivity|]. rewrite IH. reflexivity.
Qed.

(** X13: a batch size of 0 is treated as a batch size of 1: every row is
    inserted in a call of its own. *)
Theorem parse_batch_zero env fs path tr :
  run env (parseAndPersistFile fs path 0) tr
  = run env (parseAndPersistFile fs path 1) tr.
Proof.
  rewrite !run_parseAndPersistFile.
  destruct (os_Open fs path) as [e0|[|[header|e0] r]]; try reflexivity.
  cbn zeta. destruct (negb (len header =? 11)); [reflexivity|].
  destruct (checkHeader 0 header expectedHeaders); [reflexivity|].
  change (0 <? 0) with false. change (1 <? 0) with false. cbn iota.
  rewrite parseRows_batch_zero. reflexivity.
Qed.

(** X14: a row of eleven cells that [recordToTrade] rejects ends the run:
    its read is the last call, the file fails with the error of the row
    under its line number (the header being line 1), and the rows read
    before it that were not yet flushed are never inserted. *)
Theorem parse_row_error env fs path batch tr res ext pre rec post e :
  run env (parseAndPersistFile fs path batch) tr = (res, ext) ->
  ext = pre ++ ERead (ReadRecord rec) :: post ->
  pre <> [] -> len rec = 11 -> recordToTrade rec = Raise e ->
  post = [] /\ res = Some (0, Some (ErrLine (1 + countReads pre) e)).
Proof.
  rewrite run_parseAndPersistFile.
  destruct (os_Open fs path) as [e0|[|[header|e0] r]]; cbn zeta;
    try solve [intros [= <- <-] Heq; symmetry in Heq; split_trace Heq; done].
  destruct (negb (len header =? 11)).
  { intros [= <- <-] Heq. symmetry in Heq. split_trace Heq. done. }
  destruct (checkHeader 0 header expectedHeaders).
  { intros [= <- <-] Heq. symmetry in Heq. split_trace Heq. done. }
  destruct (batch <? 0).
  { intros [= <- <-] Heq. symmetry in Heq. split_trace Heq. done. }
  destruct (run env _ _) as [res0 ext0] eqn:Hr. unfold loggedAll. cbn.
  intros [= <- <-] Heq Hpre Hlen Hrec. symmetry in Heq.
  apply split_cons in Heq. destruct Heq as [(-> & _)|(pre' & -> & Heq)]; [done|].
  destruct (parseRows_bad_read _ _ _ _ _ _ _ _ _ Hr _ _ _ (eq_sym Heq) e Hlen Hrec)
    as [-> ->].
  split; [reflexivity|]. cbn. do 4 f_equal. lia.
Qed.

(** X15: a failed read ends the run.  When the first read fails (also at
    the end of an empty file) the file fails with the error of the header;
    when a later read fails with another error than the end of the file,
    that read is the last call, the error names the number of lines read so
    far, and the rows buffered are not inserted. *)
Theorem parse_read_error env fs path batch tr res ext pre e post :
  run env (parseAndPersistFile fs path batch) tr = (res, ext) ->
  ext = pre ++ ERead (ReadError e) :: post ->
  (pre = [] -> post = [] /\ res = Some (0, Some (ErrReadHeader e)))
  /\ (pre <> [] -> isEOF e = false ->
      post = [] /\ res = Some (0, Some (ErrReadLine (countReads pre) e))).
Proof.
  rewrite run_parseAndPersistFile.
  destruct (os_Open fs path) as [e0|[|[header|e0] r]]; cbn zeta.
  - intros [= <- <-] Heq. symmetry in Heq. split_trace Heq.
  - intros [= <- <-] Heq. symmetry in Heq. split_trace Heq.
    simplify_eq. split; [done|done].
  - assert (Hshort : forall res',
              (res', [ERead (ReadRecord header)]) = (res, ext) ->
              ext = pre ++ ERead (ReadError e) :: post -> False).
    { intros res' [= <- <-] Heq. symmetry in Heq. split_trace Heq. }
    destruct (negb (len header =? 11)); [intros Hr Heq; destruct (Hshort _ Hr Heq)|].
    destruct (checkHeader 0 header expectedHeaders);
      [intros Hr Heq; destruct (Hshort _ Hr Heq)|].
    destruct (batch <? 0); [intros Hr Heq; destruct (Hshort _ Hr Heq)|].
    clear Hshort.
    destruct (run env _ _) as [res0 ext0] eqn:Hr. unfold loggedAll. cbn.
    intros [= <- <-] Heq. symmetry in Heq.
    apply split_cons in Heq. destruct Heq as [(_ & [=] & _)|(pre' & -> & Heq)].
    split; [discriminate|]. intros _ Heof.
    destruct (parseRows_bad_read _ _ _ _ _ _ _ _ _ Hr _ _ _ (eq_sym Heq) Heof)
      as [-> ->].
    split; [reflexivity|]. cbn. do 4 f_equal; lia.
  - intros [= <- <-] Heq. symmetry in Heq. split_trace Heq.
    simplify_eq. split; [done|done].
Qed.

End MoreParserProperties.

(** ** Further properties of the workers *)

Lemma polledReads_calls l : polledReads l -> Forall isParseCall l.
Proof.
  remember (length l) as n eqn:Hn. revert l Hn.
  induction n as [n IH] using lt_wf_ind. intros l Hn Hp.
  destruct l as [|e l]; [constructor|].
  destruct e as [ts r|d r|d f k r|d r|[err|]|x]; cbn in Hp; try contradiction.
  - constructor; [exact I|]. apply (IH (length l)); [cbn in Hn; lia|reflexivity|exact Hp].
  - destruct l; [|contradiction]. repeat constructor.
  - destruct l as [|[] l]; try contradiction.
    constructor; [exact I|]. constructor; [exact I|].
    apply (IH (length l)); [cbn in Hn; lia|reflexivity|exact Hp].
Qed.

Section MoreWorkerProperties.
Context `{Strconv}.

(** The parser calls the context, the reader and [InsertTradesBatch]
    only. *)
Lemma parse_calls env fs path batch tr res ext :
  run env (parseAndPersistFile fs path batch) tr = (res, ext) ->
  Forall isParseCall ext.
Proof.
  rewrite run_parseAndPersistFile.
  destruct (os_Open fs path) as [e0|[|[header|e0] r]]; cbn zeta;
    try solve [intros [= <- <-]; repeat constructor].
  destruct (negb (len header =? 11)); [intros [= <- <-]; repeat constructor|].
  destruct (checkHeader 0 header expectedHeaders);
    [intros [= <- <-]; repeat constructor|].
  destruct (batch <? 0); [intros [= <- <-]; repeat constructor|].
  destruct (run env _ _) as [res0 ext0] eqn:Hr. unfold loggedAll. cbn.
  intros [= <- <-]. constructor; [exact I|].
  apply polledReads_calls. eapply parseRows_polled. exact Hr.
Qed.

Lemma parse_no_panic env fs path batch tr :
  0 <= batch -> (run env (parseAndPersistFile fs path batch) tr).1 <> None.
Proof.
  intros Hb. rewrite run_parseAndPersistFile.
  destruct (os_Open fs path) as [e0|[|[header|e0] r]]; cbn zeta; try discriminate.
  destruct (negb (len header =? 11)); [discriminate|].
  destruct (checkHeader 0 header expectedHeaders); [discriminate|].
  destruct (Z.ltb_spec batch 0); [lia|].
  unfold loggedAll. cbn. apply parseRows_no_panic.
Qed.

(** What a worker does from the parse on: it fails with the error of the
    parse, or logs the day with the number of trades inserted. *)
Lemma processRun_cases env fs f d tr :
  exists pres pext,
    run env (parseAndPersistFile fs f defaultBatchSize) tr = (Some pres, pext)
    /\ Forall isParseCall pext
    /\ match pres with
       | (_, Some e) => processRun env fs f d tr = (Some (Some (ErrFile f e)), pext)
       | (n, None) =>
           n = len (concat (batches pext))
           /\ exists u,
                processRun env fs f d tr
                = (Some (match u with
                         | Some e => Some (ErrFileUpsert f e)
                         | None => None
                         end),
                   pext ++ [EUpsert d (filepath_Base f) n u])
       end.
Proof.
  unfold processRun.
  pose proof (parse_no_panic env fs f defaultBatchSize tr ltac:(done)) as Hnp.
  destruct (run env (parseAndPersistFile fs f defaultBatchSize) tr)
    as [[[n [e|]]|] pext] eqn:Hrun; [| |done].
  - exists (n, Some e), pext. split; [reflexivity|].
    split; [eapply parse_calls; exact Hrun|reflexivity].
  - exists (n, None), pext. split; [reflexivity|].
    split; [eapply parse_calls; exact Hrun|].
    destruct (parseAndPersistFile_success env fs f defaultBatchSize tr n pext
                ltac:(done) Hrun) as (header & r & trades & _ & _ & -> & Hch).
    split; [rewrite (Chunks_concat _ _ _ Hch); reflexivity|]. eauto.
Qed.

(** X16: a worker never panics, and every error it returns is one of
    the five errors of its own file: the date of the file name, the ledger
    query, the deletion, the parse, or the ledger update. *)
Theorem worker_errors env fs force f tr :
  match (run env (worker fs force f) tr).1 with
  | None => False
  | Some None => True
  | Some (Some e) => fileErrorOf f e
  end.
Proof.
  rewrite run_worker. unfold fileErrorOf.
  destruct (fileDay f) as [d|]; [|cbn; eauto].
  cbn zeta. destruct (env_has env tr d) as [exists_ [e|]]; [cbn; eauto 10|].
  assert (Hprocess : forall tr' es,
            match (loggedAll es (processRun env fs f d tr')).1 with
            | None => False
            | Some None => True
            | Some (Some e) =>
                e = ErrFileDate f
                \/ (exists e', e = ErrFileCheckLog f e')
                \/ (exists e', e = ErrFileDelete f e')
                \/ (exists e', e = ErrFile f e')
                \/ (exists e', e = ErrFileUpsert f e')
            end).
  { intros tr' es.
    destruct (processRun_cases env fs f d tr') as ([n [e|]] & pext & _ & _ & Hp).
    - rewrite Hp. cbn. eauto 10.
    - destruct Hp as (_ & [e|] & ->); cbn; eauto 10. }
  destruct (exists_ && negb force); [exact I|].
  destruct (exists_ && force); [|apply Hprocess].
  destruct (env_delete env _ d); [cbn; eauto 10|apply Hprocess].
Qed.

(** X17: a worker returns no error in two cases only: without [force],
    after the one query that found its day in the ledger; or after it has
    written the day to the ledger, as its last call, with the name of its
    file and as row count the number of trades it inserted. *)
Theorem worker_success env fs force f tr ext :
  run env (worker fs force f) tr = (Some None, ext) ->
  exists d,
    fileDay f = Some d
    /\ ((force = false /\ ext = [EHas d (true, None)])
        \/ exists pre n,
             ext = pre ++ [EUpsert d (filepath_Base f) n None]
             /\ n = len (concat (batches pre))).
Proof.
  rewrite run_worker.
  destruct (fileDay f) as [d|]; [|discriminate]. cbn zeta.
  intros Hrun. exists d. split; [reflexivity|].
  destruct (env_has env tr d) as [exists_ [e|]]; [discriminate|].
  assert (Hprocess : forall tr' (es : list Entry),
            batches es = [] ->
            loggedAll es (processRun env fs f d tr') = (Some None, ext) ->
            exists pre n,
              ext = pre ++ [EUpsert d (filepath_Base f) n None]
              /\ n = len (concat (batches pre))).
  { intros tr' es Hes.
    destruct (processRun_cases env fs f d tr') as ([n [e|]] & pext & _ & _ & Hp).
    - rewrite Hp. discriminate.
    - destruct Hp as (Hn & [e|] & ->); [discriminate|].
      unfold loggedAll. cbn. intros [= <-].
      exists (es ++ pext), n. rewrite <- app_assoc. split; [reflexivity|].
      rewrite batches_app, Hes. exact Hn. }
  destruct exists_, force; cbn [andb negb] in Hrun.
  - right. destruct (env_delete env _ d); [discriminate|].
    eapply Hprocess; [|exact Hrun]. reflexivity.
  - left. injection Hrun as <-. done.
  - right. eapply Hprocess; [|exact Hrun]. reflexivity.
  - right. eapply Hprocess; [|exact Hrun]. reflexivity.
Qed.


(** The calls of a worker: the ledger query, the deletion if there is
    one, the calls of the parser, the ledger update if there is one. *)
Lemma worker_trace env fs force f tr res ext :
  run env (worker fs force f) tr = (res, ext) ->
  ext = []
  \/ exists d h dels pext ups,
       fileDay f = Some d
       /\ ext = EHas d h :: dels ++ pext ++ ups
       /\ (dels = [] \/ (force = true /\ h = (true, None)
                         /\ exists r, dels = [EDelete d r]))
       /\ Forall isParseCall pext
       /\ (ups = []
           \/ exists n u, ups = [EUpsert d (filepath_Base f) n u]
                          /\ n = len (concat (batches pext))).
Proof.
  rewrite run_worker. destruct (fileDay f) as [d|]; [|intros [= _ <-]; left; done].
  cbn zeta. intros Hrun. right. exists d, (env_has env tr d).
  assert (Hprocess : forall tr' (es : list Entry),
            loggedAll es (processRun env fs f d tr') = (res, ext) ->
            exists pext ups,
              ext = es ++ pext ++ ups
              /\ Forall isParseCall pext
              /\ (ups = []
                  \/ exists n u, ups = [EUpsert d (filepath_Base f) n u]
                                 /\ n = len (concat (batches pext)))).
  { intros tr' es.
    destruct (processRun_cases env fs f d tr') as ([n [e|]] & pext & _ & Hcalls & Hp).
    - rewrite Hp. unfold loggedAll. cbn. intros [= _ <-].
      exists pext, []. rewrite app_nil_r. eauto.
    - destruct Hp as (Hn & u & ->). unfold loggedAll. cbn. intros [= _ <-].
      exists pext, [EUpsert d (filepath_Base f) n u]. eauto 10. }
  destruct (env_has env tr d) as [exists_ [e|]] eqn:Hhas.
  { injection Hrun as _ <-. exists [], [], []. repeat split; auto. }
  destruct exists_, force; cbn [andb negb] in Hrun.
  - destruct (env_delete env _ d) as [e|] eqn:Hdel.
    + injection Hrun as _ <-.
      exists [EDelete d (Some e)], [], []. split; [reflexivity|].
      split; [reflexivity|]. split; [right; eauto|]. split; [constructor|]. auto.
    + destruct (Hprocess _ _ Hrun) as (pext & ups & -> & Hcalls & Hups).
      exists [EDelete d None], pext, ups. split; [reflexivity|].
      split; [reflexivity|]. split; [right; eauto|]. split; assumption.
  - injection Hrun as _ <-. exists [], [], []. repeat split; auto.
  - destruct (Hprocess _ _ Hrun) as (pext & ups & -> & Hcalls & Hups).
    exists [], pext, ups. repeat split; auto.
  - destruct (Hprocess _ _ Hrun) as (pext & ups & -> & Hcalls & Hups).
    exists [], pext, ups. repeat split; auto.
Qed.

(** X18: how a worker uses the ledger.  Its first call is the query of
    the day of its file, and it queries once; it calls [DeleteTradesByDate]
    only with [force], for that day, right after a query that found the day
    ingested; and it calls [UpsertIngestionLog] only as its last call, for
    that day, with the name of its file and the number of trades it
    inserted. *)
Theorem worker_ledger_calls env fs force f tr res ext :
  run env (worker fs force f) tr = (res, ext) ->
  (ext <> [] ->
   exists d h rest, fileDay f = Some d /\ ext = EHas d h :: rest
                    /\ forall d' h', EHas d' h' ∉ rest)
  /\ (forall d r, EDelete d r ∈ ext ->
        force = true /\ fileDay f = Some d
        /\ exists rest, ext = EHas d (true, None) :: EDelete d r :: rest)
  /\ (forall d name n u, EUpsert d name n u ∈ ext ->
        fileDay f = Some d /\ name = filepath_Base f
        /\ exists pre, ext = pre ++ [EUpsert d name n u]
                       /\ n = len (concat (batches pre))).
Proof.
  intros Hrun. destruct (worker_trace _ _ _ _ _ _ _ Hrun)
    as [->|(d & h & dels & pext & ups & Hd & -> & Hdels & Hcalls & Hups)].
  { split; [done|]. split; intros *; rewrite elem_of_nil; done. }
  assert (Hparse : forall x, x ∈ pext -> isParseCall x).
  { apply Forall_forall. exact Hcalls. }
  split; [|split].
  - intros _. exists d, h, (dels ++ pext ++ ups). split; [exact Hd|].
    split; [reflexivity|]. intros d' h'. rewrite !elem_of_app.
    intros [Hin|[Hin|Hin]].
    + destruct Hdels as [->|(_ & _ & r & ->)].
      * apply elem_of_nil in Hin. done.
      * apply list_elem_of_singleton in Hin. discriminate.
    + apply Hparse in Hin. exact Hin.
    + destruct Hups as [->|(n & u & -> & _)].
      * apply elem_of_nil in Hin. done.
      * apply list_elem_of_singleton in Hin. discriminate.
  - intros d' r. rewrite elem_of_cons, !elem_of_app.
    intros [Hin|[Hin|[Hin|Hin]]]; [discriminate| | |].
    + destruct Hdels as [->|(-> & -> & r' & ->)].
      * apply elem_of_nil in Hin. done.
      * apply list_elem_of_singleton in Hin. injection Hin as -> ->.
        split; [reflexivity|]. split; [exact Hd|]. eexists. reflexivity.
    + apply Hparse in Hin. destruct Hin.
    + destruct Hups as [->|(n & u & -> & _)].
      * apply elem_of_nil in Hin. done.
      * apply list_elem_of_singleton in Hin. discriminate.
  - intros d' name n u. rewrite elem_of_cons, !elem_of_app.
    intros [Hin|[Hin|[Hin|Hin]]]; [discriminate| | |].
    + destruct Hdels as [->|(_ & _ & r' & ->)].
      * apply elem_of_nil in Hin. done.
      * apply list_elem_of_singleton in Hin. discriminate.
    + apply Hparse in Hin. destruct Hin.
    + destruct Hups as [->|(n' & u' & -> & Hn)].
      * apply elem_of_nil in Hin. done.
      * apply list_elem_of_singleton in Hin. injection Hin as -> -> -> ->.
        split; [exact Hd|]. split; [reflexivity|].
        exists (EHas d h :: dels ++ pext). split.
        -- cbn. rewrite <- !app_assoc. reflexivity.
        -- cbn. rewrite batches_app.
           assert (Hbd : batches dels = []).
           { destruct Hdels as [->|(_ & _ & r' & ->)]; reflexivity. }
           rewrite Hbd. exact Hn.
Qed.

End MoreWorkerProperties.

(** ** The names of the expected files *)

Lemma two_digits_checked : forallFrom (digitsOK 2) 100 0 = true.
Proof. vm_compute. reflexivity. Qed.

Lemma four_digits_checked : forallFrom (digitsOK 4) (Z.to_nat 10000) 0 = true.
Proof. vm_cast_no_check (eq_refl true). Qed. (* brute *)

Lemma digitsOK_elim width x :
  digitsOK width x = true ->
  exists ds, appendInt x width = string_of_list_ascii ds
             /\ length ds = width /\ decimalValue 0 ds = Some x.
Proof.
  unfold digitsOK. cbn zeta. intros Hok. apply andb_true_iff in Hok as [Hlen Hval].
  apply Nat.eqb_eq in Hlen. apply bool_decide_eq_true in Hval.
  exists (list_ascii_of_string (appendInt x width)).
  rewrite string_of_list_ascii_of_string. done.
Qed.

Lemma list_ascii_of_string_app s t :
  list_ascii_of_string (s +:+ t) = list_ascii_of_string s ++ list_ascii_of_string t.
Proof.
  induction s as [|c s IH]; [reflexivity|].
  change (String c s +:+ t) with (String c (s +:+ t)).
  cbn [list_ascii_of_string app]. rewrite IH. reflexivity.
Qed.

Lemma TrimSuffix_app s suffix : TrimSuffix (s +:+ suffix) suffix = s.
Proof.
  unfold TrimSuffix. rewrite list_ascii_of_string_app, rev_app_distr, stripPrefix_app.
  rewrite rev_involutive. apply string_of_list_ascii_of_string.
Qed.

Lemma time_Parse_fileDate_digits d1 d2 m1 m2 y1 y2 y3 y4 year month day :
  decimalValue 0 [y1; y2; y3; y4] = Some year ->
  decimalValue 0 [m1; m2] = Some month ->
  decimalValue 0 [d1; d2] = Some day ->
  validDate year month day = true ->
  time_Parse_fileDate
    (string_of_list_ascii [d1; d2] +:+ "-" +:+ string_of_list_ascii [m1; m2]
     +:+ "-" +:+ string_of_list_ascii [y1; y2; y3; y4])
  = Some (time_Date year month day 0 0 0 0 LocUTC).
Proof.
  intros Hy Hm Hd Hv. unfold time_Parse_fileDate.
  change (list_ascii_of_string _)
    with [d1; d2; "-"%char; m1; m2; "-"%char; y1; y2; y3; y4].
  cbv beta iota. rewrite Hy, Hm, Hd, Hv. reflexivity.
Qed.

(** X19: the day a worker reads off the name of an expected file is the
    business day the name was made from, at midnight in UTC: for a date of
    the years 0 to 9999, the file name [DD-MM-YYYY_NEGOCIOSAVISTA.txt]
    parses back to that date. *)
Theorem fileDay_fileName dir d :
  0 <= Year d <= 9999 ->
  fileDay (filepath_Join dir (fileName d))
  = Some (time_Date (Year d) (Month d) (Day d) 0 0 0 0 LocUTC).
Proof.
  intros Hyear. unfold fileDay, fileName, filepath_Base, filepath_Join.
  cbn [pathName]. rewrite TrimSuffix_app. unfold Format_fileDate.
  unfold Year, Month, Day in *.
  destruct (civilOfDays (tday d)) as [[y m] dd] eqn:Hc. cbn [fst snd] in *.
  destruct (civilOfDays_valid _ _ _ _ Hc) as (_ & Hm & Hd).
  pose proof (daysIn_le_31 m y Hm) as H31.
  destruct (digitsOK_elim 2 dd (forallFrom_spec _ _ 0 dd two_digits_checked ltac:(lia)))
    as (ds & -> & Hlds & Hvds).
  destruct (digitsOK_elim 2 m (forallFrom_spec _ _ 0 m two_digits_checked ltac:(lia)))
    as (ms & -> & Hlms & Hvms).
  destruct (digitsOK_elim 4 y (forallFrom_spec _ _ 0 y four_digits_checked ltac:(lia)))
    as (ys & -> & Hlys & Hvys).
  destruct ds as [|d1 [|d2 [|]]]; try discriminate Hlds.
  destruct ms as [|m1 [|m2 [|]]]; try discriminate Hlms.
  destruct ys as [|y1 [|y2 [|y3 [|y4 [|]]]]]; try discriminate Hlys.
  apply time_Parse_fileDate_digits; try assumption.
  unfold validDate. rewrite !andb_true_iff, !Z.leb_le. lia.
Qed.

(** ** Invariants of the group of workers *)

Section GroupInvariant.
Context {R : Type} `{TradesRepository R}.
Variable Wprog : nat -> R -> Prog (option Err) -> Prop.
Variable Wfin : nat -> R -> option Err -> Prop.
Hypothesis Wret : forall i repo r, Wprog i repo (Ret r) -> Wfin i repo r.
Hypothesis Wpanic : forall i repo, ~ Wprog i repo PanicP.
Hypothesis Wstep : forall i p repo ctx p' repo' entry,
  stepProg p repo ctx = (p', repo', entry) ->
  Wprog i repo p -> Wprog i repo' p'.
Hypothesis Wframe : forall p repo ctx p' repo' entry j w,
  stepProg p repo ctx = (p', repo', entry) ->
  workerHolds Wprog Wfin j repo w -> workerHolds Wprog Wfin j repo' w.

Local Abbreviation Inv := (groupHolds Wprog Wfin).

(** A running program to its end, as a sequence of steps. *)
Lemma runProg_holds i ctx p : forall repo log,
  Wprog i repo p ->
  exists r repo' log',
    runProg i p repo ctx log = (Some r, repo', log')
    /\ Wfin i repo' r
    /\ forall j w, workerHolds Wprog Wfin j repo w ->
                   workerHolds Wprog Wfin j repo' w.
Proof.
  induction p as [a| |ts k IH|d k IH|d f n k IH|d k IH|k IH|x k IH];
    intros repo log Hp.
  - exists a, repo, log. split; [reflexivity|]. split; [apply Wret, Hp|auto].
  - destruct (Wpanic _ _ Hp).
  - cbn [runProg].
    pose proof (Wstep i (VInsert ts k) repo ctx) as Hs.
    pose proof (Wframe (VInsert ts k) repo ctx) as Hf. cbn [stepProg] in Hs, Hf.
    destruct (repo_InsertTradesBatch ts repo) as [r repo1].
    destruct (IH r repo1 (log ++ [(i, EInsert ts r)]) (Hs _ _ _ eq_refl Hp))
      as (r' & repo' & log' & -> & Hfin & Hfr).
    exists r', repo', log'. split; [reflexivity|]. split; [exact Hfin|].
    intros j w Hw. apply Hfr. exact (Hf _ _ _ j w eq_refl Hw).
  - cbn [runProg].
    pose proof (Wstep i (VHas d k) repo ctx) as Hs.
    pose proof (Wframe (VHas d k) repo ctx) as Hf. cbn [stepProg] in Hs, Hf.
    destruct (repo_HasIngestionForDate d repo) as [r repo1].
    destruct (IH r repo1 (log ++ [(i, EHas d r)]) (Hs _ _ _ eq_refl Hp))
      as (r' & repo' & log' & -> & Hfin & Hfr).
    exists r', repo', log'. split; [reflexivity|]. split; [exact Hfin|].
    intros j w Hw. apply Hfr. exact (Hf _ _ _ j w eq_refl Hw).
  - cbn [runProg].
    pose proof (Wstep i (VUpsert d f n k) repo ctx) as Hs.
    pose proof (Wframe (VUpsert d f n k) repo ctx) as Hf. cbn [stepProg] in Hs, Hf.
    destruct (repo_UpsertIngestionLog d f n repo) as [r repo1].
    destruct (IH r repo1 (log ++ [(i, EUpsert d f n r)]) (Hs _ _ _ eq_refl Hp))
      as (r' & repo' & log' & -> & Hfin & Hfr).
    exists r', repo', log'. split; [reflexivity|]. split; [exact Hfin|].
    intros j w Hw. apply Hfr. exact (Hf _ _ _ j w eq_refl Hw).
  - cbn [runProg].
    pose proof (Wstep i (VDelete d k) repo ctx) as Hs.
    pose proof (Wframe (VDelete d k) repo ctx) as Hf. cbn [stepProg] in Hs, Hf.
    destruct (repo_DeleteTradesByDate d repo) as [r repo1].
    destruct (IH r repo1 (log ++ [(i, EDelete d r)]) (Hs _ _ _ eq_refl Hp))
      as (r' & repo' & log' & -> & Hfin & Hfr).
    exists r', repo', log'. split; [reflexivity|]. split; [exact Hfin|].
    intros j w Hw. apply Hfr. exact (Hf _ _ _ j w eq_refl Hw).
  - cbn [runProg].
    pose proof (Wstep i (VDone k) repo ctx _ _ _ eq_refl Hp) as Hs.
    destruct (IH ctx repo (log ++ [(i, EDone ctx)]) Hs)
      as (r' & repo' & log' & -> & Hfin & Hfr).
    exists r', repo', log'. split; [reflexivity|]. split; [exact Hfin|exact Hfr].
  - cbn [runProg].
    pose proof (Wstep i (VRead x k) repo ctx _ _ _ eq_refl Hp) as Hs.
    destruct (IH repo (log ++ [(i, ERead x)]) Hs)
      as (r' & repo' & log' & -> & Hfin & Hfr).
    exists r', repo', log'. split; [reflexivity|]. split; [exact Hfin|exact Hfr].
Qed.

(** A worker returns. *)
Lemma finishWorker_holds g i r :
  g_panic g = false ->
  (forall j w, g_workers g !! j = Some w -> j <> i ->
     workerHolds Wprog Wfin j (g_repo g) w) ->
  Wfin i (g_repo g) r ->
  (forall w, g_workers g !! i = Some w -> ~ isFinished w) ->
  is_Some (g_workers g !! i) ->
  firstError g ->
  Inv (finishWorker g i r).
Proof.
  intros Hpanic Hws Hfin Hrun Hsome [Herr Hnone].
  assert (Hlt : (i < length (g_workers g))%nat) by (apply lookup_lt_is_Some; exact Hsome).
  unfold groupHolds, finishWorker, firstError. cbn.
  split; [exact Hpanic|]. split; [|split].
  - intros j w Hj. apply list_lookup_insert_Some in Hj.
    destruct Hj as [(<- & <- & _)|(Hne & Hj)]; [exact Hfin|].
    apply Hws; [exact Hj|congruence].
  - intros e He. destruct (g_err g) as [e0|] eqn:Hge.
    + injection He as <-. destruct (Herr e0 eq_refl) as [j Hj]. exists j.
      rewrite list_lookup_insert_ne; [exact Hj|].
      intros <-. exact (Hrun _ Hj I).
    + destruct r as [e1|]; [|discriminate]. injection He as <-.
      exists i. apply list_lookup_insert_eq. exact Hlt.
  - intros He j r' Hj. destruct (g_err g) as [e0|] eqn:Hge.
    { discriminate He. }
    destruct r as [e1|]; [discriminate He|].
    apply list_lookup_insert_Some in Hj.
    destruct Hj as [(_ & [= <-] & _)|(_ & Hj)]; [reflexivity|].
    exact (Hnone eq_refl j r' Hj).
Qed.

Lemma stepWorker_holds maxParallel i g :
  Inv g -> Inv (stepWorker maxParallel i g).
Proof.
  intros (Hpanic & Hws & Herr). unfold stepWorker. rewrite Hpanic.
  destruct (g_workers g !! i) as [w|] eqn:Hi; [|done].
  pose proof (Hws i w Hi) as Hw.
  assert (Hlt : (i < length (g_workers g))%nat) by (eapply lookup_lt_Some; exact Hi).
  destruct w as [p|p|r]; [| |done].
  - case_match; [|done].
    unfold groupHolds, setWorker, firstError. cbn.
    split; [exact Hpanic|]. split; [|split].
    + intros j w Hj. apply list_lookup_insert_Some in Hj.
      destruct Hj as [(<- & <- & _)|(_ & Hj)]; [exact Hw|exact (Hws j w Hj)].
    + intros e He. destruct (proj1 Herr e He) as [j Hj]. exists j.
      rewrite list_lookup_insert_ne; [exact Hj|]. intros <-. congruence.
    + intros He j r Hj. apply list_lookup_insert_Some in Hj.
      destruct Hj as [(_ & [=] & _)|(_ & Hj)]. exact (proj2 Herr He j r Hj).
  - assert (Hstep : forall p' repo' entry,
              stepProg p (g_repo g) (g_ctx g) = (p', repo', entry) ->
              Inv (mkGroup repo' (g_ctx g) (g_err g) false
                           (g_log g ++ match entry with
                                       | Some e => [(i, e)]
                                       | None => []
                                       end)
                           (<[i := Running p']> (g_workers g)))).
    { intros p' repo' entry Hs. unfold groupHolds, firstError. cbn.
      split; [reflexivity|]. split; [|split].
      - intros j w Hj. apply list_lookup_insert_Some in Hj.
        destruct Hj as [(<- & <- & _)|(_ & Hj)].
        + exact (Wstep _ _ _ _ _ _ _ Hs Hw).
        + exact (Wframe _ _ _ _ _ _ j w Hs (Hws j w Hj)).
      - intros e He. destruct (proj1 Herr e He) as [j Hj]. exists j.
        rewrite list_lookup_insert_ne; [exact Hj|]. intros <-. congruence.
      - intros He j r Hj. apply list_lookup_insert_Some in Hj.
        destruct Hj as [(_ & [=] & _)|(_ & Hj)]. exact (proj2 Herr He j r Hj). }
    destruct p as [r| |ts k|d k|d f n k|d k|k|x k].
    + apply finishWorker_holds; try assumption.
      * intros j w Hj _. exact (Hws j w Hj).
      * apply Wret. exact Hw.
      * intros w Hi'. rewrite Hi in Hi'. injection Hi' as <-. exact id.
      * rewrite Hi. eauto.
    + destruct (Wpanic _ _ Hw).
    + destruct (stepProg (VInsert ts k) (g_repo g) (g_ctx g)) as [[p' repo'] entry] eqn:Hs.
      exact (Hstep _ _ _ eq_refl).
    + destruct (stepProg (VHas d k) (g_repo g) (g_ctx g)) as [[p' repo'] entry] eqn:Hs.
      exact (Hstep _ _ _ eq_refl).
    + destruct (stepProg (VUpsert d f n k) (g_repo g) (g_ctx g)) as [[p' repo'] entry] eqn:Hs.
      exact (Hstep _ _ _ eq_refl).
    + destruct (stepProg (VDelete d k) (g_repo g) (g_ctx g)) as [[p' repo'] entry] eqn:Hs.
      exact (Hstep _ _ _ eq_refl).
    + destruct (stepProg (VDone k) (g_repo g) (g_ctx g)) as [[p' repo'] entry] eqn:Hs.
      exact (Hstep _ _ _ eq_refl).
    + destruct (stepProg (VRead x k) (g_repo g) (g_ctx g)) as [[p' repo'] entry] eqn:Hs.
      exact (Hstep _ _ _ eq_refl).
Qed.

Lemma act_holds maxParallel a g : Inv g -> Inv (act maxParallel a g).
Proof.
  destruct a as [i|e]; [apply stepWorker_holds|].
  intros (Hpanic & Hws & Herr). done.
Qed.

Lemma completeWorker_holds g i :
  Inv g ->
  Inv (completeWorker g i)
  /\ (forall w, g_workers (completeWorker g i) !! i = Some w -> isFinished w)
  /\ (forall j w, g_workers g !! j = Some w -> isFinished w ->
        exists w', g_workers (completeWorker g i) !! j = Some w' /\ isFinished w')
  /\ length (g_workers (completeWorker g i)) = length (g_workers g).
Proof.
  intros (Hpanic & Hws & Herr). unfold completeWorker. rewrite Hpanic.
  destruct (g_workers g !! i) as [w|] eqn:Hi.
  2:{ split; [done|]. split; [intros w Hw; congruence|]. split; [eauto|done]. }
  pose proof (Hws i w Hi) as Hw.
  assert (Hrun : forall p,
            Wprog i (g_repo g) p -> ~ isFinished w ->
            let g' := match runProg i p (g_repo g) (g_ctx g) (g_log g) with
                      | (Some r, repo, log) =>
                          finishWorker
                            (mkGroup repo (g_ctx g) (g_err g) false log
                                     (g_workers g)) i r
                      | (None, repo, log) =>
                          mkGroup repo (g_ctx g) (g_err g) true log (g_workers g)
                      end in
            Inv g'
            /\ (forall w, g_workers g' !! i = Some w -> isFinished w)
            /\ (forall j w, g_workers g !! j = Some w -> isFinished w ->
                  exists w', g_workers g' !! j = Some w' /\ isFinished w')
            /\ length (g_workers g') = length (g_workers g)).
  { intros p Hp Hnf. cbn zeta.
    destruct (runProg_holds i (g_ctx g) p (g_repo g) (g_log g) Hp)
      as (r & repo' & log' & -> & Hfin & Hfr).
    split; [|split; [|split]].
    - apply finishWorker_holds; cbn; try assumption; try reflexivity.
      + intros j w' Hj _. apply Hfr. exact (Hws j w' Hj).
      + intros w' Hi'. rewrite Hi in Hi'. injection Hi' as <-. exact Hnf.
      + rewrite Hi. eauto.
    - unfold finishWorker. cbn. intros w' Hw'.
      apply list_lookup_insert_Some in Hw'.
      destruct Hw' as [(_ & <- & _)|(Hne & _)]; [exact I|done].
    - unfold finishWorker. cbn. intros j w' Hj Hf.
      destruct (decide (i = j)) as [<-|Hne].
      + rewrite Hi in Hj. injection Hj as <-. contradiction.
      + exists w'. rewrite list_lookup_insert_ne by exact Hne. done.
    - unfold finishWorker. cbn. apply length_insert. }
  destruct w as [p|p|r].
  - apply Hrun; [exact Hw|exact id].
  - apply Hrun; [exact Hw|exact id].
  - split; [done|]. split; [intros w Hw'; rewrite Hi in Hw'; injection Hw' as <-; exact I|].
    split; [eauto|done].
Qed.

(** After [g.Wait()] no goroutine panicked, every worker has returned, and
    what is known of the workers holds of what they returned. *)
Lemma runGroup_holds maxParallel sched g :
  Inv g ->
  let g' := runGroup maxParallel sched g in
  Inv g'
  /\ length (g_workers g') = length (g_workers g)
  /\ forall i w, g_workers g' !! i = Some w -> isFinished w.
Proof.
  intros Hg. cbn zeta. unfold runGroup.
  assert (Hsched : Inv (fold_left (fun g a => act maxParallel a g) sched g)
                   /\ length (g_workers (fold_left (fun g a => act maxParallel a g) sched g))
                      = length (g_workers g)).
  { revert g Hg. induction sched as [|a sched IH]; intros g Hg; cbn; [done|].
    destruct (IH _ (act_holds maxParallel a g Hg)) as [Hinv Hlen].
    split; [exact Hinv|]. rewrite Hlen.
    destruct a as [i|e]; [|reflexivity]. cbn. unfold stepWorker.
    destruct (g_panic g); [reflexivity|].
    destruct (g_workers g !! i) as [[p|p|r]|]; try reflexivity.
    - case_match; [apply length_insert|reflexivity].
    - destruct p; cbn; try reflexivity; try apply length_insert;
        repeat case_match; apply length_insert. }
  set (g1 := fold_left _ sched g) in *. clearbody g1.
  destruct Hsched as [Hg1 Hlen1]. rewrite <- Hlen1. clear Hlen1 Hg g.
  assert (Hall : forall l g,
            Inv g ->
            let g' := fold_left completeWorker l g in
            Inv g'
            /\ length (g_workers g') = length (g_workers g)
            /\ (forall j w, g_workers g !! j = Some w -> isFinished w ->
                  exists w', g_workers g' !! j = Some w' /\ isFinished w')
            /\ (forall i w, i ∈ l -> g_workers g' !! i = Some w -> isFinished w)).
  { induction l as [|i l IH]; intros g Hg; cbn.
    - split; [exact Hg|]. split; [reflexivity|]. split; [eauto|].
      intros i w Hi. apply elem_of_nil in Hi. done.
    - destruct (completeWorker_holds g i Hg) as (Hinv & Hfin & Hkeep & Hlen).
      destruct (IH _ Hinv) as (Hinv' & Hlen' & Hkeep' & Hfin').
      split; [exact Hinv'|]. split; [congruence|]. split.
      + intros j w Hj Hf. destruct (Hkeep j w Hj Hf) as (w' & Hj' & Hf').
        exact (Hkeep' j w' Hj' Hf').
      + intros j w Hj Hw. apply elem_of_cons in Hj as [->|Hj].
        * assert (Hlt : (i < length (g_workers (completeWorker g i)))%nat).
          { rewrite <- Hlen'. eapply lookup_lt_Some. exact Hw. }
          apply lookup_lt_is_Some in Hlt. destruct Hlt as [w0 Hw0].
          destruct (Hkeep' i w0 Hw0 (Hfin w0 Hw0)) as (w' & Hw' & Hf').
          congruence.
        * exact (Hfin' j w Hj Hw). }
  destruct (Hall (seq 0 (length (g_workers g1))) g1 Hg1) as (Hinv & Hlen & _ & Hfin).
  split; [exact Hinv|]. split; [exact Hlen|].
  intros i w Hi. apply (Hfin i w); [|exact Hi].
  apply elem_of_seq. split; [lia|]. rewrite <- Hlen. cbn.
  eapply lookup_lt_Some. exact Hi.
Qed.

End GroupInvariant.

(** ** What [ProcessDirectory] returns *)

Lemma leaves_impl {A : Type} (P P' : A -> Prop) (Q Q' : Prop) (p : Prog A) :
  (forall a, P a -> P' a) -> (Q -> Q') -> leaves P Q p -> leaves P' Q' p.
Proof.
  intros HP HQ. induction p as [a| |ts k IH|d k IH|d f n k IH|d k IH|k IH|x k IH];
    cbn; auto.
Qed.

Lemma leaves_bind {A B : Type} (P : B -> Prop) (Q : Prop) (p : Prog A)
      (k : A -> Prog B) :
  leaves (fun a => leaves P Q (k a)) Q p -> leaves P Q (p ≫= k).
Proof.
  induction p as [a| |ts h IH|d h IH|d f n h IH|d h IH|h IH|x h IH];
    cbn; auto.
Qed.

Lemma leaves_stepProg {R : Type} `{TradesRepository R} (P : option Err -> Prop)
      (Q : Prop) p (repo : R) ctx p' repo' entry :
  stepProg p repo ctx = (p', repo', entry) -> leaves P Q p -> leaves P Q p'.
Proof.
  destruct p as [a| |ts k|d k|d f n k|d k|k|x k]; cbn.
  - intros [= <- _ _]. done.
  - intros [= <- _ _]. done.
  - destruct (repo_InsertTradesBatch ts repo). intros [= <- _ _] Hl. apply Hl.
  - destruct (repo_HasIngestionForDate d repo). intros [= <- _ _] Hl. apply Hl.
  - destruct (repo_UpsertIngestionLog d f n repo). intros [= <- _ _] Hl. apply Hl.
  - destruct (repo_DeleteTradesByDate d repo). intros [= <- _ _] Hl. apply Hl.
  - intros [= <- _ _] Hl. apply Hl.
  - intros [= <- _ _] Hl. apply Hl.
Qed.

Section DirectoryProperties.
Context `{Strconv}.

Lemma flush_leaves {B : Type} (P : B -> Prop) (Q : Prop) buf
      (k : option Err * list Trade -> Prog B) :
  (forall r, leaves P Q (k r)) -> leaves P Q (flush buf ≫= k).
Proof.
  intros Hk. unfold flush. destruct (len buf =? 0); cbn; [apply Hk|].
  intros [e|]; cbn; apply Hk.
Qed.

(** No way through the row loop ends in a panic. *)
Lemma parseRows_leaves batch r : forall buf lineNumber total,
  leaves (fun _ => True) False (parseRows batch r buf lineNumber total).
Proof.
  induction r as [|x r IH]; intros buf lineNumber total.
  - cbn -[flush]. intros [e|]; [exact I|]. cbn -[flush].
    apply flush_leaves. intros [[e|] b]; exact I.
  - cbn -[flush len recordToTrade]. intros [e|]; [exact I|].
    destruct x as [rec|e]; cbn -[flush len recordToTrade].
    + destruct (negb (len rec =? len expectedHeaders)) eqn:Hlen; [exact I|].
      apply negb_false_iff, Z.eqb_eq in Hlen.
      pose proof (recordToTrade_no_panic rec Hlen) as Hnp.
      destruct (recordToTrade rec) as [t|e|]; [|exact I|done].
      destruct (batch <=? len (buf ++ [t])); [|apply IH].
      apply flush_leaves. intros [[e|] b]; [exact I|apply IH].
    + destruct (isEOF e); [|exact I].
      apply flush_leaves. intros [[e'|] b]; exact I.
Qed.

Lemma parseAndPersistFile_leaves fs path batch :
  0 <= batch -> leaves (fun _ => True) False (parseAndPersistFile fs path batch).
Proof.
  intros Hb. unfold parseAndPersistFile.
  destruct (os_Open fs path) as [e|[|[header|e] r]]; try exact I.
  cbn -[len parseRows].
  destruct (negb (len header =? len expectedHeaders)); [exact I|].
  destruct (checkHeader 0 header expectedHeaders); [exact I|].
  destruct (Z.ltb_spec batch 0); [lia|]. apply parseRows_leaves.
Qed.

(** Whatever the repository and the context answer, a worker ends without
    a panic, with no error or with an error of its file. *)
Lemma worker_leaves fs force f : leaves (resultOf f) False (worker fs force f).
Proof.
  assert (Hprocess : forall d,
            leaves (resultOf f) False
              ('(total, err) ← parseAndPersistFile fs f defaultBatchSize;
               match err with
               | Some e => Ret (Some (ErrFile f e))
               | None =>
                   err ← UpsertIngestionLog d (filepath_Base f) total;
                   match err with
                   | Some e => Ret (Some (ErrFileUpsert f e))
                   | None => Ret None
                   end
               end)).
  { intros d. apply leaves_bind.
    eapply leaves_impl; [| |apply (parseAndPersistFile_leaves fs f defaultBatchSize); done];
      [|exact id].
    intros [total [e|]] _; cbn.
    - intros e' [= <-]. unfold fileErrorOf. eauto 10.
    - intros [e|]; cbn; intros e' [=]; subst. unfold fileErrorOf. eauto 10. }
  unfold worker. destruct (time_Parse_fileDate _) as [d|]; cbn -[parseAndPersistFile].
  2:{ intros e [= <-]. unfold fileErrorOf. eauto. }
  intros [exists_ [e|]]; cbn -[parseAndPersistFile].
  { intros e' [= <-]. unfold fileErrorOf. eauto 10. }
  destruct (exists_ && negb force); [intros e [=]|].
  destruct (exists_ && force); [|apply Hprocess].
  cbn -[parseAndPersistFile]. intros [e|]; [|apply Hprocess].
  cbn. intros e' [= <-]. unfold fileErrorOf. eauto 10.
Qed.


Lemma clampDays_range nDays : 1 <= clampDays nDays <= 7.
Proof.
  unfold clampDays. destruct (Z.ltb_spec nDays 1); cbn zeta.
  - change (7 <? 1) with false. cbn iota. lia.
  - destruct (Z.ltb_spec 7 nDays); lia.
Qed.

Lemma maxParallelOf_range parallel numCPU :
  1 <= maxParallelOf parallel numCPU <= 7.
Proof.
  unfold maxParallelOf. cbn zeta. destruct (Z.ltb_spec 0 parallel).
  - destruct (Z.ltb_spec 7 parallel); lia.
  - destruct (Z.ltb_spec (Z.pos numCPU) 7); lia.
Qed.

End DirectoryProperties.

Section DirectoryGroup.
Context {R : Type} `{TradesRepository R} `{Strconv}.

(** The group that [ProcessDirectory] starts for the [files]. *)
Lemma initial_group_holds (Wprog : nat -> R -> Prog (option Err) -> Prop)
      (Wfin : nat -> R -> option Err -> Prop) fs force files repo ctx :
  (forall i f, files !! i = Some f -> Wprog i repo (worker fs force f)) ->
  groupHolds Wprog Wfin
    (mkGroup repo ctx None false []
             (map (fun f => Pending (worker fs force f)) files)).
Proof.
  intros Hinit. unfold groupHolds, firstError. cbn.
  split; [reflexivity|]. split; [|split].
  - intros i w Hi. apply list_lookup_fmap_Some in Hi as (f & -> & Hf).
    cbn. apply Hinit. exact Hf.
  - discriminate.
  - intros _ i r Hi. apply list_lookup_fmap_Some in Hi as (f & [=] & _).
Qed.

(** X20: [ProcessDirectory] never panics, and an error it returns is
    the failure of [os.Stat] on an expected file, the list of the missing
    files, or an error of one of the expected files, which carries the path
    of that file: the name that does not parse as a date, the failed ledger
    query, deletion or update, or the error of the parse. *)
Theorem ProcessDirectory_errors fs now numCPU sched ctx dir (repo : R)
        nDays parallel force :
  match (ProcessDirectory fs now numCPU sched ctx dir repo nDays parallel force).1.1 with
  | Ok _ => True
  | Panicked => False
  | Raise e => directoryError (expectedFiles dir nDays now) e
  end.
Proof.
  unfold ProcessDirectory, expectedFiles. cbn zeta.
  destruct (LastNBusinessDays_total (clampDays nDays) now)
    as (dates & -> & _); [pose proof (clampDays_range nDays); lia|].
  pose proof (statFiles_spec fs dir dates [] []) as Hstat.
  destruct (statFiles fs dir dates [] []) as [e|[files missing]].
  { destruct Hstat as (d & e0 & Hd & _ & ->). cbn. left.
    eexists _, _. split; [reflexivity|].
    apply list_elem_of_fmap. exists d. done. }
  destruct Hstat as (-> & _ & _). cbn [app].
  destruct (0 <? len missing); [cbn; right; left; eauto|].
  set (files := map (fun d => filepath_Join dir (fileName d)) dates).
  set (Wprog := fun (i : nat) (_ : R) (p : Prog (option Err)) =>
                  exists f, files !! i = Some f /\ leaves (resultOf f) False p).
  set (Wfin := fun (i : nat) (_ : R) (r : option Err) =>
                 exists f, files !! i = Some f /\ resultOf f r).
  destruct (runGroup_holds Wprog Wfin) with
    (maxParallel := maxParallelOf parallel numCPU) (sched := sched)
    (g := mkGroup repo ctx None false []
                  (map (fun f => Pending (worker fs force f)) files))
    as ((Hpanic & Hws & Herr & _) & _ & _).
  - intros i r0 r (f & Hf & Hl). exists f. done.
  - intros i r0 (f & _ & []).
  - intros i p r0 c p' r1 entry Hs (f & Hf & Hl). exists f. split; [exact Hf|].
    eapply leaves_stepProg; eassumption.
  - intros p r0 c p' r1 entry j w _ Hw. destruct w; exact Hw.
  - apply initial_group_holds. intros i f Hf. exists f. split; [exact Hf|].
    apply worker_leaves.
  - cbn. unfold groupResult. rewrite Hpanic.
    destruct (g_err _) as [e|] eqn:He; cbn; [|exact I].
    destruct (Herr e eq_refl) as [i Hi].
    destruct (Hws i _ Hi) as (f & Hf & Hres). right. right.
    exists f. split; [eapply list_elem_of_lookup_2; exact Hf|]. apply Hres. reflexivity.
Qed.

End DirectoryGroup.

(** ** The semaphore and the order of the launches *)

Lemma runningCount_cons w ws :
  runningCount (w :: ws) = (if isRunning w then 1 else 0) + runningCount ws.
Proof.
  unfold runningCount, len. rewrite filter_cons.
  destruct (isRunning w).
  - rewrite decide_True by reflexivity. cbn [length]. lia.
  - rewrite decide_False by discriminate. lia.
Qed.

Lemma runningCount_insert ws : forall (i : nat) w0 w,
  ws !! i = Some w0 ->
  runningCount (<[i := w]> ws)
  = runningCount ws - (if isRunning w0 then 1 else 0)
    + (if isRunning w then 1 else 0).
Proof.
  induction ws as [|x ws IH]; intros i w0 w Hi; [discriminate|].
  destruct i as [|i]; cbn in Hi.
  - injection Hi as ->. change (<[0%nat := w]> (w0 :: ws)) with (w :: ws).
    rewrite !runningCount_cons. lia.
  - change (<[S i := w]> (x :: ws)) with (x :: <[i := w]> ws).
    rewrite !runningCount_cons, (IH i w0 w Hi). lia.
Qed.

Lemma launchedInOrder_insert ws (i : nat) w0 w :
  launchedInOrder ws -> ws !! i = Some w0 ->
  (isPending w = false) ->
  (isPending w0 = true ->
   forallb (fun w => negb (isPending w)) (take i ws) = true) ->
  launchedInOrder (<[i := w]> ws).
Proof.
  intros Hord Hi Hw Hbefore a b wa wb Hab Ha Hb Hpb.
  apply list_lookup_insert_Some in Ha, Hb.
  destruct Ha as [(<- & <- & _)|(Hna & Ha)]; [exact Hw|].
  destruct Hb as [(<- & <- & _)|(Hnb & Hb)].
  - destruct (isPending w0) eqn:Hp0.
    + specialize (Hbefore eq_refl). rewrite forallb_forall in Hbefore.
      apply negb_true_iff. apply Hbefore. apply list_elem_of_In.
      apply (list_elem_of_lookup_2 _ a). rewrite lookup_take_lt by lia. exact Ha.
    + exact (Hord a i wa w0 Hab Ha Hi Hp0).
  - exact (Hord a b wa wb Hab Ha Hb Hpb).
Qed.

Section Scheduling.
Context {R : Type} `{TradesRepository R}.

Lemma stepWorker_slots maxParallel i (g : Group R) :
  runningCount (g_workers g) <= maxParallel ->
  launchedInOrder (g_workers g) ->
  runningCount (g_workers (stepWorker maxParallel i g)) <= maxParallel
  /\ launchedInOrder (g_workers (stepWorker maxParallel i g)).
Proof.
  intros Hcount Hord. unfold stepWorker.
  destruct (g_panic g); [done|].
  destruct (g_workers g !! i) as [w|] eqn:Hi; [|done].
  destruct w as [p|p|r]; [| |done].
  - destruct (forallb _ _ && _) eqn:Hcond; [|done].
    apply andb_true_iff in Hcond as [Hbefore Hroom]. apply Z.ltb_lt in Hroom.
    unfold setWorker. cbn. split.
    + rewrite (runningCount_insert _ _ _ _ Hi). cbn.
      fold (runningCount (g_workers g)) in Hroom. lia.
    + eapply launchedInOrder_insert; eauto.
  - assert (Hkeep : forall w,
              isPending w = false ->
              runningCount (<[i := w]> (g_workers g)) <= maxParallel
              /\ launchedInOrder (<[i := w]> (g_workers g))).
    { intros w Hw. split.
      - rewrite (runningCount_insert _ _ _ _ Hi). cbn. destruct (isRunning w); lia.
      - eapply launchedInOrder_insert; eauto. discriminate. }
    destruct p as [r| |ts k|d k|d f n k|d k|k|x k]; cbn;
      try done; repeat case_match; cbn; apply Hkeep; reflexivity.
Qed.

(** X21: at every point of every schedule at most [maxParallel]
    workers hold a slot of the semaphore, [maxParallel] being the argument
    [parallel] when it is positive and the number of CPUs otherwise, capped
    at 7; and the workers are launched in the order of the files. *)
Theorem semaphore_bound `{Strconv} fs force files (repo : R) ctx sched
        parallel numCPU :
  let maxParallel := maxParallelOf parallel numCPU in
  let g := fold_left (fun g a => act maxParallel a g) sched
                     (mkGroup repo ctx None false []
                              (map (fun f => Pending (worker fs force f)) files)) in
  1 <= maxParallel <= 7
  /\ (0 < parallel <= 7 -> maxParallel = parallel)
  /\ runningCount (g_workers g) <= maxParallel
  /\ launchedInOrder (g_workers g).
Proof.
  cbn zeta. pose proof (maxParallelOf_range parallel numCPU) as Hmp.
  split; [exact Hmp|]. split.
  { intros Hp. unfold maxParallelOf. cbn zeta.
    destruct (Z.ltb_spec 0 parallel); [|lia].
    destruct (Z.ltb_spec 7 parallel); lia. }
  set (mp := maxParallelOf parallel numCPU) in *. clearbody mp.
  assert (Hall : forall sched (g : Group R),
            runningCount (g_workers g) <= mp ->
            launchedInOrder (g_workers g) ->
            runningCount (g_workers (fold_left (fun g a => act mp a g) sched g)) <= mp
            /\ launchedInOrder
                 (g_workers (fold_left (fun g a => act mp a g) sched g))).
  { clear sched. induction sched as [|a sched IH]; intros g Hc Ho; cbn; [done|].
    apply IH; destruct a as [i|e]; cbn; try assumption;
      apply stepWorker_slots; assumption. }
  apply Hall; cbn.
  - assert (Hzero : forall l : list Path,
              runningCount (map (fun f => Pending (worker fs force f)) l) = 0).
    { induction l as [|f l IHl]; [reflexivity|].
      cbn [map]. rewrite runningCount_cons, IHl. reflexivity. }
    rewrite Hzero. lia.
  - intros i j w w' _ _ Hj. apply list_lookup_fmap_Some in Hj as (f & -> & _).
    discriminate.
Qed.

End Scheduling.

(** ** Idempotence on the in-memory repository of the tests *)

Lemma logs_bind {A : Type} f (p : Prog A) (k : A -> Prog (option Err)) :
  (forall a, logs f (k a)) -> logs f (p ≫= k).
Proof.
  intros Hk. induction p as [a| |ts h IH|d h IH|d fn n h IH|d h IH|h IH|x h IH];
    cbn; auto.
Qed.

Section Idempotence.
Context `{Strconv}.

Lemma worker_not_success fs force f r : worker fs force f = Ret r -> r <> None.
Proof.
  unfold worker. destruct (time_Parse_fileDate _); [discriminate|].
  intros [= <-]. discriminate.
Qed.

(** The first call of a worker answered by the in-memory repository. *)
Lemma worker_first_step fs force f (repo : fakeRepoIngestion) ctx p' repo' entry :
  stepProg (worker fs force f) repo ctx = (p', repo', entry) ->
  repo' = repo
  /\ (p' = worker fs force f \/ logs f p' \/ (dayLogged repo f /\ exists x, p' = Ret x)).
Proof.
  unfold worker, dayLogged. fold (fileDay f).
  destruct (fileDay f) as [d|] eqn:Hd.
  2:{ cbn. intros [= <- <- _]. split; [reflexivity|]. left. reflexivity. }
  cbn -[parseAndPersistFile]. intros [= <- <- _]. split; [reflexivity|].
  assert (Hprocess :
            logs f ('(total, err) ← parseAndPersistFile fs f defaultBatchSize;
                    match err with
                    | Some e => Ret (Some (ErrFile f e))
                    | None =>
                        err ← UpsertIngestionLog d (filepath_Base f) total;
                        match err with
                        | Some e => Ret (Some (ErrFileUpsert f e))
                        | None => Ret None
                        end
                    end)).
  { apply logs_bind. intros [total [e|]]; cbn; [exact I|].
    left. split; [exact Hd|]. intros [e|]; eauto. }
  destruct (has repo !! d) as [[|]|] eqn:Hhas; cbn -[parseAndPersistFile].
  - destruct force; cbn -[parseAndPersistFile].
    + right. left. intros [e|]; [exact I|exact Hprocess].
    + right. right. split; [eauto|eauto].
  - right. left. exact Hprocess.
  - right. left. exact Hprocess.
Qed.

(** A step of a program that is to log the day of [f]. *)
Lemma logs_step f p (repo : fakeRepoIngestion) ctx p' repo' entry :
  stepProg p repo ctx = (p', repo', entry) ->
  logs f p ->
  logs f p' \/ (dayLogged repo' f /\ exists x, p' = Ret x).
Proof.
  destruct p as [[e|]| |ts k|d k|d fn n k|d k|k|x k]; cbn.
  - intros [= <- _ _] _. left. exact I.
  - intros _ [].
  - intros [= <- _ _] _. left. exact I.
  - intros [= <- _ _] Hl. left. apply Hl.
  - intros [= <- _ _] Hl. left. apply Hl.
  - intros [= <- <- _] [[Hd Hk]|Hl]; [|left; apply Hl].
    right. split; [|apply Hk]. exists d. split; [exact Hd|]. cbn.
    apply lookup_insert_eq.
  - intros [= <- _ _] Hl. left. apply Hl.
  - intros [= <- _ _] Hl. left. apply Hl.
  - intros [= <- _ _] Hl. left. exact Hl.
Qed.

(** No call takes a day out of the ledger. *)
Lemma dayLogged_step p (repo : fakeRepoIngestion) ctx p' repo' entry f :
  stepProg p repo ctx = (p', repo', entry) ->
  dayLogged repo f -> dayLogged repo' f.
Proof.
  intros Hs (d & Hd & Hhas). exists d. split; [exact Hd|].
  destruct p as [a| |ts k|d0 k|d0 fn n k|d0 k|k|x k]; cbn in Hs;
    injection Hs as _ <- _; cbn; try exact Hhas.
  destruct (decide (d0 = d)) as [->|Hne].
  - apply lookup_insert_eq.
  - rewrite lookup_insert_ne by exact Hne. exact Hhas.
Qed.

(** After a run that returned no error the expected files were all
    found, and the day of each is in the ledger. *)
Lemma success_logged fs now numCPU sched ctx dir
      (repo : fakeRepoIngestion) nDays parallel force repo1 log1 :
  ProcessDirectory fs now numCPU sched ctx dir repo nDays parallel force
  = (Ok tt, repo1, log1) ->
  exists dates,
    LastNBusinessDays (clampDays nDays) now = Some dates
    /\ statFiles fs dir dates [] []
       = inr (map (fun d => filepath_Join dir (fileName d)) dates, [])
    /\ (forall d, d ∈ dates -> os_Stat fs (filepath_Join dir (fileName d)) = StatOk)
    /\ forall f, f ∈ map (fun d => filepath_Join dir (fileName d)) dates ->
                 dayLogged repo1 f.
Proof.
  unfold ProcessDirectory. cbn zeta.
  destruct (LastNBusinessDays (clampDays nDays) now) as [dates|]; [|discriminate].
  pose proof (statFiles_spec fs dir dates [] []) as Hstat.
  destruct (statFiles fs dir dates [] []) as [e|[files missing]] eqn:Hsf;
    [discriminate|].
  destruct Hstat as (-> & Hmissing & Hnoerr). cbn [app] in *.
  destruct (0 <? len missing) eqn:Hempty; [discriminate|].
  destruct missing as [|name missing]; [|discriminate Hempty].
  set (files := map (fun d => filepath_Join dir (fileName d)) dates).
  intros Hrun. exists dates. split; [reflexivity|]. split; [exact Hsf|].
  split.
  { intros d Hd.
    destruct (os_Stat fs (filepath_Join dir (fileName d))) as [| |e0] eqn:Hs;
      [reflexivity| |destruct (Hnoerr d e0 Hd Hs)].
    assert (Hin : fileName d
                  ∈ filter (fun name => isNotExist (os_Stat fs (filepath_Join dir name)))
                           (map fileName dates)).
    { apply list_elem_of_filter. split; [rewrite Hs; exact I|].
      apply list_elem_of_fmap. exists d. done. }
    rewrite <- Hmissing in Hin. inversion Hin. }
  revert Hrun.
  set (Wprog := fun (i : nat) (repo : fakeRepoIngestion) (p : Prog (option Err)) =>
                  exists f, files !! i = Some f
                    /\ leaves (fun _ => True) False p
                    /\ (p = worker fs force f \/ logs f p
                        \/ (dayLogged repo f /\ exists x, p = Ret x))).
  set (Wfin := fun (i : nat) (repo : fakeRepoIngestion) (r : option Err) =>
                 exists f, files !! i = Some f /\ (r = None -> dayLogged repo f)).
  destruct (runGroup_holds Wprog Wfin) with
    (maxParallel := maxParallelOf parallel numCPU) (sched := sched)
    (g := mkGroup repo ctx None false []
                  (map (fun f => Pending (worker fs force f)) files))
    as ((Hpanic & Hws & _ & Hnone) & Hlen & Hfin).
  - intros i r0 r (f & Hf & _ & Hp). exists f. split; [exact Hf|].
    intros ->. destruct Hp as [Hp|[Hp|[Hp _]]]; [|destruct Hp|exact Hp].
    symmetry in Hp. destruct (worker_not_success _ _ _ _ Hp eq_refl).
  - intros i r0 (f & _ & [] & _).
  - intros i p r0 c p' r1 entry Hs (f & Hf & Hl & Hp). exists f.
    split; [exact Hf|]. split; [eapply leaves_stepProg; eassumption|].
    destruct Hp as [->|[Hp|[Hp [x ->]]]].
    + destruct (worker_first_step _ _ _ _ _ _ _ _ Hs) as [-> Hp']. exact Hp'.
    + right. exact (logs_step _ _ _ _ _ _ _ Hs Hp).
    + cbn in Hs. injection Hs as <- <- _. right. right. eauto.
  - intros p r0 c p' r1 entry j w Hs Hw.
    destruct w as [q|q|r]; cbn in Hw |- *.
    + destruct Hw as (f & Hf & Hl & Hq). exists f. split; [exact Hf|].
      split; [exact Hl|]. destruct Hq as [Hq|[Hq|[Hq Hx]]]; auto.
      right. right. split; [|exact Hx]. eapply dayLogged_step; eassumption.
    + destruct Hw as (f & Hf & Hl & Hq). exists f. split; [exact Hf|].
      split; [exact Hl|]. destruct Hq as [Hq|[Hq|[Hq Hx]]]; auto.
      right. right. split; [|exact Hx]. eapply dayLogged_step; eassumption.
    + destruct Hw as (f & Hf & Hq). exists f. split; [exact Hf|].
      intros Hr. eapply dayLogged_step; [eassumption|]. apply Hq. exact Hr.
  - apply initial_group_holds. intros i f Hf. exists f. split; [exact Hf|].
    split; [|left; reflexivity].
    eapply leaves_impl; [| |apply worker_leaves]; [intros; exact I|exact id].
  - set (g1 := runGroup (maxParallelOf parallel numCPU) sched _) in *.
    unfold groupResult. rewrite Hpanic.
    destruct (g_err g1) as [e|] eqn:Herr; [discriminate|].
    intros [= <- <-].
    intros f Hf. apply list_elem_of_lookup in Hf as [i Hi].
    assert (Hlt : (i < length (g_workers g1))%nat).
    { rewrite Hlen. cbn. rewrite length_map. eapply lookup_lt_Some. exact Hi. }
    apply lookup_lt_is_Some in Hlt. destruct Hlt as [w Hw].
    pose proof (Hfin i w Hw) as Hwf. destruct w as [q|q|r]; try destruct Hwf.
    pose proof (Hnone eq_refl i r Hw) as ->.
    destruct (Hws i _ Hw) as (f' & Hf' & Hd). fold files in Hi. rewrite Hi in Hf'.
    injection Hf' as <-. apply Hd. reflexivity.
Qed.

(** X22: on the in-memory repository of the tests, whose ledger holds a
    day once [UpsertIngestionLog] was called for it, [ProcessDirectory] is
    idempotent: after a run that returned no error, a run without [force]
    over the same directory at the same time returns no error under every
    schedule, leaves the repository as it is, and calls nothing but the
    ledger queries. *)
Theorem rerun_inserts_nothing fs now numCPU sched ctx dir
        (repo : fakeRepoIngestion) nDays parallel force repo1 log1 :
  ProcessDirectory fs now numCPU sched ctx dir repo nDays parallel force
  = (Ok tt, repo1, log1) ->
  forall numCPU' sched' ctx' parallel',
  exists log2,
    ProcessDirectory fs now numCPU' sched' ctx' dir repo1 nDays parallel' false
    = (Ok tt, repo1, log2)
    /\ Forall isQuery log2.
Proof.
  intros Hrun numCPU' sched' ctx' parallel'.
  destruct (success_logged _ _ _ _ _ _ _ _ _ _ _ _ Hrun)
    as (dates & Hdates & Hstat & _ & Hlogged).
  unfold ProcessDirectory. cbn zeta. rewrite Hdates, Hstat.
  change (0 <? len []) with false. cbv iota.
  set (files := map (fun d => filepath_Join dir (fileName d)) dates) in *.
  set (g0 := mkGroup repo1 ctx' None false [] _).
  assert (Hg0 : skipping repo1 g0).
  { unfold skipping, g0; cbn. repeat split; [constructor|].
    apply Forall_fmap, Forall_forall. intros f Hf.
    destruct (Hlogged f Hf) as (d & Hd & Hhas). cbn. right.
    unfold worker. fold (fileDay f). rewrite Hd. cbn.
    eexists d, _. split; [reflexivity|]. split; [|reflexivity].
    rewrite Hhas. reflexivity. }
  apply (skipping_runGroup repo1 (maxParallelOf parallel' numCPU') sched') in Hg0.
  destruct Hg0 as (Hrepo & Herr' & Hpanic' & Hlog & _).
  exists (g_log (runGroup (maxParallelOf parallel' numCPU') sched' g0)).
  unfold groupResult. rewrite Hrepo, Herr', Hpanic'.
  split; [reflexivity|exact Hlog].
Qed.

(** X23: what a run without error means, on the in-memory repository of
    the tests: one file was expected for each of the last [nDays] business
    days ([nDays] taken between 1 and 7), each of these files was found,
    and the day of each is in the ledger when the run returns. *)
Theorem success_logs_every_day fs now numCPU sched ctx dir
        (repo : fakeRepoIngestion) nDays parallel force repo1 log1 :
  ProcessDirectory fs now numCPU sched ctx dir repo nDays parallel force
  = (Ok tt, repo1, log1) ->
  len (expectedFiles dir nDays now) = clampDays nDays
  /\ 1 <= clampDays nDays <= 7
  /\ (1 <= nDays <= 7 -> clampDays nDays = nDays)
  /\ forall f, f ∈ expectedFiles dir nDays now ->
               os_Stat fs f = StatOk /\ dayLogged repo1 f.
Proof.
  intros Hrun.
  destruct (success_logged _ _ _ _ _ _ _ _ _ _ _ _ Hrun)
    as (dates & Hdates & _ & Hfound & Hlogged).
  pose proof (clampDays_range nDays) as Hrange.
  destruct (LastNBusinessDays_total (clampDays nDays) now ltac:(lia))
    as (dates' & Hdates' & Hlen & _).
  rewrite Hdates in Hdates'. injection Hdates' as <-.
  unfold expectedFiles. rewrite Hdates.
  split; [unfold len in *; rewrite length_map; exact Hlen|].
  split; [exact Hrange|].
  split; [unfold clampDays; intros Hn;
          destruct (Z.ltb_spec nDays 1); [lia|]; destruct (Z.ltb_spec 7 nDays); lia|].
  intros f Hf. split; [|apply Hlogged; exact Hf].
  apply list_elem_of_fmap in Hf as (d & -> & Hd). apply Hfound. exact Hd.
Qed.

End Idempotence.

(** ** A context that is already done *)

Lemma quietly_impl {A : Type} (P P' : A -> Prop) (p : Prog A) :
  (forall a, P a -> P' a) -> quietly P p -> quietly P' p.
Proof.
  intros HP.
  induction p as [a| |ts k IH|d k IH|d f n k IH|d k IH|k IH|x k IH]; cbn; auto.
Qed.

Lemma quietly_bind {A B : Type} (P : A -> Prop) (Q : B -> Prop) (p : Prog A)
      (k : A -> Prog B) :
  quietly P p -> (forall a, P a -> quietly Q (k a)) -> quietly Q (p ≫= k).
Proof.
  intros Hp Hk.
  induction p as [a| |ts h IH|d h IH|d f n h IH|d h IH|h IH|x h IH]; cbn in *; auto.
Qed.

Section Cancelled.
Context `{Strconv}.

Lemma parseRows_quietly batch r buf lineNumber total :
  quietly (fun x : Z * option Err => x.2 <> None)
          (parseRows batch r buf lineNumber total).
Proof. destruct r as [|[rec|e0] r]; cbn; intros e; discriminate. Qed.

Lemma parseAndPersistFile_quietly fs path batch :
  quietly (fun x : Z * option Err => x.2 <> None) (parseAndPersistFile fs path batch).
Proof.
  unfold parseAndPersistFile.
  destruct (os_Open fs path) as [e|[|[header|e] r]]; cbn [quietly snd]; try discriminate.
  destruct (negb _); [cbn; discriminate|].
  destruct (checkHeader _ _ _); [cbn; discriminate|].
  destruct (batch <? 0); [exact I|]. apply parseRows_quietly.
Qed.

Lemma worker_quietly fs force f : quietly (fun _ => True) (worker fs force f).
Proof.
  unfold worker. destruct (time_Parse_fileDate _) as [d|]; [|exact I].
  cbn -[parseAndPersistFile]. intros [exists_ [e|]]; [exact I|].
  assert (Hprocess :
            quietly (fun _ : option Err => True)
              ('(total, err) ← parseAndPersistFile fs f defaultBatchSize;
               match err with
               | Some e => Ret (Some (ErrFile f e))
               | None =>
                   err ← UpsertIngestionLog d (filepath_Base f) total;
                   match err with
                   | Some e => Ret (Some (ErrFileUpsert f e))
                   | None => Ret None
                   end
               end)).
  { eapply quietly_bind; [apply parseAndPersistFile_quietly|].
    intros [total [e|]] He; [exact I|]. destruct He. reflexivity. }
  destruct (exists_ && negb force); [exact I|].
  destruct (exists_ && force); [|exact Hprocess].
  cbn -[parseAndPersistFile]. intros [e|]; [exact I|exact Hprocess].
Qed.

End Cancelled.

Section CancelledGroup.
Context {R : Type} `{TradesRepository R}.

Lemma quietly_stepProg p (repo : R) e p' repo' entry :
  stepProg p repo (Some e) = (p', repo', entry) ->
  quietly (fun _ => True) p ->
  quietly (fun _ => True) p' /\ forall x, entry = Some x -> ~ isWrite x.
Proof.
  destruct p as [a| |ts k|d k|d f n k|d k|k|x k]; cbn.
  - intros [= <- _ <-] _. split; [exact I|discriminate].
  - intros [= <- _ <-] _. split; [exact I|discriminate].
  - intros _ [].
  - destruct (repo_HasIngestionForDate d repo) as [r repo1].
    intros [= <- _ <-] Hq. split; [apply Hq|]. intros x [= <-]. exact id.
  - intros _ [].
  - destruct (repo_DeleteTradesByDate d repo) as [r repo1].
    intros [= <- _ <-] Hq. split; [apply Hq|]. intros x [= <-]. exact id.
  - intros [= <- _ <-] Hq. split; [apply Hq|]. intros x [= <-]. exact id.
  - intros [= <- _ <-] Hq. split; [exact Hq|]. intros y [= <-]. exact id.
Qed.

Lemma quietly_runProg i e p : forall (repo : R) log,
  quietly (fun _ => True) p ->
  Forall (fun ie => ~ isWrite ie.2) log ->
  Forall (fun ie => ~ isWrite ie.2) (runProg i p repo (Some e) log).2.
Proof.
  induction p as [a| |ts k IH|d k IH|d f n k IH|d k IH|k IH|x k IH];
    intros repo log Hq Hlog; cbn [runProg].
  - exact Hlog.
  - exact Hlog.
  - destruct Hq.
  - destruct (repo_HasIngestionForDate d repo) as [r repo1].
    apply IH; [apply Hq|]. apply Forall_app. split; [exact Hlog|].
    constructor; [exact id|constructor].
  - destruct Hq.
  - destruct (repo_DeleteTradesByDate d repo) as [r repo1].
    apply IH; [apply Hq|]. apply Forall_app. split; [exact Hlog|].
    constructor; [exact id|constructor].
  - apply IH; [apply Hq|]. apply Forall_app. split; [exact Hlog|].
    constructor; [exact id|constructor].
  - apply IH; [exact Hq|]. apply Forall_app. split; [exact Hlog|].
    constructor; [exact id|constructor].
Qed.

Lemma cancelledQuiet_insert (g : Group R) i w ctx err panic log :
  (exists e, ctx = Some e) ->
  Forall (fun ie => ~ isWrite ie.2) log ->
  (forall j w', g_workers g !! j = Some w' ->
     match w' with
     | Pending p | Running p => quietly (fun _ => True) p
     | Finished _ => True
     end) ->
  match w with
  | Pending p | Running p => quietly (fun _ => True) p
  | Finished _ => True
  end ->
  forall repo : R,
  cancelledQuiet (mkGroup repo ctx err panic log (<[i := w]> (g_workers g))).
Proof.
  intros Hctx Hlog Hws Hw repo. split; [exact Hctx|]. split; [exact Hlog|].
  cbn. intros j w' Hj. apply list_lookup_insert_Some in Hj.
  destruct Hj as [(_ & <- & _)|(_ & Hj)]; [exact Hw|exact (Hws j w' Hj)].
Qed.

Lemma cancelledQuiet_finish (g : Group R) i r :
  cancelledQuiet g -> cancelledQuiet (finishWorker g i r).
Proof.
  intros ([e He] & Hlog & Hws). unfold finishWorker.
  apply cancelledQuiet_insert; try assumption; [|exact I].
  rewrite He. destruct (match g_err g with None => _ | _ => _ end); eauto.
Qed.

Lemma cancelledQuiet_stepWorker maxParallel i (g : Group R) :
  cancelledQuiet g -> cancelledQuiet (stepWorker maxParallel i g).
Proof.
  intros Hg. pose proof Hg as ([e He] & Hlog & Hws). unfold stepWorker.
  destruct (g_panic g); [exact Hg|].
  destruct (g_workers g !! i) as [w|] eqn:Hi; [|exact Hg].
  pose proof (Hws i w Hi) as Hw.
  destruct w as [p|p|r]; [| |exact Hg].
  - case_match; [|exact Hg]. unfold setWorker.
    apply cancelledQuiet_insert; eauto.
  - assert (Hstep : forall p' repo' entry,
              stepProg p (g_repo g) (g_ctx g) = (p', repo', entry) ->
              cancelledQuiet
                (mkGroup repo' (g_ctx g) (g_err g) (g_panic g)
                         (g_log g ++ match entry with
                                     | Some x => [(i, x)]
                                     | None => []
                                     end)
                         (<[i := Running p']> (g_workers g)))).
    { intros p' repo' entry Hs. rewrite He in Hs.
      destruct (quietly_stepProg _ _ _ _ _ _ Hs Hw) as [Hq Hentry].
      apply cancelledQuiet_insert; eauto.
      apply Forall_app. split; [exact Hlog|].
      destruct entry as [x|]; [|constructor].
      constructor; [exact (Hentry x eq_refl)|constructor]. }
    destruct p as [r| |ts k|d k|d f n k|d k|k|x k].
    + apply cancelledQuiet_finish. exact Hg.
    + split; [eauto|]. split; assumption.
    + destruct (stepProg (VInsert ts k) (g_repo g) (g_ctx g)) as [[p' repo'] entry] eqn:Hs.
      exact (Hstep _ _ _ eq_refl).
    + destruct (stepProg (VHas d k) (g_repo g) (g_ctx g)) as [[p' repo'] entry] eqn:Hs.
      exact (Hstep _ _ _ eq_refl).
    + destruct (stepProg (VUpsert d f n k) (g_repo g) (g_ctx g)) as [[p' repo'] entry] eqn:Hs.
      exact (Hstep _ _ _ eq_refl).
    + destruct (stepProg (VDelete d k) (g_repo g) (g_ctx g)) as [[p' repo'] entry] eqn:Hs.
      exact (Hstep _ _ _ eq_refl).
    + destruct (stepProg (VDone k) (g_repo g) (g_ctx g)) as [[p' repo'] entry] eqn:Hs.
      exact (Hstep _ _ _ eq_refl).
    + destruct (stepProg (VRead x k) (g_repo g) (g_ctx g)) as [[p' repo'] entry] eqn:Hs.
      exact (Hstep _ _ _ eq_refl).
Qed.

Lemma cancelledQuiet_act maxParallel a (g : Group R) :
  cancelledQuiet g -> cancelledQuiet (act maxParallel a g).
Proof.
  destruct a as [i|e']; [apply cancelledQuiet_stepWorker|].
  intros ([e He] & Hlog & Hws). split; [|split; assumption].
  cbn. rewrite He. eauto.
Qed.

Lemma cancelledQuiet_completeWorker (g : Group R) i :
  cancelledQuiet g -> cancelledQuiet (completeWorker g i).
Proof.
  intros Hg. pose proof Hg as ([e He] & Hlog & Hws). unfold completeWorker.
  destruct (g_panic g); [exact Hg|].
  destruct (g_workers g !! i) as [w|] eqn:Hi; [|exact Hg].
  pose proof (Hws i w Hi) as Hw.
  assert (Hrun : forall p,
            quietly (fun _ => True) p ->
            cancelledQuiet
              match runProg i p (g_repo g) (g_ctx g) (g_log g) with
              | (Some r, repo, log) =>
                  finishWorker
                    (mkGroup repo (g_ctx g) (g_err g) false log (g_workers g)) i r
              | (None, repo, log) =>
                  mkGroup repo (g_ctx g) (g_err g) true log (g_workers g)
              end).
  { intros p Hp. rewrite He.
    pose proof (quietly_runProg i e p (g_repo g) (g_log g) Hp Hlog) as Hlog'.
    destruct (runProg i p (g_repo g) (Some e) (g_log g)) as [[[r|] repo'] log'];
      cbn [snd] in Hlog'.
    - apply cancelledQuiet_finish. split; [eauto|]. split; assumption.
    - split; [eauto|]. split; assumption. }
  destruct w as [p|p|r]; [apply Hrun, Hw|apply Hrun, Hw|exact Hg].
Qed.

Lemma cancelledQuiet_runGroup maxParallel sched (g : Group R) :
  cancelledQuiet g -> cancelledQuiet (runGroup maxParallel sched g).
Proof.
  intros Hg. unfold runGroup.
  assert (Hsched : cancelledQuiet (fold_left (fun g a => act maxParallel a g) sched g)).
  { revert g Hg. induction sched as [|a sched IH]; intros g Hg; cbn; [exact Hg|].
    apply IH, cancelledQuiet_act, Hg. }
  set (g1 := fold_left _ sched g) in *. clearbody g1.
  generalize (seq 0 (length (g_workers g1))). intros l.
  revert g1 Hsched. induction l as [|i l IH]; intros g1 Hg1; cbn; [exact Hg1|].
  apply IH, cancelledQuiet_completeWorker, Hg1.
Qed.

Context `{Strconv}.

(** X24: when the context is done at the call, [ProcessDirectory]
    inserts no trade and writes no day to the ledger, under every
    schedule: each worker stops at its first poll of the context.  (The
    ledger is still queried and, with [force], the trades of an ingested
    day are still deleted, no call of the repository taking the
    context.) *)
Theorem cancelled_writes_nothing fs now numCPU sched e dir (repo : R)
        nDays parallel force :
  Forall (fun ie => ~ isWrite ie.2)
         (ProcessDirectory fs now numCPU sched (Some e) dir repo nDays parallel force).2.
Proof.
  unfold ProcessDirectory. cbn zeta.
  destruct (LastNBusinessDays _ now) as [dates|]; [|constructor].
  destruct (statFiles fs dir dates [] []) as [e0|[files missing]]; [constructor|].
  destruct (0 <? len missing); [constructor|]. cbn [snd].
  apply cancelledQuiet_runGroup. split; [eauto|]. split; [constructor|].
  cbn. intros i w Hi. apply list_lookup_fmap_Some in Hi as (f & -> & _).
  apply worker_quietly.
Qed.

End CancelledGroup.

(** ** The transaction of [InsertTradesBatch] *)

Lemma execTrades_runs db trades : forall tr,
  exists ext,
    (storage.execTrades db trades tr).2 = tr ++ ext
    /\ match (storage.execTrades db trades tr).1 with
       | None =>
           Forall storage.succeeded ext
           /\ map fst ext = map (fun rec => storage.StmtExec (storage.execArgs rec)) trades
       | Some e =>
           exists pre c post rest,
             ext = pre ++ (c, Some e) :: post
             /\ Forall storage.succeeded pre
             /\ map (fun rec => storage.StmtExec (storage.execArgs rec)) trades
                = map fst pre ++ c :: rest
             /\ map fst post = storage.cleanup c
       end.
Proof.
  induction trades as [|rec trades IH]; intros tr.
  - exists []. cbn. rewrite app_nil_r. repeat split; constructor.
  - cbn [storage.execTrades]. unfold mbind, storage.Sql_bind, storage.call.
    destruct (db tr (storage.StmtExec (storage.execArgs rec))) as [e|] eqn:Hdb.
    + eexists [_; _; _]. cbn. rewrite <- !app_assoc. split; [reflexivity|].
      eexists [], _, [_; _], _. cbn.
      split; [reflexivity|]. split; [constructor|]. split; reflexivity.
    + destruct (IH (tr ++ [(storage.StmtExec (storage.execArgs rec), None)]))
        as (ext & Hext & Hres).
      exists ((storage.StmtExec (storage.execArgs rec), None) :: ext).
      rewrite Hext, <- app_assoc. split; [reflexivity|].
      destruct (storage.execTrades db trades _).1 as [e|].
      * destruct Hres as (pre & c & post & rest & -> & Hpre & Hmap & Hpost).
        exists ((storage.StmtExec (storage.execArgs rec), None) :: pre), c, post, rest.
        cbn. rewrite Hmap. repeat split; [constructor; [reflexivity|exact Hpre]|exact Hpost].
      * destruct Hres as [Hall Hmap]. cbn. rewrite Hmap.
        split; [constructor; [reflexivity|exact Hall]|reflexivity].
Qed.

Lemma InsertTradesBatch_runs db trades tr :
  exists ext,
    (storage.InsertTradesBatch db trades tr).2 = tr ++ ext
    /\ match (storage.InsertTradesBatch db trades tr).1 with
       | None => Forall storage.succeeded ext /\ map fst ext = storage.protocol trades
       | Some e =>
           exists pre c post rest,
             ext = pre ++ (c, Some e) :: post
             /\ Forall storage.succeeded pre
             /\ storage.protocol trades = map fst pre ++ c :: rest
             /\ map fst post = storage.cleanup c
       end.
Proof.
  unfold storage.InsertTradesBatch, storage.protocol, mbind, storage.Sql_bind,
    storage.call, mret, storage.Sql_ret.
  destruct (db tr storage.DbBegin) as [e|] eqn:Hbegin.
  { eexists [_]. split; [reflexivity|]. eexists [], _, [], _. cbn.
    split; [reflexivity|]. split; [constructor|]. split; reflexivity. }
  set (tr1 := tr ++ [(storage.DbBegin, None)]).
  destruct (db tr1 (storage.TxExec _)) as [e|] eqn:Hset.
  { eexists [_; _; _]. cbn. unfold tr1. rewrite <- !app_assoc.
    split; [reflexivity|]. eexists [_], _, [_], _. cbn.
    split; [reflexivity|]. split; [repeat constructor|]. split; reflexivity. }
  set (tr2 := tr1 ++ [(storage.TxExec _, None)]).
  destruct (db tr2 (storage.TxPrepareCopyIn _ _)) as [e|] eqn:Hprep.
  { eexists [_; _; _; _]. cbn. unfold tr2, tr1. rewrite <- !app_assoc.
    split; [reflexivity|]. eexists [_; _], _, [_], _. cbn.
    split; [reflexivity|]. split; [repeat constructor|]. split; reflexivity. }
  set (tr3 := tr2 ++ [(storage.TxPrepareCopyIn _ _, None)]).
  destruct (execTrades_runs db trades tr3) as (rows & Hrows & Hres).
  destruct (storage.execTrades db trades tr3) as [res tr4]. cbn [fst snd] in *.
  subst tr4.
  destruct res as [e|].
  { destruct Hres as (pre & c & post & rest & -> & Hpre & Hmap & Hpost).
    eexists (_ :: _ :: _ :: pre ++ (c, Some e) :: post). cbn.
    unfold tr3, tr2, tr1. rewrite <- !app_assoc. split; [reflexivity|].
    eexists (_ :: _ :: _ :: pre), c, post, _. cbn.
    split; [reflexivity|]. split; [repeat constructor; exact Hpre|].
    split; [|exact Hpost]. rewrite Hmap, <- app_assoc. reflexivity. }
  destruct Hres as [Hall Hmap].
  set (tr5 := tr3 ++ rows).
  destruct (db tr5 (storage.StmtExec [])) as [e|] eqn:Hflush.
  { eexists (_ :: _ :: _ :: rows ++ [_; _; _]). cbn.
    unfold tr5, tr3, tr2, tr1. rewrite <- !app_assoc. split; [reflexivity|].
    eexists (_ :: _ :: _ :: rows), _, [_; _], _. cbn.
    split; [reflexivity|]. split; [repeat constructor; exact Hall|].
    rewrite Hmap. split; reflexivity. }
  set (tr6 := tr5 ++ [(storage.StmtExec [], None)]).
  destruct (db tr6 storage.StmtClose) as [e|] eqn:Hclose.
  { eexists (_ :: _ :: _ :: rows ++ [_; _; _]). cbn.
    unfold tr6, tr5, tr3, tr2, tr1. rewrite <- !app_assoc. split; [reflexivity|].
    eexists (_ :: _ :: _ :: rows ++ [_]), _, [_], _. cbn.
    rewrite <- app_assoc. split; [reflexivity|].
    split; [repeat constructor; apply Forall_app; split;
            [exact Hall|repeat constructor]|].
    unfold storage.DbEntry in *; rewrite List.map_app, Hmap, <- app_assoc. split; reflexivity. }
  set (tr7 := tr6 ++ [(storage.StmtClose, None)]).
  destruct (db tr7 storage.TxCommit) as [e|] eqn:Hcommit.
  - eexists (_ :: _ :: _ :: rows ++ [_; _; _]). cbn.
    unfold tr7, tr6, tr5, tr3, tr2, tr1. rewrite <- !app_assoc. split; [reflexivity|].
    eexists (_ :: _ :: _ :: rows ++ [_; _]), _, [], _. cbn.
    rewrite <- app_assoc. split; [reflexivity|].
    split; [repeat constructor; apply Forall_app; split;
            [exact Hall|repeat constructor]|].
    unfold storage.DbEntry in *; rewrite List.map_app, Hmap, <- app_assoc.
    split; reflexivity.
  - eexists (_ :: _ :: _ :: rows ++ [_; _; _]). cbn.
    unfold tr7, tr6, tr5, tr3, tr2, tr1. rewrite <- !app_assoc. split; [reflexivity|].
    split.
    + repeat constructor. apply Forall_app. split; [exact Hall|].
      repeat constructor.
    + unfold storage.DbEntry in *; rewrite List.map_app, Hmap. reflexivity.
Qed.

(** X25: the calls of [InsertTradesBatch].  When no call fails they are
    [Begin], the [SET LOCAL], the [Prepare] of the [COPY], an [Exec] for
    each trade in order, the [Exec] without arguments that flushes, [Close]
    and [Commit].  Otherwise the calls stop at the first that fails, its
    error is returned, and only the clean-up follows: nothing after a failed
    [Begin] or [Commit], [Rollback] otherwise, after the [Close] of the
    statement when an [Exec] on it failed. *)
Theorem InsertTradesBatch_protocol db trades tr :
  exists ext,
    (storage.InsertTradesBatch db trades tr).2 = tr ++ ext
    /\ match (storage.InsertTradesBatch db trades tr).1 with
       | None => Forall storage.succeeded ext /\ map fst ext = storage.protocol trades
       | Some e =>
           exists pre c post rest,
             ext = pre ++ (c, Some e) :: post
             /\ Forall storage.succeeded pre
             /\ storage.protocol trades = map fst pre ++ c :: rest
             /\ map fst post = storage.cleanup c
       end.
Proof. exact (InsertTradesBatch_runs db trades tr). Qed.

Lemma split_before_last {A : Type} (h p rest : list A) (z c : A) :
  h ++ [z] = p ++ c :: rest ->
  (rest = [] /\ c = z /\ p = h)
  \/ exists rest', rest = rest' ++ [z] /\ h = p ++ c :: rest'.
Proof.
  revert h. induction p as [|a p IH]; intros h Heq.
  - destruct h as [|b h]; cbn in Heq.
    + injection Heq as <- <-. left. done.
    + injection Heq as <- <-. right. exists h. done.
  - destruct h as [|b h]; cbn in Heq.
    + injection Heq as _ Heq. destruct p; discriminate.
    + injection Heq as <- Heq. destruct (IH h Heq) as [(-> & -> & ->)|(r' & -> & ->)].
      * left. done.
      * right. exists r'. done.
Qed.

Lemma protocol_body trades :
  exists h,
    storage.protocol trades = storage.DbBegin :: h ++ [storage.TxCommit]
    /\ Forall (fun c => endsTx c = false /\ c <> storage.DbBegin) h.
Proof.
  unfold storage.protocol.
  exists ([storage.TxExec "SET LOCAL synchronous_commit = OFF";
           storage.TxPrepareCopyIn "trades" storage.copyColumns]
          ++ map (fun rec => storage.StmtExec (storage.execArgs rec)) trades
          ++ [storage.StmtExec []; storage.StmtClose]).
  split.
  - cbn. rewrite <- !app_assoc. reflexivity.
  - repeat (apply Forall_cons; split; [done|]).
    apply Forall_app. split; [|repeat constructor; done].
    apply Forall_forall. intros c Hc. apply list_elem_of_fmap in Hc as (rec & -> & _).
    done.
Qed.

Lemma map_fst_snoc {A B : Type} (l : list (A * B)) (h : list A) (z : A) :
  map fst l = h ++ [z] ->
  exists body x, l = body ++ [(z, x)] /\ map fst body = h.
Proof.
  revert h. induction l as [|[a b] l IH]; intros h Heq.
  - destruct h; discriminate.
  - destruct h as [|a' h]; cbn in Heq.
    + injection Heq as -> Heq. destruct l; [|discriminate]. exists [], b. done.
    + injection Heq as -> Heq. destruct (IH h Heq) as (body & x & -> & <-).
      exists ((a', b) :: body), x. done.
Qed.

(** X26: [InsertTradesBatch] ends the transaction it begins, once.  When
    [Begin] fails nothing else is called.  Otherwise the last call is
    [Commit] or [Rollback] and no call before it is one of the two; the
    transaction is committed only after every call before succeeded, and
    the answer of [Commit] is then what is returned; after a rollback an
    error is returned.  No error is returned exactly when no call failed. *)
Theorem InsertTradesBatch_ends_transaction db trades tr :
  let r := storage.InsertTradesBatch db trades tr in
  exists ext,
    r.2 = tr ++ ext
    /\ (r.1 = None <-> Forall storage.succeeded ext)
    /\ ((ext = [(storage.DbBegin, r.1)] /\ r.1 <> None)
        \/ exists body c x,
             ext = (storage.DbBegin, None) :: body ++ [(c, x)]
             /\ Forall (fun e => endsTx e.1 = false) body
             /\ ((c = storage.TxCommit /\ x = r.1 /\ Forall storage.succeeded body)
                 \/ (c = storage.TxRollback /\ r.1 <> None))).
Proof.
  cbn zeta. destruct (InsertTradesBatch_runs db trades tr) as (ext & Hext & Hres).
  exists ext. split; [exact Hext|].
  destruct (protocol_body trades) as (h & Hproto & Hh).
  destruct (storage.InsertTradesBatch db trades tr).1 as [e|].
  - destruct Hres as (pre & c & post & rest & -> & Hpre & Hmap & Hpost).
    split.
    { split; [discriminate|]. intros Hall. apply Forall_app in Hall as [_ Hall].
      apply Forall_cons in Hall as [Hc _]. discriminate Hc. }
    rewrite Hproto in Hmap.
    destruct pre as [|[b x] pre]; cbn in Hmap.
    { injection Hmap as <- _. cbn in Hpost. destruct post; [|discriminate].
      left. split; [reflexivity|discriminate]. }
    injection Hmap as <- Hmap. right.
    apply Forall_cons in Hpre as [Hx Hpre]. unfold storage.succeeded in Hx; cbn in Hx; subst x.
    destruct (split_before_last _ _ _ _ _ Hmap) as [(-> & -> & Hp)|(r' & -> & ->)].
    + cbn in Hpost. destruct post; [|discriminate].
      exists pre, storage.TxCommit, (Some e). split; [reflexivity|].
      split; [|left; done].
      rewrite <- Hp in Hh. apply Forall_fmap in Hh.
      eapply Forall_impl; [exact Hh|]. intros ? [? _]. assumption.
    + apply Forall_app in Hh as [Hh1 Hh2]. apply Forall_cons in Hh2 as [[Hc Hnb] _].
      apply Forall_fmap in Hh1.
      assert (Hh1' : Forall (fun e => endsTx e.1 = false) pre).
      { eapply Forall_impl; [exact Hh1|]. intros ? [? _]. assumption. }
      assert (Hend : exists post' y,
                 post = post' ++ [(storage.TxRollback, y)]
                 /\ Forall (fun e => endsTx e.1 = false) post').
      { destruct c; try discriminate Hc; try done; cbn in Hpost.
        - destruct post as [|[p1 y1] [|? ?]]; try discriminate.
          injection Hpost as ->. exists [], y1. split; [reflexivity|constructor].
        - destruct post as [|[p1 y1] [|? ?]]; try discriminate.
          injection Hpost as ->. exists [], y1. split; [reflexivity|constructor].
        - destruct post as [|[p1 y1] [|[p2 y2] [|? ?]]]; try discriminate.
          injection Hpost as -> ->. exists [(storage.StmtClose, y1)], y2.
          split; [reflexivity|repeat constructor].
        - destruct post as [|[p1 y1] [|? ?]]; try discriminate.
          injection Hpost as ->. exists [], y1. split; [reflexivity|constructor]. }
      destruct Hend as (post' & y & -> & Hpost').
      exists (pre ++ (c, Some e) :: post'), storage.TxRollback, y.
      split; [rewrite <- app_assoc; reflexivity|].
      split; [|right; split; [reflexivity|discriminate]].
      apply Forall_app. split; [exact Hh1'|]. constructor; [exact Hc|exact Hpost'].
  - destruct Hres as [Hall Hmap]. split; [split; [intros _; exact Hall|reflexivity]|].
    right. rewrite Hproto in Hmap.
    destruct ext as [|[b x] ext]; [discriminate|]. cbn in Hmap.
    injection Hmap as -> Hmap.
    apply Forall_cons in Hall as [Hx Hall]. unfold storage.succeeded in Hx; cbn in Hx; subst x.
    destruct (map_fst_snoc _ _ _ Hmap) as (body & x & -> & Hbody).
    apply Forall_app in Hall as [Hb Hlast]. apply Forall_cons in Hlast as [Hx _].
    unfold storage.succeeded in Hx; cbn in Hx; subst x.
    exists body, storage.TxCommit, None. split; [reflexivity|].
    split; [|left; done].
    rewrite <- Hbody in Hh. apply Forall_fmap in Hh.
    eapply Forall_impl; [exact Hh|]. intros ? [? _]. assumption.
Qed.

Lemma isDigit_digitChar c :
  isDigit c = true -> c = digitChar (digitVal c) /\ 0 <= digitVal c <= 9.
Proof.
  destruct c as [[] [] [] [] [] [] [] []]; try discriminate;
    intros _; vm_compute; (split; [reflexivity|split; discriminate]).
Qed.

(** The one date cell that gives the zero value of a time. *)
Lemma time_Parse_date_zero s :
  time_Parse_date s = Some zeroTime <-> s = "0001-01-01".
Proof.
  split; [|intros ->; vm_compute; reflexivity].
  intros Hp. apply time_Parse_date_Some in Hp.
  destruct Hp as (y1 & y2 & y3 & y4 & m1 & m2 & d1 & d2 & year & month & day
                  & Hs & Hy & Hm & Hd & _ & _ & Hdate & _).
  vm_compute in Hdate. injection Hdate as <- <- <-.
  cbn in Hy, Hm, Hd.
  destruct (isDigit y1) eqn:Ey1; [|discriminate].
  destruct (isDigit y2) eqn:Ey2; [|discriminate].
  destruct (isDigit y3) eqn:Ey3; [|discriminate].
  destruct (isDigit y4) eqn:Ey4; [|discriminate].
  destruct (isDigit m1) eqn:Em1; [|discriminate].
  destruct (isDigit m2) eqn:Em2; [|discriminate].
  destruct (isDigit d1) eqn:Ed1; [|discriminate].
  destruct (isDigit d2) eqn:Ed2; [|discriminate].
  apply isDigit_digitChar in Ey1, Ey2, Ey3, Ey4, Em1, Em2, Ed1, Ed2.
  injection Hy as Hy. injection Hm as Hm. injection Hd as Hd.
  assert (digitVal y1 = 0 /\ digitVal y2 = 0 /\ digitVal y3 = 0 /\ digitVal y4 = 1
          /\ digitVal m1 = 0 /\ digitVal m2 = 1 /\ digitVal d1 = 0 /\ digitVal d2 = 1)
    as (V1 & V2 & V3 & V4 & V5 & V6 & V7 & V8) by lia.
  rewrite V1 in Ey1. rewrite V2 in Ey2. rewrite V3 in Ey3. rewrite V4 in Ey4.
  rewrite V5 in Em1. rewrite V6 in Em2. rewrite V7 in Ed1. rewrite V8 in Ed2.
  destruct Ey1 as [-> _], Ey2 as [-> _], Ey3 as [-> _], Ey4 as [-> _],
    Em1 as [-> _], Em2 as [-> _], Ed1 as [-> _], Ed2 as [-> _].
  rewrite <- (string_of_list_ascii_of_string s), Hs. reflexivity.
Qed.

Lemma time_Parse_clock_Some v h :
  time_Parse_clock v = Some h ->
  exists hh mm ss,
    0 <= hh < 24 /\ 0 <= mm < 60 /\ 0 <= ss < 60
    /\ h = time_Date 0 1 1 hh mm ss 0 LocUTC.
Proof.
  unfold time_Parse_clock.
  destruct (list_ascii_of_string v) as [|h1 [|h2 [|m1 [|m2 [|s1 [|s2 [|x l]]]]]]];
    try discriminate.
  destruct (decimalValue 0 [h1; h2]) as [hh|] eqn:Hhh; [|discriminate].
  destruct (decimalValue 0 [m1; m2]) as [mm|] eqn:Hmm; [|discriminate].
  destruct (decimalValue 0 [s1; s2]) as [ss|] eqn:Hss; [|discriminate].
  destruct ((hh <? 24) && (mm <? 60) && (ss <? 60)) eqn:Hrange; [|discriminate].
  intros [= <-].
  rewrite !andb_true_iff, !Z.ltb_lt in Hrange. destruct Hrange as [[Hh Hm] Hsec].
  pose proof (decimalValue_nonneg _ 0 hh ltac:(lia) Hhh) as Hh0.
  pose proof (decimalValue_nonneg _ 0 mm ltac:(lia) Hmm) as Hm0.
  pose proof (decimalValue_nonneg _ 0 ss ltac:(lia) Hss) as Hs0.
  exists hh, mm, ss. repeat split; assumption.
Qed.

Section NullColumns.
Context `{Strconv}.

Lemma dateCell_zero mk cell t :
  dateCell mk cell = Ok t ->
  IsZero t = true <-> TrimSpace cell = "" \/ TrimSpace cell = "0001-01-01".
Proof.
  unfold dateCell, IsZero. cbn zeta. intros Hc.
  destruct (decide (TrimSpace cell = "")) as [He|Hne].
  - rewrite bool_decide_eq_true_2 in Hc by exact He. cbn in Hc.
    injection Hc as <-. rewrite bool_decide_eq_true. tauto.
  - rewrite bool_decide_eq_false_2 in Hc by exact Hne. cbn [negb] in Hc.
    destruct (time_Parse_date (TrimSpace cell)) as [d|] eqn:Hp; [|discriminate].
    injection Hc as <-. rewrite bool_decide_eq_true. split.
    + intros ->. right. apply time_Parse_date_zero. exact Hp.
    + intros [He|He]; [done|]. apply time_Parse_date_zero in He.
      rewrite He in Hp. injection Hp as <-. reflexivity.
Qed.

Lemma clockCell_zero cell t :
  clockCell cell = Ok t -> IsZero t = true <-> TrimSpace cell = "".
Proof.
  unfold clockCell, IsZero. cbn zeta. intros Hc.
  destruct (decide (TrimSpace cell = "")) as [He|Hne].
  - rewrite bool_decide_eq_true_2 in Hc by exact He. cbn in Hc.
    injection Hc as <-. rewrite bool_decide_eq_true. tauto.
  - rewrite bool_decide_eq_false_2 in Hc by exact Hne. cbn [negb] in Hc.
    destruct (_ <? 6); [discriminate|].
    destruct (time_Parse_clock _) as [h|] eqn:Hp; [|discriminate].
    injection Hc as <-. rewrite bool_decide_eq_true. split; [|done].
    intros Hz. exfalso.
    destruct (time_Parse_clock_Some _ _ Hp) as (hh & mm & ss & Hh & Hm & Hs & ->).
    destruct (clock_of_time_Date hh mm ss Hh Hm Hs) as (Hhour & Hmin & Hsec & _ & Hd).
    rewrite Hhour, Hmin, Hsec in Hz. rewrite Hz in Hd. vm_compute in Hd. discriminate.
Qed.

(** X27: which columns of a parsed trade are stored as NULL.  The two
    date columns are NULL for a blank cell and for the cell [0001-01-01],
    which is the zero value of a time; the closing time is NULL for a
    blank cell only; no other column is ever NULL. *)
Theorem null_columns rec t :
  recordToTrade rec = Ok t ->
  exists c0 c5 c8,
    rec !! 0%nat = Some c0 /\ rec !! 5%nat = Some c5 /\ rec !! 8%nat = Some c8
    /\ (storage.execArgs t !! 0%nat = Some storage.SqlNull
        <-> TrimSpace c0 = "" \/ TrimSpace c0 = "0001-01-01")
    /\ (storage.execArgs t !! 5%nat = Some storage.SqlNull <-> TrimSpace c5 = "")
    /\ (storage.execArgs t !! 8%nat = Some storage.SqlNull
        <-> TrimSpace c8 = "" \/ TrimSpace c8 = "0001-01-01")
    /\ (forall i : nat,
          storage.execArgs t !! i = Some storage.SqlNull ->
          i = 0%nat \/ i = 5%nat \/ i = 8%nat)
    /\ length (storage.execArgs t) = length storage.copyColumns.
Proof.
  intros Hrec.
  destruct (recordToTrade_Ok rec t Hrec)
    as (c0 & c1 & c2 & c3 & c4 & c5 & c6 & c7 & c8 & c9 & c10 & rest & -> &
        Href & _ & _ & _ & _ & Hclock & _ & _ & Htrade & _).
  exists c0, c5, c8. do 3 (split; [reflexivity|]).
  pose proof (dateCell_zero _ _ _ Href) as Hz0.
  pose proof (clockCell_zero _ _ Hclock) as Hz5.
  pose proof (dateCell_zero _ _ _ Htrade) as Hz8.
  unfold storage.execArgs, storage.toNullDate, storage.toNullTime. cbn [lookup list_lookup].
  split; [|split; [|split; [|split; [|reflexivity]]]].
  - rewrite <- Hz0. destruct (IsZero (ReferenceDate t)); split; try done.
  - rewrite <- Hz5. destruct (IsZero (ClosingTime t)); split; try done.
  - rewrite <- Hz8. destruct (IsZero (TradeDate t)); split; try done.
  - intros i Hi.
    do 11 (destruct i as [|i]; [cbn in Hi; try discriminate Hi; auto|]).
    discriminate Hi.
Qed.

End NullColumns.
(** ** Examples *)

Lemma negativeRow_parses :
  @recordToTrade decimalStrconv negativeRow = Ok negativeTrade.
Proof. vm_compute. reflexivity. Qed.

(** C9 fails on the row [negativeRow]: it is converted to a trade of
    quantity -5. *)
Lemma quantity_nonneg_counterexample :
  ~ (forall t, @recordToTrade decimalStrconv negativeRow = Ok t ->
               0 <= TradeQuantity t).
Proof.
  intros Hc. specialize (Hc negativeTrade negativeRow_parses).
  cbn in Hc. lia.
Qed.

Lemma blankRow_parses :
  @recordToTrade decimalStrconv blankRow = Ok blankTrade.
Proof. vm_compute. reflexivity. Qed.

Lemma quantity_in_int64_range_witness :
  @recordToTrade decimalStrconv negativeRow = Ok negativeTrade
  /\ - 2 ^ 63 <= TradeQuantity negativeTrade < 2 ^ 63
  /\ ParseInt (TrimSpace "-5") = Some (TradeQuantity negativeTrade)
  /\ @recordToTrade decimalStrconv blankRow = Ok blankTrade
  /\ blankRow !! 4%nat = Some " "
  /\ blankCell " "
  /\ TradeQuantity blankTrade = 0.
Proof.
  assert (Hblank : blankCell " ") by (apply TrimSpace_blank; reflexivity).
  assert (Hfull : ~ blankCell "-5").
  { intros Hb. apply TrimSpace_blank in Hb. discriminate Hb. }
  destruct (@quantity_in_int64_range decimalStrconv negativeRow negativeTrade
              negativeRow_parses) as (Hrange & c4 & Hc4 & _ & Hparse).
  injection Hc4 as <-.
  destruct (@quantity_in_int64_range decimalStrconv blankRow blankTrade
              blankRow_parses) as (_ & c4 & Hc4 & Hzero & _).
  injection Hc4 as <-.
  split; [exact negativeRow_parses|]. split; [exact Hrange|].
  split; [exact (Hparse Hfull)|]. split; [exact blankRow_parses|].
  split; [reflexivity|]. split; [exact Hblank|exact (Hzero Hblank)].
Defined.

#[local] Existing Instance decimalStrconv.

(** The business days of the fixtures. *)
Lemma lastTwoDays_computed :
  LastNBusinessDays (clampDays 2) saturdayNoon = Some lastTwoDays.
Proof. vm_compute. reflexivity. Qed.

Lemma recordToTrade_cells_witness :
  recordToTrade negativeRow = Ok negativeTrade
  /\ ParseFloat (ReplaceAll_comma_dot (TrimSpace "10,50"))
     = Some (TradePrice negativeTrade)
  /\ ParseInt (TrimSpace "-5") = Some (TradeQuantity negativeTrade)
  /\ ReferenceDate negativeTrade = zeroTime
  /\ time_Parse_date (TrimSpace "2025-09-11") = Some (TradeDate negativeTrade)
  /\ InstrumentCode negativeTrade = TrimSpace "PETR4"
  /\ (exists e, recordToTrade badPriceRow = Raise e)
  (* a row of blank and padded cells *)
  /\ (exists t,
        recordToTrade blankRow = Ok t
        /\ TradePrice t = 0%float /\ TradeQuantity t = 0
        /\ ReferenceDate t = zeroTime /\ TradeDate t = zeroTime
        /\ ClosingTime t = zeroTime
        /\ InstrumentCode t = "PETR4" /\ trimmedOf " PETR4 " (InstrumentCode t)
        /\ TradeIdentifierCode t = "ABC" /\ SessionType t = "REGULAR").
Proof.
  pose proof (recordToTrade_cells "" "PETR4" "I" "10,50" "-5" "101530000"
                "ABC" "REGULAR" "2025-09-11" "B" "S") as Hgood.
  pose proof (recordToTrade_cells "" "PETR4" "I" "abc" "-5" "101530000"
                "ABC" "REGULAR" "2025-09-11" "B" "S") as Hbad.
  pose proof (recordToTrade_cells "  " " PETR4 " "I" "" " " "   "
                " ABC" "REGULAR " "" "B" "S") as Hblank.
  cbn zeta in Hgood, Hbad, Hblank.
  destruct Hgood as (Hp & _ & Hq & _ & Hd & _ & _ & _ & _ & Hs & _).
  destruct Hbad as (_ & Hfail & _).
  destruct Hblank as (_ & _ & _ & _ & _ & _ & _ & _ & _ & Hstrings & Hempty
                      & Hconv & _ & Hzero & Htrim).
  split; [exact negativeRow_parses|].
  split; [exact (Hp negativeTrade negativeRow_parses)|].
  split; [exact (Hq negativeTrade negativeRow_parses)|].
  split; [exact (proj1 (Hd negativeTrade negativeRow_parses))|].
  split; [exact (proj2 (Hd negativeTrade negativeRow_parses))|].
  split; [exact (proj1 (Hs negativeTrade negativeRow_parses))|].
  split; [apply Hfail; [vm_compute; discriminate|vm_compute; reflexivity]|].
  assert (Hb0 : blankCell "  ") by (apply Hempty; reflexivity).
  assert (Hb3 : blankCell "") by (apply Hempty; reflexivity).
  assert (Hb4 : blankCell " ") by (apply Hempty; reflexivity).
  assert (Hb5 : blankCell "   ") by (apply Hempty; reflexivity).
  destruct (proj2 Hconv) as [t Ht].
  { repeat split; left; assumption. }
  destruct (Hzero t Ht) as (Z3 & Z4 & Z0 & Z8 & Z5).
  destruct (Hstrings t Ht) as (S1 & _ & S6 & S7 & _).
  destruct (Htrim t Ht) as (T1 & _).
  exists t. split; [exact Ht|].
  split; [exact (Z3 Hb3)|]. split; [exact (Z4 Hb4)|]. split; [exact (Z0 Hb0)|].
  split; [exact (Z8 Hb3)|]. split; [exact (Z5 Hb5)|].
  split; [exact S1|]. split; [exact T1|]. split; [exact S6|exact S7].
Defined.

Lemma parse_error_returns_zero_witness :
  exists n e ext,
    run secondInsertFails (parseAndPersistFile threeRowDir samplePath 1) []
    = (Some (n, Some e), ext)
    /\ len (batches ext) = 2
    /\ n = 0.
Proof.
  eexists _, _, _. split; [vm_compute; reflexivity|].
  split; [vm_compute; reflexivity|].
  eapply (parse_error_returns_zero secondInsertFails threeRowDir samplePath 1 []).
  vm_compute. reflexivity.
Defined.

Lemma parse_polls_before_each_read_witness :
  exists res ext,
    run cancelledAfterFirstRow (parseAndPersistFile threeRowDir samplePath 2) []
    = (res, ext)
    /\ ext = [ ERead (ReadRecord expectedHeaders); EDone None;
               ERead (ReadRecord (sampleRow "10,0"));
               EDone (Some context_Canceled) ]
    /\ batches ext = []
    /\ (ext = [] \/ exists header calls,
                      ext = ERead header :: calls /\ polledReads calls)
    /\ (forall pre e post, ext = pre ++ EDone (Some e) :: post ->
          post = [] /\ res = Some (0, Some e)).
Proof.
  eexists _, _. split; [vm_compute; reflexivity|].
  split; [reflexivity|]. split; [reflexivity|].
  eapply (parse_polls_before_each_read cancelledAfterFirstRow threeRowDir
            samplePath 2 []).
  vm_compute. reflexivity.
Defined.

Lemma parse_rejects_bad_shape_witness :
  (* a header of two cells *)
  (exists e,
     run quietEnv (parseAndPersistFile (dirWith [sampleName] shortHeaderFile)
                                       samplePath 5000) []
     = (Some (0, Some e), [ERead (ReadRecord ["DataReferencia"; "CodigoInstrumento"])])
     /\ (e = ErrHeaderLength 11 (len ["DataReferencia"; "CodigoInstrumento"])
         \/ exists col want got, e = ErrHeaderCol col want got))
  (* a header with another name *)
  /\ (exists e,
        run quietEnv (parseAndPersistFile (dirWith [sampleName] renamedHeaderFile)
                                          samplePath 5000) []
        = (Some (0, Some e), [ERead (ReadRecord renamedHeader)])
        /\ (e = ErrHeaderLength 11 (len renamedHeader)
            \/ exists col want got, e = ErrHeaderCol col want got))
  (* a row of two cells on line 3 *)
  /\ (run quietEnv (parseAndPersistFile (dirWith [sampleName] shortRowFile)
                                        samplePath 5000) []).1
     = Some (0, Some (ErrColumnCount 3 11 2)).
Proof.
  split; [|split].
  - apply (proj1 (parse_rejects_bad_shape quietEnv
                    (dirWith [sampleName] shortHeaderFile) samplePath 5000 []
                    ["DataReferencia"; "CodigoInstrumento"]
                    [ReadRecord (sampleRow "10,0")] eq_refl)).
    left. vm_compute. discriminate.
  - apply (proj1 (parse_rejects_bad_shape quietEnv
                    (dirWith [sampleName] renamedHeaderFile) samplePath 5000 []
                    renamedHeader [ReadRecord (sampleRow "10,0")] eq_refl)).
    right. exists 1%nat, "Ticker", "CodigoInstrumento".
    split; [reflexivity|]. split; [reflexivity|]. vm_compute. discriminate.
  - pose proof (proj2 (parse_rejects_bad_shape quietEnv
                    (dirWith [sampleName] shortRowFile) samplePath 5000 []
                    expectedHeaders
                    [ReadRecord (sampleRow "10,0");
                     ReadRecord ["2025-09-18"; "E2E4"];
                     ReadRecord (sampleRow "11,0")] eq_refl)) as Hrow.
    destruct (run quietEnv (parseAndPersistFile (dirWith [sampleName] shortRowFile)
                                                samplePath 5000) [])
      as [res ext] eqn:Hrun.
    specialize (Hrow res ext
                  [ERead (ReadRecord expectedHeaders); EDone None;
                   ERead (ReadRecord (sampleRow "10,0")); EDone None]
                  ["2025-09-18"; "E2E4"] [] eq_refl).
    vm_compute in Hrun. injection Hrun as <- <-.
    destruct Hrow as [_ Hres].
    + reflexivity.
    + discriminate.
    + vm_compute. discriminate.
    + exact Hres.
Defined.

(** C5 fails on a header whose first cell is padded with white space: the
    cell differs from the expected name, and the file is parsed. *)
Lemma padded_header_counterexample :
  ~ ((exists (i : nat) h name,
        paddedHeader !! i = Some h /\ expectedHeaders !! i = Some name
        /\ h <> name) ->
     exists e ext,
       run quietEnv (parseAndPersistFile (dirWith [sampleName] paddedHeaderFile)
                                         samplePath defaultBatchSize) []
       = (Some (0, Some e), ext)
       /\ batches ext = []).
Proof.
  intros Hc. destruct Hc as (e & ext & Hrun & _).
  - exists 0%nat, " DataReferencia ", "DataReferencia".
    split; [reflexivity|]. split; [reflexivity|]. discriminate.
  - vm_compute in Hrun. discriminate.
Qed.

Lemma parse_batches_witness :
  (* three rows in batches of two *)
  (exists ext trades,
     1 <= 2
     /\ run quietEnv (parseAndPersistFile threeRowDir samplePath 2) []
        = (Some (3, None), ext)
     /\ Forall2 (fun rec t => recordToTrade rec = Ok t)
                [sampleRow "10,0"; sampleRow "11,0"; sampleRow "12,5"] trades
     /\ concat (batches ext) = trades
     /\ len (batches ext) = (3 + 2 - 1) / 2
     /\ map (fun c => len c) (batches ext) = [2; 1])
  (* the second insert fails *)
  /\ (exists pre trades,
        failedRun.2 = pre ++ [EInsert trades (Some (ExtErr "connection reset"))]
        /\ (failedRun.1 = Some (0, Some (ErrFinalFlush (ExtErr "connection reset")))
            \/ exists line,
                 failedRun.1
                 = Some (0, Some (ErrFlushBatch line (ExtErr "connection reset"))))).
Proof.
  split.
  - destruct (run quietEnv (parseAndPersistFile threeRowDir samplePath 2) [])
      as [res ext] eqn:Hrun.
    assert (Hres : res = Some (3, None)).
    { vm_compute in Hrun. injection Hrun as <- _. reflexivity. }
    subst res.
    destruct (proj1 (parse_batches quietEnv threeRowDir samplePath 2 [])
                ltac:(lia) 3 ext Hrun)
      as (header & r & trades & Hopen & Hrows & _ & Hcat & Hcount & _).
    exists ext, trades. split; [lia|]. split; [reflexivity|].
    injection Hopen as <- <-.
    split; [exact Hrows|]. split; [exact Hcat|]. split; [exact Hcount|].
    vm_compute in Hrun. injection Hrun as <-. reflexivity.
  - exists (take 6 failedRun.2), (default [] (batches failedRun.2 !! 1%nat)).
    split; [vm_compute; reflexivity|].
    refine (proj2 (proj2 (parse_batches secondInsertFails threeRowDir samplePath 1 [])
                     failedRun.1 failedRun.2 (take 6 failedRun.2)
                     (default [] (batches failedRun.2 !! 1%nat))
                     (ExtErr "connection reset") [] _ _));
      vm_compute; reflexivity.
Defined.

Lemma worker_force_reprocess_witness :
  fileDay samplePath = Some sampleDay
  (* the deletion fails *)
  /\ run deleteFailsEnv (worker sampleDir true samplePath) []
     = (Some (Some (ErrFileDelete samplePath (ExtErr "delete failed"))),
        [EHas sampleDay (true, None);
         EDelete sampleDay (Some (ExtErr "delete failed"))])
  (* the deletion succeeds *)
  /\ (exists pext,
        run ingestedEnv (worker sampleDir true samplePath) []
        = (Some None,
           EHas sampleDay (true, None) :: EDelete sampleDay None
           :: pext ++ [EUpsert sampleDay sampleName 2 None])
        /\ 2 = len (concat (batches pext))).
Proof.
  split; [vm_compute; reflexivity|]. split.
  - destruct (run deleteFailsEnv (worker sampleDir true samplePath) [])
      as [res ext] eqn:Hrun.
    destruct (worker_force_reprocess deleteFailsEnv sampleDir samplePath []
                sampleDay res ext ltac:(vm_compute; reflexivity) eq_refl Hrun)
      as (rest & -> & Hfail & _).
    destruct (Hfail (ExtErr "delete failed") eq_refl) as [-> ->]. reflexivity.
  - destruct (run ingestedEnv (worker sampleDir true samplePath) [])
      as [res ext] eqn:Hrun.
    destruct (worker_force_reprocess ingestedEnv sampleDir samplePath []
                sampleDay res ext ltac:(vm_compute; reflexivity) eq_refl Hrun)
      as (rest & -> & _ & Hok).
    destruct (run ingestedEnv
                (parseAndPersistFile sampleDir samplePath defaultBatchSize)
                [EHas sampleDay (true, None); EDelete sampleDay None])
      as [pres pext] eqn:Hparse.
    assert (Hpres : pres = Some (2, None)).
    { vm_compute in Hparse. injection Hparse as <- _. reflexivity. }
    subst pres.
    destruct (Hok eq_refl 2 pext Hparse) as (Hn & u & -> & Hu & ->).
    cbn in Hu. subst u. exists pext. split; [reflexivity|exact Hn].
Defined.

Lemma skip_already_ingested_witness :
  run ingestedEnv (worker sampleDir false samplePath) []
  = (Some None, [EHas sampleDay (true, None)])
  /\ exists log,
       ProcessDirectory bothDaysDir saturdayNoon 4
                        [StepWorker 1; StepWorker 0; StepWorker 1; StepWorker 1]
                        None "data" ingestedRepo 2 0 false
       = (Ok tt, ingestedRepo, log)
       /\ Forall isQuery log.
Proof.
  destruct (@skip_already_ingested fakeRepoIngestion _ decimalStrconv)
    as [Hworker Hdir].
  split.
  - apply Hworker; vm_compute; reflexivity.
  - apply (Hdir bothDaysDir saturdayNoon 4%positive _ None "data" ingestedRepo
                2 0 lastTwoDays lastTwoDays_computed).
    + apply Forall_forall. repeat constructor.
    + apply Forall_forall. repeat constructor.
      * exists fridayDay. split; vm_compute; reflexivity.
      * exists sampleDay. split; vm_compute; reflexivity.
Defined.



(** ** Examples of the further properties *)






Lemma LastNBusinessDays_recent_witness :
  LastNBusinessDays 2 saturdayNoon = Some [friday; thursday]
  /\ Forall (fun t => Before (AddDate 0 0 (- (21 * 2)) (truncateToDate saturdayNoon)) t
                      = true) [friday; thursday].
Proof.
  assert (Hrun : LastNBusinessDays 2 saturdayNoon = Some [friday; thursday])
    by (vm_compute; reflexivity).
  split; [exact Hrun|]. exact (LastNBusinessDays_recent 2 saturdayNoon _ Hrun).
Defined.

Lemma fileDay_fileName_witness :
  0 <= Year thursday <= 9999
  /\ fileDay (filepath_Join "data" (fileName thursday)) = Some sampleDay.
Proof.
  assert (Hy : 0 <= Year thursday <= 9999) by (vm_compute; split; discriminate).
  split; [exact Hy|]. exact (fileDay_fileName "data" thursday Hy).
Defined.


Lemma closing_time_clock_witness :
  recordToTrade negativeRow = Ok negativeTrade
  /\ negativeRow !! 5%nat = Some "101530000"
  /\ TrimSpace "101530000" <> ""
  /\ Hour (ClosingTime negativeTrade) = 10
  /\ Minute (ClosingTime negativeTrade) = 15
  /\ Second (ClosingTime negativeTrade) = 30
  /\ Nanosecond (ClosingTime negativeTrade) = 0.
Proof.
  assert (Hne : TrimSpace "101530000" <> "") by (vm_compute; discriminate).
  split; [exact negativeRow_parses|]. split; [reflexivity|]. split; [exact Hne|].
  destruct (closing_time_clock negativeRow negativeTrade "101530000"
              negativeRow_parses eq_refl Hne)
    as (h1 & h2 & m1 & m2 & s1 & s2 & rest & hh & mm & ss & Hs & Hhh & _ & Hmm & _
        & Hss & _ & _ & <- & <- & <- & Hn & _).
  vm_compute in Hs. injection Hs as <- <- <- <- <- <- <-.
  repeat split; reflexivity.
Defined.

Lemma parse_header_rejected_iff_witness :
  os_Open (dirWith [sampleName] renamedHeaderFile) samplePath
  = inr (ReadRecord renamedHeader :: [ReadRecord (sampleRow "10,0")])
  /\ exists e,
       run quietEnv (parseAndPersistFile (dirWith [sampleName] renamedHeaderFile)
                                         samplePath 5000) []
       = (Some (0, Some e), [ERead (ReadRecord renamedHeader)]).
Proof.
  split; [reflexivity|].
  destruct (proj1 (parse_header_rejected_iff quietEnv
                     (dirWith [sampleName] renamedHeaderFile) samplePath 5000 []
                     renamedHeader [ReadRecord (sampleRow "10,0")] eq_refl))
    as (e & Hrun & _).
  - vm_compute. discriminate.
  - exists e. exact Hrun.
Defined.

Lemma parse_row_error_witness :
  badRowRun.2 = take 4 badRowRun.2 ++ [ERead (ReadRecord (sampleRow "abc"))]
  /\ take 4 badRowRun.2 <> [] /\ len (sampleRow "abc") = 11
  /\ recordToTrade (sampleRow "abc") = Raise (ErrInvalidTradePrice "abc")
  /\ badRowRun.1
     = Some (0, Some (ErrLine (1 + countReads (take 4 badRowRun.2))
                              (ErrInvalidTradePrice "abc")))
  /\ countReads (take 4 badRowRun.2) = 2 /\ batches badRowRun.2 = [].
Proof.
  assert (Hrec : recordToTrade (sampleRow "abc") = Raise (ErrInvalidTradePrice "abc"))
    by (vm_compute; reflexivity).
  assert (Hext : badRowRun.2
                 = take 4 badRowRun.2 ++ [ERead (ReadRecord (sampleRow "abc"))])
    by (vm_compute; reflexivity).
  assert (Hpre : take 4 badRowRun.2 <> []) by (vm_compute; discriminate).
  assert (Hrun : run quietEnv (parseAndPersistFile (dirWith [sampleName] badRowFile)
                                                   samplePath 5000) []
                 = (badRowRun.1, badRowRun.2)) by (vm_compute; reflexivity).
  split; [exact Hext|]. split; [exact Hpre|]. split; [reflexivity|].
  split; [exact Hrec|]. split; [|split; vm_compute; reflexivity].
  exact (proj2 (parse_row_error quietEnv (dirWith [sampleName] badRowFile)
                  samplePath 5000 [] badRowRun.1 badRowRun.2 (take 4 badRowRun.2)
                  (sampleRow "abc") [] (ErrInvalidTradePrice "abc")
                  Hrun Hext Hpre eq_refl Hrec)).
Defined.

Lemma parse_read_error_witness :
  brokenReadRun.2
  = take 4 brokenReadRun.2
    ++ [ERead (ReadError (ExtErr "record on line 3: wrong number of fields"))]
  /\ take 4 brokenReadRun.2 <> []
  /\ brokenReadRun.1
     = Some (0, Some (ErrReadLine (countReads (take 4 brokenReadRun.2))
                        (ExtErr "record on line 3: wrong number of fields")))
  /\ countReads (take 4 brokenReadRun.2) = 2 /\ batches brokenReadRun.2 = [].
Proof.
  assert (Hext : brokenReadRun.2
                 = take 4 brokenReadRun.2
                   ++ [ERead (ReadError (ExtErr "record on line 3: wrong number of fields"))])
    by (vm_compute; reflexivity).
  assert (Hpre : take 4 brokenReadRun.2 <> []) by (vm_compute; discriminate).
  assert (Hrun : run quietEnv (parseAndPersistFile (dirWith [sampleName] brokenReadFile)
                                                   samplePath 5000) []
                 = (brokenReadRun.1, brokenReadRun.2)) by (vm_compute; reflexivity).
  split; [exact Hext|]. split; [exact Hpre|]. split; [|split; vm_compute; reflexivity].
  exact (proj2 (proj2 (parse_read_error quietEnv (dirWith [sampleName] brokenReadFile)
                         samplePath 5000 [] brokenReadRun.1 brokenReadRun.2
                         (take 4 brokenReadRun.2) _ [] Hrun Hext) Hpre eq_refl)).
Defined.

Lemma worker_success_witness :
  freshWorkerRun = (Some None, freshWorkerRun.2)
  /\ exists d,
       fileDay samplePath = Some d
       /\ ((false = false /\ freshWorkerRun.2 = [EHas d (true, None)])
           \/ exists pre n,
                freshWorkerRun.2 = pre ++ [EUpsert d (filepath_Base samplePath) n None]
                /\ n = len (concat (batches pre))).
Proof.
  assert (Hrun : run quietEnv (worker sampleDir false samplePath) []
                 = (Some None, freshWorkerRun.2))
    by (vm_compute; reflexivity).
  split; [exact Hrun|].
  exact (worker_success quietEnv sampleDir false samplePath [] freshWorkerRun.2 Hrun).
Defined.

Lemma worker_ledger_calls_witness :
  exists res ext,
    run ingestedEnv (worker sampleDir true samplePath) [] = (res, ext)
    /\ EDelete sampleDay None ∈ ext
    /\ exists rest, ext = EHas sampleDay (true, None) :: EDelete sampleDay None :: rest.
Proof.
  eexists _, _. split; [vm_compute; reflexivity|].
  assert (Hin : EDelete sampleDay None
                ∈ (run ingestedEnv (worker sampleDir true samplePath) []).2).
  { vm_compute. right. left. }
  split; [exact Hin|].
  assert (Hrun : run ingestedEnv (worker sampleDir true samplePath) []
                 = ((run ingestedEnv (worker sampleDir true samplePath) []).1,
                    (run ingestedEnv (worker sampleDir true samplePath) []).2))
    by (vm_compute; reflexivity).
  destruct (proj1 (proj2 (worker_ledger_calls ingestedEnv sampleDir true samplePath []
                            _ _ Hrun))
              sampleDay None Hin) as (_ & _ & rest & Hrest).
  exists rest. exact Hrest.
Defined.

Lemma rerun_inserts_nothing_witness :
  let first := ProcessDirectory bothDaysDir saturdayNoon 4
                 [StepWorker 0; StepWorker 1] None "data" emptyRepo 2 0 false in
  let repo1 := first.1.2 in
  first = (Ok tt, repo1, first.2)
    /\ inserted repo1 = 4
    /\ exists log2,
         ProcessDirectory bothDaysDir saturdayNoon 2 [StepWorker 1; StepWorker 0]
                          None "data" repo1 2 1 false
         = (Ok tt, repo1, log2)
         /\ Forall isQuery log2.
Proof.
  cbv zeta. split; [vm_compute; reflexivity|]. split; [vm_compute; reflexivity|].
  assert (Hrun : ProcessDirectory bothDaysDir saturdayNoon 4
                   [StepWorker 0; StepWorker 1] None "data" emptyRepo 2 0 false
                 = (Ok tt,
                    (ProcessDirectory bothDaysDir saturdayNoon 4
                       [StepWorker 0; StepWorker 1] None "data" emptyRepo 2 0 false).1.2,
                    (ProcessDirectory bothDaysDir saturdayNoon 4
                       [StepWorker 0; StepWorker 1] None "data" emptyRepo 2 0 false).2))
    by (vm_compute; reflexivity).
  exact (rerun_inserts_nothing bothDaysDir saturdayNoon 4%positive
           [StepWorker 0; StepWorker 1] None "data" emptyRepo 2 0 false _ _
           Hrun 2%positive [StepWorker 1; StepWorker 0] None 1).
Defined.

Lemma date_cells_read_back_witness :
  recordToTrade negativeRow = Ok negativeTrade
  /\ negativeRow !! 8%nat = Some "2025-09-11"
  /\ TrimSpace "2025-09-11" <> ""
  /\ writtenDate (TrimSpace "2025-09-11") (TradeDate negativeTrade)
  /\ (Year (TradeDate negativeTrade), Month (TradeDate negativeTrade),
      Day (TradeDate negativeTrade)) = (2025, 9, 11).
Proof.
  assert (Hne : TrimSpace "2025-09-11" <> "") by (vm_compute; discriminate).
  split; [exact negativeRow_parses|]. split; [reflexivity|]. split; [exact Hne|].
  split; [|vm_compute; reflexivity].
  exact (proj2 (date_cells_read_back negativeRow negativeTrade negativeRow_parses)
               "2025-09-11" eq_refl Hne).
Defined.

Lemma success_logs_every_day_witness :
  let first := ProcessDirectory bothDaysDir saturdayNoon 4
                 [StepWorker 0; StepWorker 1] None "data" emptyRepo 2 0 false in
  first = (Ok tt, first.1.2, first.2)
  /\ expectedFiles "data" 2 saturdayNoon
     = [filepath_Join "data" fridayName; samplePath]
  /\ forall f, f ∈ expectedFiles "data" 2 saturdayNoon ->
               os_Stat bothDaysDir f = StatOk /\ dayLogged first.1.2 f.
Proof.
  cbv zeta.
  assert (Hrun : ProcessDirectory bothDaysDir saturdayNoon 4
                   [StepWorker 0; StepWorker 1] None "data" emptyRepo 2 0 false
                 = (Ok tt,
                    (ProcessDirectory bothDaysDir saturdayNoon 4
                       [StepWorker 0; StepWorker 1] None "data" emptyRepo 2 0 false).1.2,
                    (ProcessDirectory bothDaysDir saturdayNoon 4
                       [StepWorker 0; StepWorker 1] None "data" emptyRepo 2 0 false).2))
    by (vm_compute; reflexivity).
  split; [exact Hrun|]. split; [vm_compute; reflexivity|].
  exact (proj2 (proj2 (proj2 (success_logs_every_day bothDaysDir saturdayNoon
                                4%positive [StepWorker 0; StepWorker 1] None "data"
                                emptyRepo 2 0 false _ _ Hrun)))).
Defined.

Lemma null_columns_witness :
  recordToTrade negativeRow = Ok negativeTrade
  /\ storage.execArgs negativeTrade !! 0%nat = Some storage.SqlNull
  /\ exists c0 c5 c8,
       negativeRow !! 0%nat = Some c0 /\ negativeRow !! 5%nat = Some c5
       /\ negativeRow !! 8%nat = Some c8
       /\ (storage.execArgs negativeTrade !! 0%nat = Some storage.SqlNull
           <-> TrimSpace c0 = "" \/ TrimSpace c0 = "0001-01-01")
       /\ (storage.execArgs negativeTrade !! 5%nat = Some storage.SqlNull
           <-> TrimSpace c5 = "")
       /\ (storage.execArgs negativeTrade !! 8%nat = Some storage.SqlNull
           <-> TrimSpace c8 = "" \/ TrimSpace c8 = "0001-01-01")
       /\ (forall i : nat,
             storage.execArgs negativeTrade !! i = Some storage.SqlNull ->
             i = 0%nat \/ i = 5%nat \/ i = 8%nat)
       /\ length (storage.execArgs negativeTrade) = length storage.copyColumns.
Proof.
  split; [exact negativeRow_parses|]. split; [reflexivity|].
  exact (null_columns negativeRow negativeTrade negativeRow_parses).
Defined.

(** With [force], the trades of the two ingested days are deleted before
    the workers find the context done; nothing is inserted and the run
    fails with the error of the context. *)
Lemma cancelled_force_still_deletes :
  cancelledForceRun.1.1
  = Raise (ErrFile (filepath_Join "data" fridayName) context_Canceled)
  /\ cancelledForceRun.2 !! 1%nat = Some (0%nat, EDelete fridayDay None)
  /\ cancelledForceRun.2 !! 5%nat = Some (1%nat, EDelete sampleDay None)
  /\ inserted cancelledForceRun.1.2 = 0.
Proof. vm_compute. repeat split; reflexivity. Qed.

(** A batch of one trade whose flush fails: the statement is closed, the
    transaction rolled back, and the error of the flush returned. *)
Lemma InsertTradesBatch_flush_fails :
  storage.InsertTradesBatch flushFails [negativeTrade] []
  = (Some (ExtErr "copy failed"),
     [ (storage.DbBegin, None);
       (storage.TxExec "SET LOCAL synchronous_commit = OFF", None);
       (storage.TxPrepareCopyIn "trades" storage.copyColumns, None);
       (storage.StmtExec (storage.execArgs negativeTrade), None);
       (storage.StmtExec [], Some (ExtErr "copy failed"));
       (storage.StmtClose, None);
       (storage.TxRollback, None) ]).
Proof. reflexivity. Qed.
